(** * postgresql_manager: session gate, login throttle and query routes

    A shallow embedding of [src/middleware/auth.js] and
    [src/routes/database.js].

    Conventions of the embedding.
    - A JavaScript string is a [string], a sequence of code units below
      256; the character-level primitives the sources use ([includes],
      [trim], [toLowerCase], [replace], [join], [RegExp.test]) are
      defined on it below. Letters are the ASCII ones: the patterns the
      sources search for and the identifier pattern hold ASCII
      characters only. White space is what [trim] and [parseInt] skip
      among these code units.
    - A JavaScript number is a double. The numbers of the list route are
      integers, zeros, infinities or [NaN]; they are kept as integers
      with the rounding to 53 significant bits written out.
    - [Date.now()] readings are integers (milliseconds) handed in by the
      caller, one per call site that reads the clock.
    - The two process-wide registries ([sessions], [global.loginAttempts])
      are finite maps threaded through the functions that touch them.
    - A route handler is a program over the database client: every
      [client.connect()], [client.query(...)] and [client.end()] is a node
      of the program, answered by an oracle standing for the server. *)

From Stdlib Require Import ZArith Ascii String List Bool Lia.
From stdpp Require Import base option gmap strings list pretty.

Local Open Scope string_scope.

(** ** String primitives *)

Module JsString.

Definition in_range (lo hi c : ascii) : bool :=
  (nat_of_ascii lo <=? nat_of_ascii c)%nat && (nat_of_ascii c <=? nat_of_ascii hi)%nat.

Definition is_upper (c : ascii) : bool := in_range "A" "Z" c.
Definition is_lower (c : ascii) : bool := in_range "a" "z" c.
Definition is_digit (c : ascii) : bool := in_range "0" "9" c.

(** [String.prototype.toLowerCase] / [toUpperCase] on the ASCII letters. *)
Definition lower_char (c : ascii) : ascii :=
  if is_upper c then ascii_of_nat (nat_of_ascii c + 32) else c.
Definition upper_char (c : ascii) : ascii :=
  if is_lower c then ascii_of_nat (nat_of_ascii c - 32) else c.

Fixpoint map_chars (f : ascii -> ascii) (s : string) : string :=
  match s with
  | EmptyString => EmptyString
  | String c t => String (f c) (map_chars f t)
  end.

Definition toLowerCase : string -> string := map_chars lower_char.
Definition toUpperCase : string -> string := map_chars upper_char.

(** White space recognised by [trim] and [parseInt]: TAB, LF, VT, FF, CR,
    SP and the no-break space, code unit 160. *)
Definition is_space (c : ascii) : bool :=
  let n := nat_of_ascii c in
  ((9 <=? n)%nat && (n <=? 13)%nat) || (n =? 32)%nat || (n =? 160)%nat.

Fixpoint trimStart (s : string) : string :=
  match s with
  | String c t => if is_space c then trimStart t else s
  | EmptyString => EmptyString
  end.

Fixpoint rev_acc (s acc : string) : string :=
  match s with
  | EmptyString => acc
  | String c t => rev_acc t (String c acc)
  end.
Definition rev (s : string) : string := rev_acc s EmptyString.

Definition trimEnd (s : string) : string := rev (trimStart (rev s)).
Definition trim (s : string) : string := trimEnd (trimStart s).

Fixpoint startsWith (p s : string) : bool :=
  match p, s with
  | EmptyString, _ => true
  | String a p', String b s' => Ascii.eqb a b && startsWith p' s'
  | String _ _, EmptyString => false
  end.

(** [hay.includes(needle)] *)
Fixpoint includes (needle hay : string) : bool :=
  startsWith needle hay ||
  match hay with
  | EmptyString => false
  | String _ t => includes needle t
  end.

(** [parts.join(sep)] *)
Fixpoint join (sep : string) (parts : list string) : string :=
  match parts with
  | [] => ""
  | [p] => p
  | p :: rest => p +:+ sep +:+ join sep rest
  end.

(** The double-quote character, code unit 34. *)
Definition dquote : ascii := Ascii false true false false false true false false.

(** The global replace of the export route: the pattern is the single
    character [dquote]; every match, scanning left to right, is replaced
    by two [dquote] characters. *)
Fixpoint doubleQuotes (s : string) : string :=
  match s with
  | EmptyString => EmptyString
  | String c t =>
      if Ascii.eqb c dquote
      then String dquote (String dquote (doubleQuotes t))
      else String c (doubleQuotes t)
  end.

(** Value of a hexadecimal digit. *)
Definition hexval (c : ascii) : option nat :=
  let n := nat_of_ascii c in
  if is_digit c then Some (n - 48)
  else if in_range "a" "f" c then Some (n - 87)
  else if in_range "A" "F" c then Some (n - 55)
  else None.

Fixpoint count_char (c : ascii) (s : string) : nat :=
  match s with
  | EmptyString => 0
  | String d t => (if Ascii.eqb c d then 1 else 0) + count_char c t
  end.

End JsString.

(** ** Regular expressions, as far as the identifier pattern needs them *)

Module Regex.

(** A character class is a list of inclusive ranges; a single character
    [c] is the range [(c, c)]. *)
Inductive re : Type :=
| Void
| Eps
| Class (ranges : list (ascii * ascii))
| Cat (r1 r2 : re)
| Alt (r1 r2 : re)
| Star (r : re).

Definition in_class (ranges : list (ascii * ascii)) (c : ascii) : bool :=
  existsb (fun lohi => JsString.in_range (fst lohi) (snd lohi) c) ranges.

(** Declarative meaning: the strings a pattern denotes. *)
Inductive Matches : re -> string -> Prop :=
| MEps : Matches Eps ""
| MClass ranges c : in_class ranges c = true -> Matches (Class ranges) (String c "")
| MCat r1 r2 s1 s2 : Matches r1 s1 -> Matches r2 s2 -> Matches (Cat r1 r2) (s1 +:+ s2)
| MAltL r1 r2 s : Matches r1 s -> Matches (Alt r1 r2) s
| MAltR r1 r2 s : Matches r2 s -> Matches (Alt r1 r2) s
| MStarNil r : Matches (Star r) ""
| MStarCons r s1 s2 : Matches r s1 -> Matches (Star r) s2 -> Matches (Star r) (s1 +:+ s2).

(** The matcher: Brzozowski derivatives. *)
Fixpoint nullable (r : re) : bool :=
  match r with
  | Void => false
  | Eps => true
  | Class _ => false
  | Cat r1 r2 => nullable r1 && nullable r2
  | Alt r1 r2 => nullable r1 || nullable r2
  | Star _ => true
  end.

Fixpoint deriv (c : ascii) (r : re) : re :=
  match r with
  | Void => Void
  | Eps => Void
  | Class ranges => if in_class ranges c then Eps else Void
  | Cat r1 r2 =>
      if nullable r1
      then Alt (Cat (deriv c r1) r2) (deriv c r2)
      else Cat (deriv c r1) r2
  | Alt r1 r2 => Alt (deriv c r1) (deriv c r2)
  | Star r' => Cat (deriv c r') (Star r')
  end.

Fixpoint matchb (r : re) (s : string) : bool :=
  match s with
  | EmptyString => nullable r
  | String c t => matchb (deriv c r) t
  end.

(** [/^body$/.test(s)]: with both anchors and no [m] flag the only
    candidate match is the whole input. *)
Definition test_anchored (body : re) (s : string) : bool := matchb body s.

(** The literal of the routes: [^[a-zA-Z_][a-zA-Z0-9_]*$]. *)
Definition identifier_re : re :=
  Cat (Class [("a", "z"); ("A", "Z"); ("_", "_")]%char)
      (Star (Class [("a", "z"); ("A", "Z"); ("0", "9"); ("_", "_")]%char)).

(** The pattern as the specification writes it: [^[A-Za-z_][A-Za-z0-9_]*$]. *)
Definition spec_identifier_re : re :=
  Cat (Class [("A", "Z"); ("a", "z"); ("_", "_")]%char)
      (Star (Class [("A", "Z"); ("a", "z"); ("0", "9"); ("_", "_")]%char)).

(** Character-wise reading of the same pattern. *)
Definition ident_start (c : ascii) : bool :=
  JsString.is_upper c || JsString.is_lower c || Ascii.eqb c "_".
Definition ident_part (c : ascii) : bool :=
  ident_start c || JsString.is_digit c.

Fixpoint all_chars (p : ascii -> bool) (s : string) : bool :=
  match s with
  | EmptyString => true
  | String c t => p c && all_chars p t
  end.

Definition is_identifier (s : string) : bool :=
  match s with
  | EmptyString => false
  | String c t => ident_start c && all_chars ident_part t
  end.

End Regex.

(** The guard every table route opens with:
    [!tableName || !/^[a-zA-Z_][a-zA-Z0-9_]*$/.test(tableName)]. *)
Definition falsy_string (s : string) : bool :=
  match s with EmptyString => true | _ => false end.

Definition invalidTableName (tableName : string) : bool :=
  falsy_string tableName || negb (Regex.test_anchored Regex.identifier_re tableName).

(** ** [src/middleware/auth.js] *)

Module Auth.

(** [AUTH_CONFIG]; [sessionTimeout] is in milliseconds. *)
Record AuthConfig : Type := {
  username : string;
  password : string;
  secretKey : string;
  sessionTimeout : Z
}.

(** The values [AUTH_CONFIG] takes when the environment sets none. *)
Definition defaultConfig : AuthConfig := {|
  username := "admin";
  password := "your_secure_password_here";
  secretKey := "your-secret-key-here-change-in-production";
  sessionTimeout := 30 * 60 * 1000
|}.

Record Session : Type := {
  id : string;
  userId : string;
  createdAt : Z;
  lastActivity : Z;
  isValid : bool
}.

(** [session.lastActivity = t] on the stored object. *)
Definition touch (t : Z) (session : Session) : Session :=
  {| id := id session; userId := userId session; createdAt := createdAt session;
     lastActivity := t; isValid := isValid session |}.

(** [now - session.lastActivity > AUTH_CONFIG.sessionTimeout] *)
Definition expired (cfg : AuthConfig) (now : Z) (session : Session) : bool :=
  (now - lastActivity session >? sessionTimeout cfg)%Z.

(** [validateSession]: [tCheck] is the clock reading of the expiry test,
    [tTouch] the one stored into [lastActivity]. The result pairs the
    returned value ([None] for [null]) with the registry afterwards. *)
Definition validateSession (cfg : AuthConfig) (tCheck tTouch : Z) (sessionId : string)
    (sessions : gmap string Session) : option Session * gmap string Session :=
  match sessions !! sessionId with
  | None => (None, sessions)
  | Some session =>
      if negb (isValid session) then (None, sessions)
      else if expired cfg tCheck session then (None, delete sessionId sessions)
      else
        let session' := touch tTouch session in
        (Some session', <[sessionId := session']> sessions)
  end.

(** [cleanupExpiredSessions] *)
Definition cleanupExpiredSessions (cfg : AuthConfig) (now : Z)
    (sessions : gmap string Session) : gmap string Session :=
  filter (fun kv => expired cfg now (snd kv) = false) sessions.

(** [createSession]; [sessionId] is the value [generateSessionId] drew. *)
Definition createSession (cfg : AuthConfig) (sessionId : string)
    (tCreated tActivity tSweep : Z) (user : string)
    (sessions : gmap string Session) : string * gmap string Session :=
  let session := {| id := sessionId; userId := user; createdAt := tCreated;
                    lastActivity := tActivity; isValid := true |} in
  (sessionId, cleanupExpiredSessions cfg tSweep (<[sessionId := session]> sessions)).

Definition destroySession (sessionId : string) (sessions : gmap string Session)
    : gmap string Session :=
  delete sessionId sessions.

(** *** Comparisons and what they reveal

    A comparison is run together with the positions it inspects, in
    order. [===] on two strings is the usual engine routine: unequal
    lengths answer at once, otherwise the code units are compared from
    the left up to the first difference. [crypto.timingSafeEqual]
    inspects every position whatever the contents. *)
Definition CmpTrace : Type := list nat.

Fixpoint compare_units (i : nat) (a b : string) : bool * CmpTrace :=
  match a, b with
  | String x a', String y b' =>
      if Ascii.eqb x y
      then let '(r, t) := compare_units (S i) a' b' in (r, i :: t)
      else (false, [i])
  | EmptyString, EmptyString => (true, [])
  | _, _ => (false, [])
  end.

Definition strictEquals_traced (a b : string) : bool * CmpTrace :=
  if (String.length a =? String.length b)%nat then compare_units 0 a b else (false, []).

(** [x === s] where [x] may be [undefined] ([None]). *)
Definition field_equals_traced (x : option string) (s : string) : bool * CmpTrace :=
  match x with
  | None => (false, [])
  | Some a => strictEquals_traced a s
  end.

(** [username === AUTH_CONFIG.username && password === AUTH_CONFIG.password];
    the trace keeps the two comparisons apart. *)
Definition credentialsMatch_traced (cfg : AuthConfig) (user pass : option string)
    : bool * (CmpTrace * CmpTrace) :=
  let '(r1, t1) := field_equals_traced user (username cfg) in
  if r1
  then let '(r2, t2) := field_equals_traced pass (password cfg) in (r2, (t1, t2))
  else (false, (t1, [])).

Definition credentialsMatch (cfg : AuthConfig) (user pass : option string) : bool :=
  fst (credentialsMatch_traced cfg user pass).

(** The positions of the submitted password the handler inspects. *)
Definition passwordComparison (cfg : AuthConfig) (user pass : option string) : CmpTrace :=
  snd (snd (credentialsMatch_traced cfg user pass)).

Fixpoint scan_all (i : nat) (a b : string) : bool * CmpTrace :=
  match a, b with
  | String x a', String y b' =>
      let '(r, t) := scan_all (S i) a' b' in (Ascii.eqb x y && r, i :: t)
  | _, _ => (true, [])
  end.

(** [crypto.timingSafeEqual(a, b)]; [None] is the RangeError on buffers
    of different lengths. *)
Definition timingSafeEqual (a b : string) : option (bool * CmpTrace) :=
  if (String.length a =? String.length b)%nat then Some (scan_all 0 a b) else None.

(** [Buffer.from(s, 'hex')]: decoding stops at the first pair that is
    not two hexadecimal digits. *)
Fixpoint bufferFromHex (s : string) : string :=
  match s with
  | String h (String l t) =>
      match JsString.hexval h, JsString.hexval l with
      | Some x, Some y => String (ascii_of_nat (16 * x + y)) (bufferFromHex t)
      | _, _ => EmptyString
      end
  | _ => EmptyString
  end.

(** [verifyPassword]; [hashPassword] is the PBKDF2 digest in hexadecimal. *)
Definition verifyPassword (hashPassword : string -> string -> string)
    (pass hash salt : string) : option (bool * CmpTrace) :=
  let hashToVerify := hashPassword pass salt in
  timingSafeEqual (bufferFromHex hash) (bufferFromHex hashToVerify).

(** *** The login handler and its throttle *)

(** An entry of [global.loginAttempts]. *)
Record Attempts : Type := {
  count : nat;
  lastAttempt : Z
}.

Definition window : Z := 15 * 60 * 1000.
Definition maxAttempts : nat := 5.

Record AuthState : Type := {
  sessions : gmap string Session;
  loginAttempts : gmap string Attempts
}.

Record LoginRequest : Type := {
  body_username : option string;
  body_password : option string;
  body_redirect : option string;
  clientIP : string
}.

(** What the handler draws from its surroundings: the clock reading
    [now] of the handler, the session id and the three clock readings
    inside [createSession]. *)
Record LoginEnv : Type := {
  now : Z;
  freshSessionId : string;
  tCreated : Z;
  tActivity : Z;
  tSweep : Z
}.

Inductive LoginResponse : Type :=
| RedirectToLogin (error : string) (redirect : string)
| RedirectWithCookie (cookie : string) (maxAge : Z) (target : string).

Definition tooManyMessage : string := "Too many failed attempts. Please try again later.".
Definition invalidMessage : string := "Invalid username or password".

(** [global.loginAttempts.get(clientIP) || { count: 0, lastAttempt: 0 }] *)
Definition attemptsOf (ip : string) (la : gmap string Attempts) : Attempts :=
  default {| count := 0; lastAttempt := 0 |} (la !! ip).

Definition windowExpired (t : Z) (a : Attempts) : bool :=
  (t - lastAttempt a >? window)%Z.

(** The reset [attempts.count = 0] writes to the object held by the map
    when the entry exists, and to a fresh object otherwise. *)
Definition afterReset (t : Z) (a : Attempts) : Attempts :=
  if windowExpired t a then {| count := 0; lastAttempt := lastAttempt a |} else a.

Definition storeReset (t : Z) (ip : string) (la : gmap string Attempts)
    : gmap string Attempts :=
  match la !! ip with
  | Some a => <[ip := afterReset t a]> la
  | None => la
  end.

(** [isBlocked]: the test [attempts.count >= 5] after the reset. *)
Definition isBlocked (t : Z) (ip : string) (la : gmap string Attempts) : bool :=
  (maxAttempts <=? count (afterReset t (attemptsOf ip la)))%nat.

Definition login (cfg : AuthConfig) (env : LoginEnv) (req : LoginRequest)
    (st : AuthState) : LoginResponse * AuthState :=
  let redirect := default "/api/db" (body_redirect req) in
  let ip := clientIP req in
  let attempts := afterReset (now env) (attemptsOf ip (loginAttempts st)) in
  let la := storeReset (now env) ip (loginAttempts st) in
  if (maxAttempts <=? count attempts)%nat then
    (RedirectToLogin tooManyMessage redirect,
     {| sessions := sessions st; loginAttempts := la |})
  else if credentialsMatch cfg (body_username req) (body_password req) then
    let '(sessionId, sessions') :=
      createSession cfg (freshSessionId env) (tCreated env) (tActivity env) (tSweep env)
                    (default "" (body_username req)) (sessions st) in
    (RedirectWithCookie sessionId (sessionTimeout cfg) redirect,
     {| sessions := sessions'; loginAttempts := delete ip la |})
  else
    let attempts' := {| count := S (count attempts); lastAttempt := now env |} in
    (RedirectToLogin invalidMessage redirect,
     {| sessions := sessions st; loginAttempts := <[ip := attempts']> la |}).

(** A run of the handler over a list of requests from the same state. *)
Fixpoint loginMany (cfg : AuthConfig) (reqs : list (LoginEnv * LoginRequest))
    (st : AuthState) : list LoginResponse * AuthState :=
  match reqs with
  | [] => ([], st)
  | (env, req) :: rest =>
      let '(r, st') := login cfg env req st in
      let '(rs, st'') := loginMany cfg rest st' in
      (r :: rs, st'')
  end.

End Auth.

(** ** Numbers of the pagination arithmetic

    The numbers the list route computes with come from [parseInt], a
    subtraction, a multiplication and [Math.ceil] of a division. Each is
    a double that holds an integer, a zero of either sign, an infinity or
    [NaN] (what [parseInt] answers on a text without digits). [Fin z] is
    the double of value [z], with [Fin 0] the positive zero; only values
    a double can take occur under [Fin]. An operation computes the exact
    result and rounds it to the nearest double, to the even one of two
    equally near. *)

Module JsNum.

Local Open Scope Z_scope.

Inductive t : Type :=
| Fin (z : Z)
| NegZero
| NaN
| PosInf
| NegInf.

(** The integer nearest to [n / d], the even one of the two when [n / d]
    lies half way; [n] is not negative and [d] is positive. *)
Definition nearest (n d : Z) : Z :=
  let q := n / d in
  let r := n mod d in
  if 2 * r <? d then q
  else if d <? 2 * r then q + 1
  else if Z.even q then q else q + 1.

(** A positive integer rounded to 53 significant bits. *)
Definition round53 (a : Z) : Z :=
  let e := Z.log2 a - 52 in
  if e <=? 0 then a else nearest a (2 ^ e) * 2 ^ e.

(** The zero and the infinity of a given sign. *)
Definition zero (minus : bool) : t := if minus then NegZero else Fin 0.
Definition inf (minus : bool) : t := if minus then NegInf else PosInf.

(** The number an integer other than zero is read or computed as: the
    nearest double, an infinity from 2^1024 on. *)
Definition of_Z (z : Z) : t :=
  let r := round53 (Z.abs z) in
  if 2 ^ 1024 <=? r then inf (z <? 0) else Fin (Z.sgn z * r).

(** The sign bit. *)
Definition negative (a : t) : bool :=
  match a with
  | Fin z => z <? 0
  | NegZero | NegInf => true
  | NaN | PosInf => false
  end.

(** The absolute value of a finite number. *)
Definition magnitude (a : t) : option Z :=
  match a with
  | Fin z => Some (Z.abs z)
  | NegZero => Some 0
  | NaN | PosInf | NegInf => None
  end.

(** [a - b] *)
Definition sub (a b : t) : t :=
  match a, b with
  | NaN, _ | _, NaN => NaN
  | PosInf, PosInf | NegInf, NegInf => NaN
  | PosInf, _ | _, NegInf => PosInf
  | NegInf, _ | _, PosInf => NegInf
  | NegZero, NegZero => Fin 0
  | NegZero, Fin y => if y =? 0 then NegZero else Fin (- y)
  | Fin x, NegZero => Fin x
  | Fin x, Fin y => of_Z (x - y)
  end.

(** [a * b] *)
Definition mul (a b : t) : t :=
  let sign := xorb (negative a) (negative b) in
  match a, b with
  | NaN, _ | _, NaN => NaN
  | _, _ =>
      match magnitude a, magnitude b with
      | Some x, Some y => if x * y =? 0 then zero sign else of_Z ((if sign then -1 else 1) * (x * y))
      | Some x, None | None, Some x => if x =? 0 then NaN else inf sign
      | None, None => inf sign
      end
  end.

(** Ceiling of the exact quotient, [- floor (- x / y)]. *)
Definition cdiv (x y : Z) : Z := - ((- x) / y).

(** [x / (y * 2^e)] as a fraction of integers. *)
Definition scaled (x y e : Z) : Z * Z :=
  if 0 <=? e then (x, y * 2 ^ e) else (x * 2 ^ (- e), y).

(** The exponent of the double nearest to [x / y], for positive [x] and
    [y]: the [e] with 2^52 <= x / (y * 2^e) < 2^53, and -1074 below the
    normal range. *)
Definition exponent (x y : Z) : Z :=
  let e0 := Z.log2 x - Z.log2 y - 52 in
  let '(n, d) := scaled x y e0 in
  Z.max (-1074) (if n <? 2 ^ 52 * d then e0 - 1 else e0).

(** The double nearest to [x / y], as [m * 2^e]. *)
Definition quotient (x y : Z) : Z * Z :=
  let e := exponent x y in
  let '(n, d) := scaled x y e in
  (nearest n d, e).

(** Floor and ceiling of [m * 2^e]. *)
Definition floor_of (me : Z * Z) : Z :=
  let '(m, e) := me in
  if 0 <=? e then m * 2 ^ e else m / 2 ^ (- e).
Definition ceil_of (me : Z * Z) : Z :=
  let '(m, e) := me in
  if 0 <=? e then m * 2 ^ e else cdiv m (2 ^ (- e)).

(** [Math.ceil(a / b)] *)
Definition ceil_div (a b : t) : t :=
  let sign := xorb (negative a) (negative b) in
  match a, b with
  | NaN, _ | _, NaN => NaN
  | _, _ =>
      match magnitude a, magnitude b with
      | None, None => NaN
      | None, Some _ => inf sign
      | Some _, None => zero sign
      | Some x, Some y =>
          if y =? 0 then (if x =? 0 then NaN else inf sign)
          else if x =? 0 then zero sign
          else if sign then
            let f := floor_of (quotient x y) in
            if f =? 0 then NegZero else Fin (- f)
          else Fin (ceil_of (quotient x y))
      end
  end.

(** The integer a number stands for, both zeros for 0. *)
Definition value (a : t) : option Z :=
  match a with
  | Fin z => Some z
  | NegZero => Some 0
  | NaN | PosInf | NegInf => None
  end.

Definition digitval (radix : nat) (c : ascii) : option Z :=
  match JsString.hexval c with
  | Some v => if (v <? radix)%nat then Some (Z.of_nat v) else None
  | None => None
  end.

(** The longest prefix of digits, accumulated; [None] while no digit
    has been read. *)
Fixpoint digits (radix : nat) (s : string) (acc : option Z) : option Z :=
  match s with
  | String c rest =>
      match digitval radix c with
      | Some d => digits radix rest (Some (Z.of_nat radix * default 0%Z acc + d)%Z)
      | None => acc
      end
  | EmptyString => acc
  end.

(** [parseInt(s)] with no radix argument: leading white space, a sign,
    a [0x] prefix, then digits; the integer read is rounded to the
    nearest double, and zero keeps the sign. (The standard lets an
    engine read decimal digits after the twentieth as zeros; Node's
    engine reads them all.) *)
Definition parseInt (s : string) : t :=
  let s1 := JsString.trimStart s in
  let '(neg, s2) :=
    match s1 with
    | String "-" rest => (true, rest)
    | String "+" rest => (false, rest)
    | _ => (false, s1)
    end in
  let '(radix, s3) :=
    match s2 with
    | String "0" (String "x" rest) | String "0" (String "X" rest) => (16%nat, rest)
    | _ => (10%nat, s2)
    end in
  match digits radix s3 None with
  | None => NaN
  | Some v => if v =? 0 then zero neg else of_Z (if neg then - v else v)
  end.

(** A query-string parameter with a numeric default:
    [const { page = 1 } = req.query; ... parseInt(page)]. An absent
    parameter is the number itself, whose text parses back to it. *)
Definition parseIntOr (dflt : Z) (x : option string) : t :=
  match x with
  | None => Fin dflt
  | Some s => parseInt s
  end.

End JsNum.

(** ** Values delivered by the driver and by the body parser

    The runtime's own number and object values, with the three built-in
    conversions the routes apply to them. *)
Class JsRuntime : Type := {
  JsNumber : Type;
  JsObject : Type;
  Number_toString : JsNumber -> string;
  Object_toString : JsObject -> string;
  JSON_stringify : JsObject -> string
}.

Inductive Value `{JsRuntime} : Type :=
| VUndefined
| VNull
| VBool (b : bool)
| VNum (n : JsNumber)
| VStr (s : string)
| VObj (o : JsObject).

(** A row object, as the list of its entries in key order
    ([Object.keys] / [Object.values]). *)
Definition Row `{JsRuntime} : Type := list (string * Value).

Section Values.
Context `{JsRuntime}.

(** [String(v)], also the conversion of template literals. *)
Definition ToString (v : Value) : string :=
  match v with
  | VUndefined => "undefined"
  | VNull => "null"
  | VBool true => "true"
  | VBool false => "false"
  | VNum n => Number_toString n
  | VStr s => s
  | VObj o => Object_toString o
  end.

(** [typeof v === 'object'] *)
Definition typeof_object (v : Value) : bool :=
  match v with
  | VNull | VObj _ => true
  | _ => false
  end.

(** [row.key] *)
Fixpoint field (key : string) (row : Row) : Value :=
  match row with
  | [] => VUndefined
  | (k, v) :: rest => if String.eqb k key then v else field key rest
  end.

Definition keys (row : Row) : list string := map fst row.
Definition values (row : Row) : list Value := map snd row.

End Values.

(** ** The database client *)

Section Driver.
Context `{JsRuntime}.

(** A thrown value: [err.code] (absent on a [TypeError]) and [err.message]. *)
Record JsError : Type := {
  err_code : option string;
  err_message : string
}.

Definition typeError (msg : string) : JsError :=
  {| err_code := None; err_message := msg |}.

Inductive Param : Type :=
| PStr (s : string)
| PNum (n : JsNum.t)
| PVal (v : Value).

Inductive RowCount : Type :=
| RcUndefined
| RcNull
| RcNum (n : nat).

(** What [client.query] resolves to. For a text of one statement every
    property is present; for a text of several statements the driver
    answers with an array, on which all of them are [undefined]. *)
Record QueryResult : Type := {
  rows : option (list Row);
  rowCount : RowCount;
  command : option string;
  fields : option (list string)
}.

Inductive DbOp : Type :=
| Connect
| Query (text : string) (params : option (list Param))
| End_.

Inductive Answer : Type :=
| Resolved (r : QueryResult)
| Rejected (e : JsError).

(** A handler, as the tree of its client calls. *)
Inductive Prog (A : Type) : Type :=
| Ret (a : A)
| Do (op : DbOp) (k : Answer -> Prog A).
Arguments Ret {A} a.
Arguments Do {A} op k.

Fixpoint bind {A B : Type} (m : Prog A) (k : A -> Prog B) : Prog B :=
  match m with
  | Ret a => k a
  | Do op f => Do op (fun ans => bind (f ans) k)
  end.

(** The server: it answers a call knowing the calls made before it. *)
Definition Oracle : Type := list DbOp -> DbOp -> Answer.

(** Running a handler: its result and the calls it made, oldest first. *)
Fixpoint run_from {A : Type} (db : Oracle) (done : list DbOp) (p : Prog A)
    : A * list DbOp :=
  match p with
  | Ret a => (a, done)
  | Do op k => run_from db (done ++ [op])%list (k (db done op))
  end.

Definition run {A : Type} (db : Oracle) (p : Prog A) : A * list DbOp :=
  run_from db [] p.

(** The body of a [try] block: [inl] is a thrown error. *)
Definition Try (A : Type) : Type := Prog (JsError + A).

Definition await (op : DbOp) : Try QueryResult :=
  Do op (fun ans =>
    Ret (match ans with Resolved r => inr r | Rejected e => inl e end)).

Definition throw {A : Type} (e : JsError) : Try A := Ret (inl e).
Definition pure {A : Type} (a : A) : Try A := Ret (inr a).

Definition tbind {A B : Type} (m : Try A) (k : A -> Try B) : Try B :=
  bind m (fun r => match r with inl e => Ret (inl e) | inr a => k a end).

(** Reading a property of [undefined] throws. *)
Definition defined {A : Type} (what : string) (x : option A) : Try A :=
  match x with
  | Some a => pure a
  | None => throw (typeError ("Cannot read properties of undefined (reading '" +:+ what +:+ "')"))
  end.

(** ** Responses *)

Inductive ErrorField : Type :=
| Message (s : string)
| InheritedMember (name : string).

Record Pagination : Type := {
  currentPage : JsNum.t;
  limit : JsNum.t;
  totalRows : JsNum.t;
  totalPages : JsNum.t
}.

Record TableLocals : Type := {
  v_tableName : string;
  v_data : option (list Row);
  v_columns : list string;
  v_columnInfo : option (list Row);
  v_primaryKeys : list Value;
  v_error : option string;
  v_tableStats : Row
}.

Inductive Body : Type :=
| ErrorBody (error : string)
| DbErrorBody (error : ErrorField) (details : option string) (code : option string)
| TextBody (text : string)
| SchemaBody (tableName : string) (columns : option (list Row)) (primaryKeys : list Value)
| ListBody (tableName : string) (data : option (list Row)) (pagination : Pagination)
| RecordBody (message : string) (data : option Row)
| CsvBody (csv : string)
| ExportBody (tableName : string) (data : option (list Row)) (count : RowCount)
| QueryOkBody (message : string) (count : RowCount) (data : list Row)
    (cmd : option string) (executionTime : Z) (warnings : list string)
| QueryFailedBody (error : string) (details : string) (code : option string)
    (executionTime : Z) (warnings : list string)
| RenderBody (view : string) (locals : TableLocals).

Record Response : Type := {
  status : nat;
  headers : list (string * string);
  body : Body
}.

Definition respond (st : nat) (b : Body) : Response :=
  {| status := st; headers := []; body := b |}.

(** [try { body } catch (err) { handler err } finally { await client.end() }] *)
Definition tryCatchFinally (body : Try Response) (handler : JsError -> Response)
    : Prog Response :=
  bind body (fun r =>
    Do End_ (fun _ =>
      Ret (match r with inl e => handler e | inr resp => resp end))).

(** ** [handleDatabaseError] *)

Definition errorMessages : list (string * string) :=
  [ ("42P01", "Table not found");
    ("42703", "Column not found");
    ("23505", "Duplicate key violation");
    ("23502", "Not null violation");
    ("23503", "Foreign key violation");
    ("42601", "Syntax error in SQL");
    ("42P07", "Table already exists");
    ("ECONNREFUSED", "Database connection refused");
    ("ENOTFOUND", "Database host not found");
    ("28P01", "Authentication failed") ].

(** Property names every object literal inherits from [Object.prototype]. *)
Definition objectPrototypeKeys : list string :=
  [ "constructor"; "__defineGetter__"; "__defineSetter__"; "hasOwnProperty";
    "__lookupGetter__"; "__lookupSetter__"; "isPrototypeOf";
    "propertyIsEnumerable"; "toString"; "valueOf"; "__proto__"; "toLocaleString" ].

Fixpoint assoc (key : string) (l : list (string * string)) : option string :=
  match l with
  | [] => None
  | (k, v) :: rest => if String.eqb k key then Some v else assoc key rest
  end.

(** The property key [err.code] is converted to. *)
Definition propertyKey (code : option string) : string :=
  default "undefined" code.

(** [errorMessages[err.code] || 'Database operation failed'] *)
Definition userFriendlyMessage (code : option string) : ErrorField :=
  let key := propertyKey code in
  match assoc key errorMessages with
  | Some msg => if falsy_string msg then Message "Database operation failed" else Message msg
  | None =>
      if existsb (String.eqb key) objectPrototypeKeys
      then InheritedMember key
      else Message "Database operation failed"
  end.

(** The process environment, as far as the routes read it. *)
Record ProcessEnv : Type := {
  NODE_ENV : option string
}.

Definition isDevelopment (env : ProcessEnv) : bool :=
  match NODE_ENV env with
  | Some m => String.eqb m "development"
  | None => false
  end.

Definition handleDatabaseError (env : ProcessEnv) (err : JsError) : Response :=
  respond 500
    (DbErrorBody (userFriendlyMessage (err_code err))
                 (if isDevelopment env then Some (err_message err) else None)
                 (err_code err)).

End Driver.

Arguments Ret {_ A} a.
Arguments Do {_ A} op k.

(** ** [src/routes/database.js]: the routes

    The fixed catalogue queries are written on one line; the line breaks
    and indentation of their template literals are not reproduced. The
    statements built from request data keep their layout. *)

Section Routes.
Context `{JsRuntime}.

Definition dq : string := String JsString.dquote "".
Definition nl : string := String (ascii_of_nat 10) "".
Definition indent8 : string := "        ".
Definition indent12 : string := "            ".

(** A name between double quotes, as the templates interpolate it. *)
Definition quoted (s : string) : string := dq +:+ s +:+ dq.

(** The placeholder text for parameter number [n]. *)
Definition placeholder (n : nat) : string := "$" +:+ pretty n.

Definition truthy (x : option string) : bool :=
  match x with
  | Some s => negb (falsy_string s)
  | None => false
  end.

Definition invalidTableResponse : Response :=
  respond 400 (ErrorBody "Invalid table name provided").

Definition schemaColumnsSql : string :=
  "SELECT column_name, data_type, is_nullable, column_default, character_maximum_length, numeric_precision, numeric_scale, col_description(pgc.oid, cols.ordinal_position) as column_comment FROM information_schema.columns cols LEFT JOIN pg_class pgc ON pgc.relname = cols.table_name WHERE table_name = $1 AND table_schema = 'public' ORDER BY ordinal_position;".

Definition primaryKeysSql : string :=
  "SELECT a.attname as column_name FROM pg_index i JOIN pg_attribute a ON a.attrelid = i.indrelid AND a.attnum = ANY(i.indkey) WHERE i.indrelid = $1::regclass AND i.indisprimary;".

Definition primaryKeySql : string :=
  "SELECT a.attname as column_name FROM pg_index i JOIN pg_attribute a ON a.attrelid = i.indrelid AND a.attnum = ANY(i.indkey) WHERE i.indrelid = $1::regclass AND i.indisprimary LIMIT 1;".

Definition searchColumnsSql : string :=
  "SELECT column_name, data_type FROM information_schema.columns WHERE table_name = $1 AND table_schema = 'public'".

Definition columnInfoSql : string :=
  "SELECT column_name, data_type, is_nullable, column_default, character_maximum_length, numeric_precision, numeric_scale FROM information_schema.columns WHERE table_name = $1 AND table_schema = 'public' ORDER BY ordinal_position;".

(** *** GET /schema/:tableName *)

Definition schemaRoute (env : ProcessEnv) (tableName : string) : Prog Response :=
  if invalidTableName tableName then Ret invalidTableResponse
  else
    tryCatchFinally
      (tbind (await Connect) (fun _ =>
       tbind (await (Query schemaColumnsSql (Some [PStr tableName]))) (fun result =>
       tbind (await (Query primaryKeysSql (Some [PStr tableName]))) (fun pkResult =>
       tbind (defined "map" (rows pkResult)) (fun pkRows =>
       pure (respond 200
               (SchemaBody tableName (rows result)
                  (map (field "column_name") pkRows))))))))
      (handleDatabaseError env).

(** *** GET /data/:tableName *)

Record ListQuery : Type := {
  q_page : option string;
  q_limit : option string;
  q_search : option string;
  q_sortBy : option string;
  q_sortOrder : option string
}.

Definition isTextType (data_type : string) : bool :=
  existsb (fun ty => JsString.includes ty data_type) ["text"; "varchar"; "char"].

(** The [filter] and [map] over the column metadata; a [data_type] that
    is not a string has no [includes] to call. *)
Fixpoint textColumnsOf (cols : list Row) : JsError + list string :=
  match cols with
  | [] => inr []
  | col :: rest =>
      match field "data_type" col with
      | VStr data_type =>
          match textColumnsOf rest with
          | inl e => inl e
          | inr more =>
              if isTextType data_type
              then inr ((quoted (ToString (field "column_name" col)) +:+ "::text") :: more)
              else inr more
          end
      | _ => inl (typeError "col.data_type.includes is not a function")
      end
  end.

(** The [map] callback of the search condition, called [n] times; it
    reads [textColumns[paramCount]] and then increments [paramCount]. *)
Fixpoint searchTerms (textColumns : list string) (n paramCount : nat)
    : list string * nat :=
  match n with
  | O => ([], paramCount)
  | S n' =>
      let term := nth paramCount textColumns "undefined" +:+ " ILIKE "
                  +:+ placeholder (S paramCount) in
      let '(more, paramCount') := searchTerms textColumns n' (S paramCount) in
      (term :: more, paramCount')
  end.

(** [queryParams.slice(0, -2)] *)
Definition dropLast2 {A : Type} (l : list A) : list A :=
  firstn (length l - 2) l.

(** The state the handler builds its statements in. *)
Record Building : Type := {
  baseQuery : string;
  countQuery : string;
  queryParams : list Param;
  paramCount : nat
}.

Definition startBuilding (tableName : string) : Building :=
  {| baseQuery := "SELECT * FROM " +:+ quoted tableName;
     countQuery := "SELECT COUNT(*) FROM " +:+ quoted tableName;
     queryParams := [];
     paramCount := 0 |}.

Definition addSearch (search : string) (textColumns : list string) (b : Building)
    : Building :=
  match textColumns with
  | [] => b
  | _ =>
      let '(terms, paramCount') :=
        searchTerms textColumns (length textColumns) (paramCount b) in
      let searchCondition := JsString.join " OR " terms in
      {| baseQuery := baseQuery b +:+ " WHERE (" +:+ searchCondition +:+ ")";
         countQuery := countQuery b +:+ " WHERE (" +:+ searchCondition +:+ ")";
         queryParams := (queryParams b ++
                           map (fun _ => PStr ("%" +:+ search +:+ "%")) textColumns)%list;
         paramCount := paramCount' |}
  end.

Definition addSorting (sortBy sortOrder : option string) (b : Building) : Building :=
  match sortBy with
  | Some column =>
      if negb (falsy_string column) && Regex.test_anchored Regex.identifier_re column
      then
        let order := default "asc" sortOrder in
        let validOrder :=
          if existsb (String.eqb (JsString.toLowerCase order)) ["asc"; "desc"]
          then order else "asc" in
        {| baseQuery := baseQuery b +:+ " ORDER BY " +:+ quoted column +:+ " "
                        +:+ JsString.toUpperCase validOrder;
           countQuery := countQuery b;
           queryParams := queryParams b;
           paramCount := paramCount b |}
      else b
  | None => b
  end.

(** [(parseInt(page) - 1) * parseInt(limit)] *)
Definition offsetOf (page limit : option string) : JsNum.t :=
  JsNum.mul (JsNum.sub (JsNum.parseIntOr 1 page) (JsNum.Fin 1))
            (JsNum.parseIntOr 100 limit).

Definition addPagination (page limit : option string) (b : Building) : Building :=
  let offset := offsetOf page limit in
  {| baseQuery := baseQuery b +:+ " LIMIT " +:+ placeholder (S (paramCount b))
                  +:+ " OFFSET " +:+ placeholder (S (S (paramCount b)));
     countQuery := countQuery b;
     queryParams := (queryParams b ++ [PNum (JsNum.parseIntOr 100 limit); PNum offset])%list;
     paramCount := S (S (paramCount b)) |}.

(** The parameters of the two statements handed to [Promise.all]. *)
Definition dataParams (page limit : option string) (b : Building) : list Param :=
  (dropLast2 (queryParams b) ++
     [PNum (JsNum.parseIntOr 100 limit); PNum (offsetOf page limit)])%list.
Definition countParams (b : Building) : list Param := dropLast2 (queryParams b).

(** [parseInt(countResult.rows[0].count)] *)
Definition totalRowsOf (countResult : QueryResult) : Try JsNum.t :=
  tbind (defined "0" (rows countResult)) (fun rs =>
  tbind (defined "count" (head rs)) (fun row =>
  pure (JsNum.parseInt (ToString (field "count" row))))).

Definition paginationOf (page limit : option string) (total : JsNum.t) : Pagination :=
  {| currentPage := JsNum.parseIntOr 1 page;
     limit := JsNum.parseIntOr 100 limit;
     totalRows := total;
     totalPages := JsNum.ceil_div total (JsNum.parseIntOr 100 limit) |}.

Definition listRoute (env : ProcessEnv) (tableName : string) (q : ListQuery)
    : Prog Response :=
  if invalidTableName tableName then Ret invalidTableResponse
  else
    tryCatchFinally
      (tbind (await Connect) (fun _ =>
       tbind
         (if truthy (q_search q) then
            tbind (await (Query searchColumnsSql (Some [PStr tableName]))) (fun columnsResult =>
            tbind (defined "filter" (rows columnsResult)) (fun cols =>
            match textColumnsOf cols with
            | inl e => throw e
            | inr textColumns =>
                pure (addSearch (default "" (q_search q)) textColumns
                        (startBuilding tableName))
            end))
          else pure (startBuilding tableName)) (fun searched =>
       let built := addPagination (q_page q) (q_limit q)
                      (addSorting (q_sortBy q) (q_sortOrder q) searched) in
       Do (Query (baseQuery built) (Some (dataParams (q_page q) (q_limit q) built)))
          (fun dataAnswer =>
       Do (Query (countQuery built) (Some (countParams built)))
          (fun countAnswer =>
            match dataAnswer, countAnswer with
            | Rejected e, _ => throw e
            | _, Rejected e => throw e
            | Resolved dataResult, Resolved countResult =>
                tbind (totalRowsOf countResult) (fun total =>
                pure (respond 200
                        (ListBody tableName (rows dataResult)
                           (paginationOf (q_page q) (q_limit q) total))))
            end)))))
      (handleDatabaseError env).

(** *** GET /view/:tableName

    The [try] block assigns the locals of the template one by one; an
    error keeps what was assigned before it and sets [error]. *)

Definition startLocals (tableName : string) : TableLocals :=
  {| v_tableName := tableName; v_data := Some []; v_columns := [];
     v_columnInfo := Some []; v_primaryKeys := []; v_error := None;
     v_tableStats := [] |}.

Definition withError (e : JsError) (l : TableLocals) : TableLocals :=
  {| v_tableName := v_tableName l; v_data := v_data l; v_columns := v_columns l;
     v_columnInfo := v_columnInfo l; v_primaryKeys := v_primaryKeys l;
     v_error := Some (err_message e); v_tableStats := v_tableStats l |}.

Definition withData (result : QueryResult) (l : TableLocals) : TableLocals :=
  {| v_tableName := v_tableName l; v_data := rows result;
     v_columns := default [] (fields result);
     v_columnInfo := v_columnInfo l; v_primaryKeys := v_primaryKeys l;
     v_error := v_error l; v_tableStats := v_tableStats l |}.

Definition withColumnInfo (result : QueryResult) (l : TableLocals) : TableLocals :=
  {| v_tableName := v_tableName l; v_data := v_data l; v_columns := v_columns l;
     v_columnInfo := rows result; v_primaryKeys := v_primaryKeys l;
     v_error := v_error l; v_tableStats := v_tableStats l |}.

Definition withPrimaryKeys (pks : list Value) (l : TableLocals) : TableLocals :=
  {| v_tableName := v_tableName l; v_data := v_data l; v_columns := v_columns l;
     v_columnInfo := v_columnInfo l; v_primaryKeys := pks;
     v_error := v_error l; v_tableStats := v_tableStats l |}.

Definition withStats (stats : Row) (l : TableLocals) : TableLocals :=
  {| v_tableName := v_tableName l; v_data := v_data l; v_columns := v_columns l;
     v_columnInfo := v_columnInfo l; v_primaryKeys := v_primaryKeys l;
     v_error := v_error l; v_tableStats := stats |}.

Definition statsQuery (tableName : string) : string :=
  "SELECT (SELECT count(*) FROM " +:+ quoted tableName
  +:+ ") as total_rows, (SELECT pg_size_pretty(pg_total_relation_size('"
  +:+ quoted tableName
  +:+ "'))) as table_size, (SELECT count(*) FROM information_schema.columns WHERE table_name = $1 AND table_schema = 'public') as column_count;".

Definition renderTable (l : TableLocals) : Prog Response :=
  Do End_ (fun _ => Ret (respond 200 (RenderBody "db/table" l))).

Definition viewRoute (tableName : string) : Prog Response :=
  if invalidTableName tableName then Ret (respond 400 (TextBody "Invalid table name."))
  else
    let l0 := startLocals tableName in
    Do Connect (fun a0 =>
    match a0 with
    | Rejected e => renderTable (withError e l0)
    | Resolved _ =>
    Do (Query ("SELECT * FROM " +:+ quoted tableName +:+ " LIMIT 100;") None) (fun a1 =>
    match a1 with
    | Rejected e => renderTable (withError e l0)
    | Resolved result =>
    let l1 := withData result l0 in
    Do (Query columnInfoSql (Some [PStr tableName])) (fun a2 =>
    match a2 with
    | Rejected e => renderTable (withError e l1)
    | Resolved columnInfoResult =>
    let l2 := withColumnInfo columnInfoResult l1 in
    Do (Query primaryKeysSql (Some [PStr tableName])) (fun a3 =>
    match a3 with
    | Rejected e => renderTable (withError e l2)
    | Resolved pkResult =>
    match rows pkResult with
    | None =>
        renderTable
          (withError (typeError "Cannot read properties of undefined (reading 'map')") l2)
    | Some pkRows =>
    let l3 := withPrimaryKeys (map (field "column_name") pkRows) l2 in
    Do (Query (statsQuery tableName) (Some [PStr tableName])) (fun a4 =>
    match a4 with
    | Rejected e => renderTable (withError e l3)
    | Resolved statsResult =>
    match rows statsResult with
    | None =>
        renderTable
          (withError (typeError "Cannot read properties of undefined (reading 'length')") l3)
    | Some (stats :: _) => renderTable (withStats stats l3)
    | Some [] => renderTable l3
    end
    end)
    end
    end)
    end)
    end)
    end).

(** *** POST /data/:tableName *)

(** [values.map((_, index) => `$${index + 1}`)] *)
Definition placeholders {A : Type} (vals : list A) : list string :=
  imap (fun index _ => placeholder (index + 1)) vals.

Definition insertSql (tableName : string) (recordData : Row) : string :=
  nl +:+ indent12 +:+ "INSERT INTO " +:+ quoted tableName +:+ " ("
  +:+ JsString.join ", " (map quoted (keys recordData)) +:+ ")"
  +:+ nl +:+ indent12 +:+ "VALUES (" +:+ JsString.join ", " (placeholders (values recordData))
  +:+ ")"
  +:+ nl +:+ indent12 +:+ "RETURNING *;"
  +:+ nl +:+ indent8.

Definition insertRoute (env : ProcessEnv) (tableName : string) (recordData : Row)
    : Prog Response :=
  if invalidTableName tableName then Ret invalidTableResponse
  else
    tryCatchFinally
      (tbind (await Connect) (fun _ =>
       tbind (await (Query (insertSql tableName recordData)
                           (Some (map PVal (values recordData))))) (fun result =>
       tbind (defined "0" (rows result)) (fun rs =>
       pure (respond 200 (RecordBody "Record created successfully" (head rs)))))))
      (handleDatabaseError env).

(** *** PUT /data/:tableName/:id *)

Definition noPrimaryKeyResponse : Response :=
  respond 400 (ErrorBody "Table has no primary key defined").
Definition notFoundResponse : Response :=
  respond 404 (ErrorBody "Record not found").

(** [pkResult.rows[0].column_name], interpolated into the statement. *)
Definition pkColumnOf (pkRows : list Row) : string :=
  ToString (field "column_name" (default [] (head pkRows))).

Definition setClause (recordData : Row) : string :=
  JsString.join ", "
    (imap (fun index col => quoted col +:+ " = " +:+ placeholder (index + 1))
          (keys recordData)).

Definition updateSql (tableName pkColumn : string) (recordData : Row) : string :=
  nl +:+ indent12 +:+ "UPDATE " +:+ quoted tableName
  +:+ nl +:+ indent12 +:+ "SET " +:+ setClause recordData
  +:+ nl +:+ indent12 +:+ "WHERE " +:+ quoted pkColumn +:+ " = "
  +:+ placeholder (length (values recordData) + 1)
  +:+ nl +:+ indent12 +:+ "RETURNING *;"
  +:+ nl +:+ indent8.

Definition updateRoute (env : ProcessEnv) (tableName id : string) (recordData : Row)
    : Prog Response :=
  if invalidTableName tableName then Ret invalidTableResponse
  else
    tryCatchFinally
      (tbind (await Connect) (fun _ =>
       tbind (await (Query primaryKeySql (Some [PStr tableName]))) (fun pkResult =>
       tbind (defined "length" (rows pkResult)) (fun pkRows =>
       if (length pkRows =? 0)%nat then pure noPrimaryKeyResponse
       else
         tbind (await (Query (updateSql tableName (pkColumnOf pkRows) recordData)
                             (Some (map PVal (values recordData) ++ [PStr id])%list)))
               (fun result =>
         tbind (defined "length" (rows result)) (fun rs =>
         if (length rs =? 0)%nat then pure notFoundResponse
         else pure (respond 200 (RecordBody "Record updated successfully" (head rs)))))))))
      (handleDatabaseError env).

(** *** DELETE /data/:tableName/:id *)

Definition deleteSql (tableName pkColumn : string) : string :=
  nl +:+ indent12 +:+ "DELETE FROM " +:+ quoted tableName
  +:+ nl +:+ indent12 +:+ "WHERE " +:+ quoted pkColumn +:+ " = $1"
  +:+ nl +:+ indent12 +:+ "RETURNING *;"
  +:+ nl +:+ indent8.

Definition deleteRoute (env : ProcessEnv) (tableName id : string) : Prog Response :=
  if invalidTableName tableName then Ret invalidTableResponse
  else
    tryCatchFinally
      (tbind (await Connect) (fun _ =>
       tbind (await (Query primaryKeySql (Some [PStr tableName]))) (fun pkResult =>
       tbind (defined "length" (rows pkResult)) (fun pkRows =>
       if (length pkRows =? 0)%nat then pure noPrimaryKeyResponse
       else
         tbind (await (Query (deleteSql tableName (pkColumnOf pkRows)) (Some [PStr id])))
               (fun result =>
         tbind (defined "length" (rows result)) (fun rs =>
         if (length rs =? 0)%nat then pure notFoundResponse
         else pure (respond 200 (RecordBody "Record deleted successfully" (head rs)))))))))
      (handleDatabaseError env).

(** *** GET /export/:tableName *)

(** The text a value is exported as, before quoting. *)
Definition stringValue (value : Value) : string :=
  match value with
  | VObj o => JSON_stringify o
  | _ => ToString value
  end.

(** The callback of [Object.values(row).map]. *)
Definition csvField (value : Value) : string :=
  match value with
  | VNull | VUndefined => ""
  | _ => dq +:+ JsString.doubleQuotes (stringValue value) +:+ dq
  end.

Definition csvHeader (row : Row) : string :=
  JsString.join "," (keys row) +:+ nl.

Definition csvLine (row : Row) : string :=
  JsString.join "," (map csvField (values row)) +:+ nl.

(** [csv], after the [forEach] has appended one line per row. *)
Definition csvOf (rs : list Row) : string :=
  match rs with
  | [] => ""
  | first :: _ => fold_left (fun csv row => csv +:+ csvLine row) rs (csvHeader first)
  end.

Definition exportSql (tableName : string) : string :=
  "SELECT * FROM " +:+ quoted tableName +:+ ";".

Definition csvHeaders (tableName : string) : list (string * string) :=
  [ ("Content-Type", "text/csv");
    ("Content-Disposition", "attachment; filename=" +:+ quoted (tableName +:+ ".csv")) ].

Definition exportRoute (env : ProcessEnv) (tableName : string) (format : option string)
    : Prog Response :=
  if invalidTableName tableName then Ret invalidTableResponse
  else
    tryCatchFinally
      (tbind (await Connect) (fun _ =>
       tbind (await (Query (exportSql tableName) None)) (fun result =>
       if String.eqb (default "csv" format) "csv" then
         tbind (defined "length" (rows result)) (fun rs =>
         pure {| status := 200; headers := csvHeaders tableName;
                 body := CsvBody (csvOf rs) |})
       else
         pure (respond 200 (ExportBody tableName (rows result) (rowCount result))))))
      (handleDatabaseError env).

(** *** POST /run-query *)

Definition destructiveWarning : string :=
  "⚠️ Destructive operation detected - proceed with caution".
Definition deleteWarning : string :=
  "⚠️ DELETE without WHERE clause - this will delete all rows".
Definition updateWarning : string :=
  "⚠️ UPDATE without WHERE clause - this will update all rows".

(** The pre-scan: the three tests, each pushing its warning. *)
Definition scanWarnings (query : string) : list string :=
  let trimmedQuery := JsString.toLowerCase (JsString.trim query) in
  ((if JsString.includes "drop table" trimmedQuery
       || JsString.includes "drop database" trimmedQuery
    then [destructiveWarning] else []) ++
   (if JsString.includes "delete from" trimmedQuery
       && negb (JsString.includes "where" trimmedQuery)
    then [deleteWarning] else []) ++
   (if JsString.includes "update" trimmedQuery
       && negb (JsString.includes "where" trimmedQuery)
    then [updateWarning] else []))%list.

(** [resultData] after the handler has copied the result into it. *)
Definition resultDataOf (result : QueryResult) : RowCount * list Row :=
  let '(count1, rows1) :=
    match rows result with
    | Some rs => (rowCount result, rs)
    | None => (RcNum 0, [])
    end in
  let count2 :=
    match rowCount result, count1 with
    | RcUndefined, _ => count1
    | _, RcNum 0 => rowCount result
    | _, _ => count1
    end in
  (count2, rows1).

(** [startTime] and [endTime] are the two clock readings around the call. *)
Definition runQueryRoute (startTime endTime : Z) (query : option string)
    : Prog Response :=
  if negb (truthy query) then
    Ret (respond 400 (ErrorBody "Missing SQL query in request body"))
  else
    let text := default "" query in
    let warnings := scanWarnings text in
    tryCatchFinally
      (tbind (await Connect) (fun _ =>
       tbind (await (Query text None)) (fun result =>
       let '(count, data) := resultDataOf result in
       pure (respond 200
               (QueryOkBody "Query executed successfully" count data (command result)
                  (endTime - startTime) warnings)))))
      (fun err =>
         respond 500
           (QueryFailedBody "Query execution failed" (err_message err) (err_code err)
              (endTime - startTime) warnings)).

End Routes.

(** ** The routes that take a table name *)

Section Dispatch.
Context `{JsRuntime}.

Inductive TableRequest : Type :=
| GetSchema
| GetData (q : ListQuery)
| GetView
| PostData (recordData : Row)
| PutData (id : string) (recordData : Row)
| DeleteData (id : string)
| GetExport (format : option string).

Definition handle (env : ProcessEnv) (tableName : string) (r : TableRequest)
    : Prog Response :=
  match r with
  | GetSchema => schemaRoute env tableName
  | GetData q => listRoute env tableName q
  | GetView => viewRoute tableName
  | PostData recordData => insertRoute env tableName recordData
  | PutData id recordData => updateRoute env tableName id recordData
  | DeleteData id => deleteRoute env tableName id
  | GetExport format => exportRoute env tableName format
  end.

End Dispatch.

(** ** A concrete runtime and concrete servers, for running the model *)

Module Sample.

(** Numbers are integers and objects are arrays of integers; the three
    conversions are the runtime's on such values. *)
Definition runtime : JsRuntime := {|
  JsNumber := Z;
  JsObject := list Z;
  Number_toString := fun z => pretty z;
  Object_toString := fun l => JsString.join "," (map (fun z => pretty z) l);
  JSON_stringify := fun l => "[" +:+ JsString.join "," (map (fun z => pretty z) l) +:+ "]"
|}.

Definition production : ProcessEnv := {| NODE_ENV := Some "production" |}.
Definition development : ProcessEnv := {| NODE_ENV := Some "development" |}.

Definition emptyResult : QueryResult (H := runtime) :=
  {| rows := Some []; rowCount := RcNum 0; command := Some "SELECT"; fields := Some [] |}.

Definition resultOf (rs : list (Row (H := runtime))) : QueryResult (H := runtime) :=
  {| rows := Some rs; rowCount := RcNum (length rs); command := Some "SELECT";
     fields := Some (match rs with r :: _ => keys r | [] => [] end) |}.

(** A server on which every statement succeeds with no rows. *)
Definition emptyDb : Oracle (H := runtime) := fun _ _ => Resolved emptyResult.

(** A server that refuses every call with the given error. *)
Definition failingDb (e : JsError) : Oracle (H := runtime) := fun _ _ => Rejected e.

(** A server whose table has the primary key [id] and no row matching
    any key: the catalogue lookup answers one row, every other statement
    answers none. *)
Definition keyedEmptyDb : Oracle (H := runtime) := fun _ op =>
  match op with
  | Query text _ =>
      if String.eqb text primaryKeySql
      then Resolved (resultOf [[("column_name", VStr "id")]])
      else Resolved emptyResult
  | _ => Resolved emptyResult
  end.

(** A server whose table holds 25 rows: the count statement answers
    25, every other statement answers no row. *)
Definition countingDb : Oracle (H := runtime) := fun _ op =>
  match op with
  | Query text _ =>
      if JsString.startsWith "SELECT COUNT(*)" text
      then Resolved (resultOf [[("count", VStr "25")]])
      else Resolved emptyResult
  | _ => Resolved emptyResult
  end.

Definition page3of10 : ListQuery :=
  {| q_page := Some "3"; q_limit := Some "10"; q_search := None;
     q_sortBy := None; q_sortOrder := None |}.

(** One session, created and last used at time 0. *)
Definition session0 : Auth.Session :=
  {| Auth.id := "tok"; Auth.userId := "admin"; Auth.createdAt := 0;
     Auth.lastActivity := 0; Auth.isValid := true |}.

Definition registry0 : gmap string Auth.Session := {["tok" := session0]}.

(** Login attempts of one client, one minute apart, the first five with
    a wrong password and the sixth with the right one. *)
Definition attemptAt (minute : Z) (pass : string)
    : Auth.LoginEnv * Auth.LoginRequest :=
  ({| Auth.now := minute * 60000; Auth.freshSessionId := "tok";
      Auth.tCreated := minute * 60000; Auth.tActivity := minute * 60000;
      Auth.tSweep := minute * 60000 |},
   {| Auth.body_username := Some "admin"; Auth.body_password := Some pass;
      Auth.body_redirect := None; Auth.clientIP := "10.0.0.7" |}).

Definition fiveWrong : list (Auth.LoginEnv * Auth.LoginRequest) :=
  [attemptAt 1 "a"; attemptAt 2 "b"; attemptAt 3 "c"; attemptAt 4 "d"; attemptAt 5 "e"].

Definition sixthRight : Auth.LoginEnv * Auth.LoginRequest :=
  attemptAt 6 "your_secure_password_here".

Definition freshState : Auth.AuthState :=
  {| Auth.sessions := ∅; Auth.loginAttempts := ∅ |}.

(** The row of the specification's export example. *)
Definition obrien : Row (H := runtime) :=
  [("id", VNum (H := runtime) 1%Z); ("name", VStr "O'Brien, A")].

End Sample.

(** ** Notions used to state the properties *)

(** [hay] has [needle] as a contiguous part. *)
Definition Contains (needle hay : string) : Prop :=
  exists before after, hay = before +:+ needle +:+ after.


Section Mutations.
Context `{JsRuntime}.

(** The catalogue lookup both mutating routes start with. *)
Definition pkLookup (tableName : string) : DbOp :=
  Query primaryKeySql (Some [PStr tableName]).

(** The statement that modifies rows, for the two routes that have one. *)
Definition mutationStatement (tableName : string) (pkRows : list Row)
    (r : TableRequest) : option DbOp :=
  match r with
  | PutData id recordData =>
      Some (Query (updateSql tableName (pkColumnOf pkRows) recordData)
                  (Some (map PVal (values recordData) ++ [PStr id])%list))
  | DeleteData id =>
      Some (Query (deleteSql tableName (pkColumnOf pkRows)) (Some [PStr id]))
  | _ => None
  end.

(** The [warnings] property of a payload that has one. *)
Definition warningsOf (b : Body) : option (list string) :=
  match b with
  | QueryOkBody _ _ _ _ _ w => Some w
  | QueryFailedBody _ _ _ _ w => Some w
  | _ => None
  end.

End Mutations.

Section CsvNotions.
Context `{JsRuntime}.

(** The data lines of an export, one per row, in order. *)
Fixpoint linesOf (rs : list Row) : string :=
  match rs with
  | [] => ""
  | row :: rest => csvLine row +:+ linesOf rest
  end.

End CsvNotions.

(** Outcomes of a login, and the pacing of a run of attempts. *)
Definition isTooMany (r : Auth.LoginResponse) : bool :=
  match r with
  | Auth.RedirectToLogin error _ => String.eqb error Auth.tooManyMessage
  | Auth.RedirectWithCookie _ _ _ => false
  end.

Definition isFailure (r : Auth.LoginResponse) : bool :=
  match r with
  | Auth.RedirectToLogin error _ => String.eqb error Auth.invalidMessage
  | Auth.RedirectWithCookie _ _ _ => false
  end.

Definition isSuccess (r : Auth.LoginResponse) : bool :=
  match r with
  | Auth.RedirectToLogin _ _ => false
  | Auth.RedirectWithCookie _ _ _ => true
  end.

(** Each clock reading is at most one window after the one before it. *)
Fixpoint pacedFrom (prev : Z) (ts : list Z) : Prop :=
  match ts with
  | [] => True
  | t :: rest => (t - prev <= Auth.window)%Z /\ pacedFrom t rest
  end.

Definition paced (ts : list Z) : Prop :=
  match ts with
  | [] => True
  | t :: rest => pacedFrom t rest
  end.

Definition clockOf (er : Auth.LoginEnv * Auth.LoginRequest) : Z := Auth.now (fst er).
Definition clientOf (er : Auth.LoginEnv * Auth.LoginRequest) : string :=
  Auth.clientIP (snd er).

(** ** The throttle as the specification words it

    An entry holds the number of failures and the start of the window.
    [recordFailure] increments the count or, when the window has
    expired, sets the count to 1 and restarts the window; the first
    failure of a client creates its entry. [isBlocked] holds when the
    count has reached the maximum and the window has not expired.
    [clear] removes the entry. *)

Module ThrottleSpec.

Record ThrottleEntry : Type := {
  failCount : nat;
  windowStart : Z
}.

Definition expired (now : Z) (e : ThrottleEntry) : bool :=
  (now - windowStart e >? Auth.window)%Z.

Definition recordFailure (now : Z) (clientKey : string)
    (entries : gmap string ThrottleEntry) : gmap string ThrottleEntry :=
  match entries !! clientKey with
  | Some e =>
      if expired now e
      then <[clientKey := {| failCount := 1; windowStart := now |}]> entries
      else <[clientKey := {| failCount := S (failCount e);
                             windowStart := windowStart e |}]> entries
  | None => <[clientKey := {| failCount := 1; windowStart := now |}]> entries
  end.

Definition isBlocked (now : Z) (clientKey : string)
    (entries : gmap string ThrottleEntry) : bool :=
  match entries !! clientKey with
  | Some e => (Auth.maxAttempts <=? failCount e)%nat && negb (expired now e)
  | None => false
  end.

Definition clear (clientKey : string) (entries : gmap string ThrottleEntry)
    : gmap string ThrottleEntry :=
  delete clientKey entries.

Inductive Outcome : Type :=
| Blocked
| Accepted
| Refused.

(** One login attempt at [now], with the right credentials or not. *)
Definition attempt (now : Z) (clientKey : string) (correct : bool)
    (entries : gmap string ThrottleEntry) : Outcome * gmap string ThrottleEntry :=
  if isBlocked now clientKey entries then (Blocked, entries)
  else if correct then (Accepted, clear clientKey entries)
  else (Refused, recordFailure now clientKey entries).

(** Attempts with wrong credentials at the given times, in order. *)
Fixpoint wrongAttempts (times : list Z) (clientKey : string)
    (entries : gmap string ThrottleEntry) : gmap string ThrottleEntry :=
  match times with
  | [] => entries
  | now :: rest => wrongAttempts rest clientKey (snd (attempt now clientKey false entries))
  end.

End ThrottleSpec.

(** ** [src/middleware/auth.js]: identifiers, digests and the gate *)

Module Gate.

(** One hexadecimal digit, lower case, as [Buffer.toString('hex')] writes it. *)
Definition hexdigit (n : nat) : ascii :=
  if (n <? 10)%nat then ascii_of_nat (48 + n) else ascii_of_nat (87 + n).

(** [buffer.toString('hex')]: two digits per byte, high half first. *)
Fixpoint bufferToHex (b : string) : string :=
  match b with
  | EmptyString => EmptyString
  | String c t =>
      String (hexdigit (nat_of_ascii c / 16))
        (String (hexdigit (nat_of_ascii c mod 16)) (bufferToHex t))
  end.

(** [generateSessionId]; [randomBytes] is what [crypto.randomBytes(32)] drew. *)
Definition generateSessionId (randomBytes : string) : string :=
  bufferToHex randomBytes.

(** [hashPassword]; [pbkdf2Sync] is the key derivation with the fixed
    arguments [10000, 64, 'sha512'] applied. *)
Definition hashPassword (pbkdf2Sync : string -> string -> string)
    (pass salt : string) : string :=
  bufferToHex (pbkdf2Sync pass salt).

(** What the gate reads from a request: [req.cookies?.db_session],
    [req.path], [req.headers.accept] and [req.originalUrl]. *)
Record Request : Type := {
  db_session : option string;
  path : string;
  accept : option string;
  originalUrl : string
}.

(** The two answers of [redirectToLogin]: the 401 payload, or a redirect
    to the login page carrying the original URL ([encodeURIComponent] is
    applied to it when the location is written). *)
Inductive Denial : Type :=
| Unauthorized401 (error message : string)
| RedirectLogin (redirect : string).

(** [req.headers.accept?.includes('application/json')] *)
Definition acceptsJson (req : Request) : bool :=
  match accept req with
  | Some a => JsString.includes "application/json" a
  | None => false
  end.

Definition redirectToLogin (req : Request) : Denial :=
  if JsString.startsWith "/api/" (path req) || acceptsJson req
  then Unauthorized401 "Authentication required" "Please log in to access this resource"
  else RedirectLogin (originalUrl req).

(** How [requireAuth] ends: it answers itself, having cleared the cookie
    or not, or it sets [req.user] and calls [next]. *)
Inductive Outcome : Type :=
| Denied (answer : Denial) (cookieCleared : bool)
| Next (userId sessionId : string).

Definition requireAuth (cfg : Auth.AuthConfig) (tCheck tTouch : Z) (req : Request)
    (sessions : gmap string Auth.Session) : Outcome * gmap string Auth.Session :=
  match db_session req with
  | None => (Denied (redirectToLogin req) false, sessions)
  | Some sessionId =>
      if falsy_string sessionId then (Denied (redirectToLogin req) false, sessions)
      else
        match Auth.validateSession cfg tCheck tTouch sessionId sessions with
        | (None, sessions') => (Denied (redirectToLogin req) true, sessions')
        | (Some session, sessions') => (Next (Auth.userId session) sessionId, sessions')
        end
  end.

(** POST /logout, behind [requireAuth]. *)
Inductive LogoutReply : Type :=
| LogoutDenied (answer : Denial) (cookieCleared : bool)
| LoggedOutJson (message : string)
| LoggedOutRedirect (target : string).

Definition logoutRoute (cfg : Auth.AuthConfig) (tCheck tTouch : Z) (req : Request)
    (sessions : gmap string Auth.Session) : LogoutReply * gmap string Auth.Session :=
  match requireAuth cfg tCheck tTouch req sessions with
  | (Denied answer cleared, sessions') => (LogoutDenied answer cleared, sessions')
  | (Next _ sessionId, sessions') =>
      (if acceptsJson req then LoggedOutJson "Logged out successfully"
       else LoggedOutRedirect "/api/db/login",
       Auth.destroySession sessionId sessions')
  end.

(** GET /session-status, behind [requireAuth]. The three instants are
    kept as clock readings; their rendering by [toISOString] is left out.
    [StatusFailed] stands for the TypeError of reading a property of a
    session that [sessions.get] did not find. *)
Inductive StatusReply : Type :=
| StatusDenied (answer : Denial) (cookieCleared : bool)
| StatusJson (user : string) (sessionCreated lastActivity expiresAt : Z)
| StatusFailed.

Definition sessionStatusRoute (cfg : Auth.AuthConfig) (tCheck tTouch : Z) (req : Request)
    (sessions : gmap string Auth.Session) : StatusReply * gmap string Auth.Session :=
  match requireAuth cfg tCheck tTouch req sessions with
  | (Denied answer cleared, sessions') => (StatusDenied answer cleared, sessions')
  | (Next user sessionId, sessions') =>
      (match sessions' !! sessionId with
       | Some session =>
           StatusJson user (Auth.createdAt session) (Auth.lastActivity session)
             (Auth.lastActivity session + Auth.sessionTimeout cfg)
       | None => StatusFailed
       end, sessions')
  end.

(** [escapeHtml]: the callback [m => map[m]], applied to each ampersand,
    angle bracket, double quote and apostrophe. *)
Definition escapeChar (c : ascii) : string :=
  if Ascii.eqb c "&" then "&amp;"
  else if Ascii.eqb c "<" then "&lt;"
  else if Ascii.eqb c ">" then "&gt;"
  else if Ascii.eqb c JsString.dquote then "&quot;"
  else if Ascii.eqb c "'" then "&#039;"
  else String c EmptyString.

Fixpoint escapeHtml (text : string) : string :=
  match text with
  | EmptyString => EmptyString
  | String c t => escapeChar c +:+ escapeHtml t
  end.

(** The characters that open or close markup or an attribute value. *)
Definition isMarkupChar (c : ascii) : bool :=
  Ascii.eqb c "<" || Ascii.eqb c ">" || Ascii.eqb c JsString.dquote || Ascii.eqb c "'".

(** The login page, as the two values its template interpolates: the
    error banner (present when [req.query.error] is truthy) and the value
    of the hidden redirect field ([req.query.redirect || '/api/db']). *)
Record LoginPage : Type := {
  errorBanner : option string;
  redirectValue : string
}.

Definition loginPage (queryRedirect queryError : option string) : LoginPage :=
  {| errorBanner :=
       match queryError with
       | Some e => if falsy_string e then None else Some (escapeHtml e)
       | None => None
       end;
     redirectValue :=
       escapeHtml (match queryRedirect with
                   | Some r => if falsy_string r then "/api/db" else r
                   | None => "/api/db"
                   end) |}.

End Gate.

(** ** Invariants of the two registries *)

(** Every stored session is filed under its own id and is marked valid. *)
Definition wellFormed (sessions : gmap string Auth.Session) : Prop :=
  forall k s, sessions !! k = Some s -> Auth.id s = k /\ Auth.isValid s = true.

(** Every stored throttle entry counts between one and five failures. *)
Definition boundedAttempts (la : gmap string Auth.Attempts) : Prop :=
  forall ip a, la !! ip = Some a -> 1 <= Auth.count a <= 5.

(** ** [src/routes/database.js]: the routes without a table name *)

Section InfoRoutes.
Context `{JsRuntime}.

(** [try { body } catch (err) { handler err } finally { await client.end() }],
    for a handler answering with any type of reply. *)
Definition tryCatchFinallyAs {A : Type} (body : Try A) (handler : JsError -> A) : Prog A :=
  bind body (fun r =>
    Do End_ (fun _ =>
      Ret (match r with inl e => handler e | inr a => a end))).

Definition dashboardTablesSql : string :=
  "SELECT tablename, schemaname FROM pg_tables WHERE schemaname = 'public' ORDER BY tablename;".

Definition dashboardStatsSql : string :=
  "SELECT (SELECT count(*) FROM information_schema.tables WHERE table_schema = 'public') as table_count, (SELECT count(*) FROM information_schema.columns WHERE table_schema = 'public') as column_count, (SELECT pg_size_pretty(pg_database_size(current_database()))) as db_size, (SELECT version()) as pg_version;".

Definition tablesSql : string :=
  "SELECT t.tablename, t.schemaname, obj_description(c.oid) as table_comment, (SELECT count(*) FROM information_schema.columns WHERE table_name = t.tablename AND table_schema = t.schemaname) as column_count FROM pg_tables t LEFT JOIN pg_class c ON c.relname = t.tablename WHERE t.schemaname = 'public' ORDER BY t.tablename;".

Definition infoQuery : string :=
  "SELECT current_database() as database_name, current_user as current_user, version() as postgresql_version, pg_size_pretty(pg_database_size(current_database())) as database_size, (SELECT count(*) FROM information_schema.tables WHERE table_schema = 'public') as table_count, (SELECT count(*) FROM information_schema.columns WHERE table_schema = 'public') as total_columns, now() as server_time;".

(** The locals of the dashboard template that depend on the request;
    [queryResult] and [queryError] are always null. *)
Record DashboardLocals : Type := {
  d_tables : list Value;
  d_error : option string;
  d_dbStats : Row
}.

(** An element of the [/tables] payload. *)
Record TableMeta : Type := {
  m_name : Value;
  m_schema : Value;
  m_comment : Value;
  m_columnCount : JsNum.t
}.

Inductive InfoBody : Type :=
| DashboardView (view : string) (locals : DashboardLocals)
| TablesBody (tables : list TableMeta)
| RowBody (row : option Row)
| HealthBody (state : string) (timestamp : string) (database : string)
    (error : option string).

(** A reply of these routes: their own payload with its status, or the
    response of [handleDatabaseError]. *)
Inductive Reply : Type :=
| Info (status : nat) (payload : InfoBody)
| Failed (response : Response).

(** *** GET / *)

Definition dashboardError : string := "Failed to fetch database information.".

Definition renderDashboard (tables : list Value) (failed : bool) (dbStats : Row)
    : Prog Reply :=
  Do End_ (fun _ =>
    Ret (Info 200
           (DashboardView "db/index"
              {| d_tables := tables;
                 d_error := if failed then Some dashboardError else None;
                 d_dbStats := dbStats |}))).

Definition dashboardRoute : Prog Reply :=
  Do Connect (fun a0 =>
  match a0 with
  | Rejected _ => renderDashboard [] true []
  | Resolved _ =>
  Do (Query dashboardTablesSql None) (fun a1 =>
  match a1 with
  | Rejected _ => renderDashboard [] true []
  | Resolved tablesResult =>
  match rows tablesResult with
  | None => renderDashboard [] true []
  | Some tableRows =>
  let tables := map (field "tablename") tableRows in
  Do (Query dashboardStatsSql None) (fun a2 =>
  match a2 with
  | Rejected _ => renderDashboard tables true []
  | Resolved statsResult =>
  match rows statsResult with
  | None => renderDashboard tables true []
  | Some (stats :: _) => renderDashboard tables false stats
  | Some [] => renderDashboard tables false []
  end
  end)
  end
  end)
  end).

(** *** GET /tables *)

Definition tableMetaOf (row : Row) : TableMeta :=
  {| m_name := field "tablename" row;
     m_schema := field "schemaname" row;
     m_comment := field "table_comment" row;
     m_columnCount := JsNum.parseInt (ToString (field "column_count" row)) |}.

Definition tablesRoute (env : ProcessEnv) : Prog Reply :=
  tryCatchFinallyAs
    (tbind (await Connect) (fun _ =>
     tbind (await (Query tablesSql None)) (fun result =>
     tbind (defined "map" (rows result)) (fun rs =>
     pure (Info 200 (TablesBody (map tableMetaOf rs)))))))
    (fun err => Failed (handleDatabaseError env err)).

(** *** GET /database-info *)

Definition databaseInfoRoute (env : ProcessEnv) : Prog Reply :=
  tryCatchFinallyAs
    (tbind (await Connect) (fun _ =>
     tbind (await (Query infoQuery None)) (fun result =>
     tbind (defined "0" (rows result)) (fun rs =>
     pure (Info 200 (RowBody (head rs)))))))
    (fun err => Failed (handleDatabaseError env err)).

(** *** GET /health; [timestamp] is [new Date().toISOString()] at the
    moment the reply is written. *)

Definition healthRoute (timestamp : string) : Prog Reply :=
  tryCatchFinallyAs
    (tbind (await Connect) (fun _ =>
     tbind (await (Query "SELECT 1" None)) (fun _ =>
     pure (Info 200 (HealthBody "healthy" timestamp "connected" None)))))
    (fun err =>
       Info 500 (HealthBody "unhealthy" timestamp "disconnected" (Some (err_message err)))).

(** ** How a run uses the client *)

Definition isQuery (op : DbOp) : bool :=
  match op with
  | Query _ _ => true
  | _ => false
  end.

(** Either the client is never touched, or it is connected first, then
    only queried, and ended last. *)
Definition bracketed (trace : list DbOp) : Prop :=
  trace = [] \/
  exists queries, trace = (Connect :: queries ++ [End_])%list /\ forallb isQuery queries = true.

(** Programs that only query. *)
Inductive Asking {A : Type} : Prog A -> Prop :=
| Asking_ret (a : A) : Asking (Ret a)
| Asking_query (text : string) (params : option (list Param)) (k : Answer -> Prog A) :
    (forall ans, Asking (k ans)) -> Asking (Do (Query text params) k).

(** Programs that query, end the client once, and return. *)
Inductive Closing {A : Type} : Prog A -> Prop :=
| Closing_end (k : Answer -> Prog A) :
    (forall ans, exists a, k ans = Ret a) -> Closing (Do End_ k)
| Closing_query (text : string) (params : option (list Param)) (k : Answer -> Prog A) :
    (forall ans, Closing (k ans)) -> Closing (Do (Query text params) k).

(** Programs that return at once, or connect and then close. *)
Inductive Bracketed {A : Type} : Prog A -> Prop :=
| Bracketed_ret (a : A) : Bracketed (Ret a)
| Bracketed_connect (k : Answer -> Prog A) :
    (forall ans, Closing (k ans)) -> Bracketed (Do Connect k).

(** The error of the first call the server rejected, among the calls of
    a trace other than the ending of the client. *)
Fixpoint firstRejectionFrom (db : Oracle) (done rest : list DbOp) : option JsError :=
  match rest with
  | [] => None
  | op :: rest' =>
      match op, db done op with
      | End_, _ => firstRejectionFrom db (done ++ [op])%list rest'
      | _, Rejected e => Some e
      | _, Resolved _ => firstRejectionFrom db (done ++ [op])%list rest'
      end
  end.

Definition firstRejection (db : Oracle) (trace : list DbOp) : option JsError :=
  firstRejectionFrom db [] trace.

(** Bodies of a [try] block that throw [e] on every path. *)
Inductive Failing {A : Type} (e : JsError) : Try A -> Prop :=
| Failing_ret : Failing e (Ret (inl e))
| Failing_query (text : string) (params : option (list Param)) (k : Answer -> Try A) :
    (forall ans, Failing e (k ans)) -> Failing e (Do (Query text params) k).

(** Bodies of a [try] block in which a rejected call is thrown, whatever
    else happens before the block is left. *)
Inductive Catching {A : Type} : Try A -> Prop :=
| Catching_ret (r : JsError + A) : Catching (Ret r)
| Catching_do (op : DbOp) (k : Answer -> Try A) :
    op <> End_ ->
    (forall r, Catching (k (Resolved r))) ->
    (forall e, Failing e (k (Rejected e))) ->
    Catching (Do op k).

(** ** Reading an export back *)


End InfoRoutes.




(** A server for running a search: the column lookup finds one text
    column, the count is 25, every other call resolves with no rows. *)
Definition namesDb : Oracle (H := Sample.runtime) := fun _ op =>
  match op with
  | Query text _ =>
      if String.eqb text searchColumnsSql
      then Resolved (Sample.resultOf
                       [[("column_name", VStr "name"); ("data_type", VStr "text")]])
      else if JsString.startsWith "SELECT COUNT(*)" text
      then Resolved (Sample.resultOf [[("count", VStr "25")]])
      else Resolved Sample.emptyResult
  | _ => Resolved Sample.emptyResult
  end.

(** * Properties *)

(** ** Strings *)

#[local] Arguments String.append !s1 s2 : simpl nomatch.

Lemma append_nil_r (s : string) : s +:+ "" = s.
Proof. induction s as [|c s IH]; [reflexivity | cbn; f_equal; exact IH]. Qed.

Lemma append_assoc (a b c : string) : (a +:+ b) +:+ c = a +:+ (b +:+ c).
Proof. induction a as [|x a IH]; [reflexivity | cbn; f_equal; exact IH]. Qed.

Lemma append_eq_nil (a b : string) : a +:+ b = "" -> a = "" /\ b = "".
Proof. destruct a; simpl; [auto | discriminate]. Qed.

(** ** The matcher agrees with the meaning of patterns *)

Lemma nullable_Matches (r : Regex.re) :
  Regex.nullable r = true <-> Regex.Matches r "".
Proof.
  split.
  - induction r; simpl; intros Hn; try discriminate.
    + constructor.
    + apply andb_true_iff in Hn as [H1 H2].
      change "" with ("" +:+ ""). constructor; auto.
    + apply orb_true_iff in Hn as [H1 | H2].
      * apply Regex.MAltL; auto.
      * apply Regex.MAltR; auto.
    + constructor.
  - intros Hm. remember "" as w eqn:Hw.
    induction Hm; simpl; try reflexivity; try discriminate.
    + apply append_eq_nil in Hw as [-> ->].
      rewrite IHHm1, IHHm2; auto.
    + rewrite IHHm; auto.
    + rewrite IHHm; auto. apply orb_true_r.
Qed.

Lemma Matches_deriv (r : Regex.re) (c : ascii) (s : string) :
  Regex.Matches r (String c s) -> Regex.Matches (Regex.deriv c r) s.
Proof.
  intros Hm. remember (String c s) as w eqn:Hw.
  revert c s Hw.
  induction Hm; intros c0 s0 Hw; simpl; try discriminate.
  - injection Hw as -> <-. rewrite H. constructor.
  - destruct s1 as [|x s1'].
    + simpl in Hw. subst s2.
      apply nullable_Matches in Hm1. rewrite Hm1.
      apply Regex.MAltR. apply IHHm2. reflexivity.
    + simpl in Hw. injection Hw as -> <-.
      assert (Hc : Regex.Matches (Regex.Cat (Regex.deriv c0 r1) r2) (s1' +:+ s2)).
      { constructor; [apply IHHm1; reflexivity | assumption]. }
      destruct (Regex.nullable r1); [apply Regex.MAltL|]; exact Hc.
  - apply Regex.MAltL. apply IHHm. assumption.
  - apply Regex.MAltR. apply IHHm. assumption.
  - destruct s1 as [|x s1'].
    + simpl in Hw. apply (IHHm2 c0 s0 Hw).
    + simpl in Hw. injection Hw as -> <-.
      constructor; [apply IHHm1; reflexivity | assumption].
Qed.

Lemma deriv_Matches (r : Regex.re) (c : ascii) (s : string) :
  Regex.Matches (Regex.deriv c r) s -> Regex.Matches r (String c s).
Proof.
  revert s. induction r; intros s Hm; simpl in Hm.
  - inversion Hm.
  - inversion Hm.
  - destruct (Regex.in_class ranges c) eqn:Hc; inversion Hm; subst.
    constructor. assumption.
  - assert (Hcat : forall w, Regex.Matches (Regex.Cat (Regex.deriv c r1) r2) w ->
                             Regex.Matches (Regex.Cat r1 r2) (String c w)).
    { intros w Hw. inversion Hw; subst.
      change (String c (s1 +:+ s2)) with (String c s1 +:+ s2).
      constructor; auto. }
    destruct (Regex.nullable r1) eqn:Hn.
    + inversion Hm; subst.
      * apply Hcat. assumption.
      * change (String c s) with ("" +:+ String c s).
        constructor; [apply nullable_Matches; assumption | auto].
    + apply Hcat. assumption.
  - inversion Hm; subst.
    + apply Regex.MAltL. auto.
    + apply Regex.MAltR. auto.
  - inversion Hm; subst.
    change (String c (s1 +:+ s2)) with (String c s1 +:+ s2).
    constructor; auto.
Qed.

Lemma matchb_Matches (r : Regex.re) (s : string) :
  Regex.matchb r s = true <-> Regex.Matches r s.
Proof.
  revert r. induction s as [|c s IH]; intros r; simpl.
  - apply nullable_Matches.
  - rewrite IH. split; [apply deriv_Matches | apply Matches_deriv].
Qed.

(** ** The identifier pattern, character by character *)

Lemma Matches_Star_Class (ranges : list (ascii * ascii)) (s : string) :
  Regex.Matches (Regex.Star (Regex.Class ranges)) s <->
  Regex.all_chars (Regex.in_class ranges) s = true.
Proof.
  split.
  - intros Hm. remember (Regex.Star (Regex.Class ranges)) as r eqn:Hr.
    induction Hm; try discriminate; simpl.
    + reflexivity.
    + injection Hr as ->.
      inversion Hm1 as [|rg c Hc| | | | |]; subst. simpl.
      rewrite Hc. simpl. apply IHHm2. reflexivity.
  - induction s as [|c s IH]; simpl; intros Ha.
    + constructor.
    + apply andb_true_iff in Ha as [Hc Hs].
      change (String c s) with (String c "" +:+ s).
      constructor; [constructor; assumption | auto].
Qed.

Lemma Matches_Class_Star (first rest : list (ascii * ascii)) (s : string) :
  Regex.Matches (Regex.Cat (Regex.Class first) (Regex.Star (Regex.Class rest))) s <->
  match s with
  | EmptyString => False
  | String c t =>
      Regex.in_class first c = true /\ Regex.all_chars (Regex.in_class rest) t = true
  end.
Proof.
  split.
  - intros Hm. inversion Hm as [| |r1 r2 s1 s2 Hfirst Hrest| | | |]; subst.
    inversion Hfirst as [|rg c Hc| | | | |]; subst. simpl.
    split; [assumption | apply Matches_Star_Class; assumption].
  - destruct s as [|c t]; [tauto|]. intros [Hc Ht].
    change (String c t) with (String c "" +:+ t).
    constructor; [constructor; assumption | apply Matches_Star_Class; assumption].
Qed.

Lemma all_chars_ext (p q : ascii -> bool) (s : string) :
  (forall c, p c = q c) -> Regex.all_chars p s = Regex.all_chars q s.
Proof. intros E. induction s as [|c s IH]; simpl; [reflexivity | now rewrite E, IH]. Qed.

Lemma source_start_class (c : ascii) :
  Regex.in_class [("a", "z"); ("A", "Z"); ("_", "_")]%char c = Regex.ident_start c.
Proof. destruct c as [[] [] [] [] [] [] [] []]; reflexivity. Qed.

Lemma source_part_class (c : ascii) :
  Regex.in_class [("a", "z"); ("A", "Z"); ("0", "9"); ("_", "_")]%char c = Regex.ident_part c.
Proof. destruct c as [[] [] [] [] [] [] [] []]; reflexivity. Qed.

Lemma spec_start_class (c : ascii) :
  Regex.in_class [("A", "Z"); ("a", "z"); ("_", "_")]%char c = Regex.ident_start c.
Proof. destruct c as [[] [] [] [] [] [] [] []]; reflexivity. Qed.

Lemma spec_part_class (c : ascii) :
  Regex.in_class [("A", "Z"); ("a", "z"); ("0", "9"); ("_", "_")]%char c = Regex.ident_part c.
Proof. destruct c as [[] [] [] [] [] [] [] []]; reflexivity. Qed.

Lemma identifier_re_is_identifier (s : string) :
  Regex.Matches Regex.identifier_re s <-> Regex.is_identifier s = true.
Proof.
  unfold Regex.identifier_re. rewrite Matches_Class_Star.
  destruct s as [|c t]; [simpl; split; [tauto | discriminate]|].
  rewrite source_start_class, (all_chars_ext _ _ t source_part_class).
  cbn [Regex.is_identifier]. rewrite andb_true_iff. tauto.
Qed.

Lemma spec_identifier_re_is_identifier (s : string) :
  Regex.Matches Regex.spec_identifier_re s <-> Regex.is_identifier s = true.
Proof.
  unfold Regex.spec_identifier_re. rewrite Matches_Class_Star.
  destruct s as [|c t]; [simpl; split; [tauto | discriminate]|].
  rewrite spec_start_class, (all_chars_ext _ _ t spec_part_class).
  cbn [Regex.is_identifier]. rewrite andb_true_iff. tauto.
Qed.

Lemma invalidTableName_is_identifier (tableName : string) :
  invalidTableName tableName = negb (Regex.is_identifier tableName).
Proof.
  unfold invalidTableName, Regex.test_anchored.
  destruct (Regex.matchb Regex.identifier_re tableName) eqn:Hm.
  - apply matchb_Matches, identifier_re_is_identifier in Hm. rewrite Hm.
    destruct tableName; [discriminate Hm | reflexivity].
  - destruct (Regex.is_identifier tableName) eqn:Hi.
    + apply identifier_re_is_identifier, matchb_Matches in Hi. congruence.
    + apply orb_true_r.
Qed.

(** ** Running handlers *)

Section RunFacts.
Context `{JsRuntime}.

Lemma run_from_extends {A : Type} (db : Oracle) (p : Prog A) (done : list DbOp) :
  exists rest, snd (run_from db done p) = (done ++ rest)%list.
Proof.
  revert done. induction p as [a | op k IH]; intros done; simpl.
  - exists []. now rewrite app_nil_r.
  - destruct (IH (db done op) (done ++ [op])%list) as [rest Hrest].
    exists (op :: rest). rewrite Hrest, <- app_assoc. reflexivity.
Qed.

Lemma run_Do {A : Type} (db : Oracle) (op : DbOp) (k : Answer -> Prog A) :
  exists rest, snd (run db (Do op k)) = op :: rest.
Proof.
  unfold run. simpl.
  destruct (run_from_extends db (k (db [] op)) [op]) as [rest Hrest].
  exists rest. exact Hrest.
Qed.

Lemma handle_invalid (env : ProcessEnv) (tableName : string) (r : TableRequest) :
  invalidTableName tableName = true ->
  exists resp, handle env tableName r = Ret resp /\ status resp = 400.
Proof.
  intros Hbad.
  destruct r; simpl;
    unfold schemaRoute, listRoute, viewRoute, insertRoute, updateRoute,
           deleteRoute, exportRoute;
    rewrite Hbad; eexists; split; reflexivity.
Qed.

Lemma handle_valid (env : ProcessEnv) (tableName : string) (r : TableRequest) :
  invalidTableName tableName = false ->
  exists k, handle env tableName r = Do Connect k.
Proof.
  intros Hok.
  destruct r; simpl;
    unfold schemaRoute, listRoute, viewRoute, insertRoute, updateRoute,
           deleteRoute, exportRoute;
    rewrite Hok; eexists; reflexivity.
Qed.

(** C2. A table name passes the guard of a table route exactly when it
    matches [^[A-Za-z_][A-Za-z0-9_]*$]. When it does not, each of the
    seven routes (schema, list, view, insert, update, delete, export)
    answers with status 400 and makes no call to the database client;
    when it does, the first thing the route does is to connect. *)
Theorem table_name_guard (env : ProcessEnv) (db : Oracle) (tableName : string)
    (r : TableRequest) :
  (invalidTableName tableName = false <->
     Regex.Matches Regex.spec_identifier_re tableName) /\
  (invalidTableName tableName = true ->
     exists resp, run db (handle env tableName r) = (resp, []) /\ status resp = 400) /\
  (invalidTableName tableName = false ->
     exists rest, snd (run db (handle env tableName r)) = Connect :: rest).
Proof.
  split; [|split].
  - rewrite invalidTableName_is_identifier, spec_identifier_re_is_identifier.
    destruct (Regex.is_identifier tableName); simpl; split; congruence.
  - intros Hbad.
    destruct (handle_invalid env tableName r Hbad) as [resp [Hr Hs]].
    exists resp. rewrite Hr. split; [reflexivity | exact Hs].
  - intros Hok.
    destruct (handle_valid env tableName r Hok) as [k Hk].
    rewrite Hk. apply run_Do.
Qed.

(** ** The shared error handler *)

Lemma assoc_In (key : string) (l : list (string * string)) (m : string) :
  assoc key l = Some m -> In m (map snd l).
Proof.
  induction l as [|[k v] l IH]; simpl; [discriminate|].
  destruct (String.eqb k key); [intros [= <-]; now left | right; auto].
Qed.

(** C10. Every error that reaches [handleDatabaseError] is answered with
    status 500 and a payload whose [code] is the error's own code in
    every mode; [details] is the error's message in development mode and
    absent in any other; a code found in the table yields its message,
    and a code that names neither an entry of the table nor a member
    inherited from [Object.prototype] yields the generic message. *)
Theorem handleDatabaseError_payload (env : ProcessEnv) (err : JsError) :
  status (handleDatabaseError env err) = 500 /\
  exists msg details,
    body (handleDatabaseError env err) = DbErrorBody msg details (err_code err) /\
    (NODE_ENV env = Some "development" -> details = Some (err_message err)) /\
    (NODE_ENV env <> Some "development" -> details = None) /\
    (forall m, assoc (propertyKey (err_code err)) errorMessages = Some m ->
               msg = Message m) /\
    (assoc (propertyKey (err_code err)) errorMessages = None ->
     ~ In (propertyKey (err_code err)) objectPrototypeKeys ->
     msg = Message "Database operation failed").
Proof.
  split; [reflexivity|].
  eexists. eexists. split; [reflexivity|].
  split; [|split; [|split]].
  - intros Hdev. unfold isDevelopment. rewrite Hdev. reflexivity.
  - intros Hdev. unfold isDevelopment.
    destruct (NODE_ENV env) as [m|]; [|reflexivity].
    destruct (String.eqb m "development") eqn:E; [|reflexivity].
    apply String.eqb_eq in E. congruence.
  - intros m Hm. unfold userFriendlyMessage. rewrite Hm.
    assert (Hne : falsy_string m = false).
    { apply assoc_In in Hm. unfold errorMessages in Hm. simpl in Hm.
      repeat (destruct Hm as [<- | Hm]; [reflexivity|]). contradiction. }
    rewrite Hne. reflexivity.
  - intros Hnone Hnot. unfold userFriendlyMessage. rewrite Hnone.
    destruct (existsb (String.eqb (propertyKey (err_code err))) objectPrototypeKeys) eqn:E;
      [|reflexivity].
    apply existsb_exists in E as [k [Hin Hk]].
    apply String.eqb_eq in Hk. subst k. contradiction.
Qed.

End RunFacts.

(** ** Update and delete *)

Section MutationFacts.
Context `{JsRuntime}.

(** C7. On an update or a delete of a table with a well-formed name,
    once the connection is up: if the catalogue lookup finds no primary
    key the route answers 400 (Table has no primary key defined) and the
    only statement sent is that lookup, so no row is touched; if it
    finds one and the modifying statement returns no row, the route
    answers 404 (Record not found), not 500. *)
Theorem mutation_without_key_or_row (env : ProcessEnv) (db : Oracle)
    (tableName : string) (r : TableRequest) (pkResult : QueryResult)
    (pkRows : list Row) (stmt : DbOp) :
  invalidTableName tableName = false ->
  (exists c, db [] Connect = Resolved c) ->
  db [Connect] (pkLookup tableName) = Resolved pkResult ->
  rows pkResult = Some pkRows ->
  mutationStatement tableName pkRows r = Some stmt ->
  (pkRows = [] ->
     run db (handle env tableName r)
     = (noPrimaryKeyResponse, [Connect; pkLookup tableName; End_])
     /\ status noPrimaryKeyResponse = 400) /\
  (pkRows <> [] ->
     forall result,
       db [Connect; pkLookup tableName] stmt = Resolved result ->
       rows result = Some [] ->
       run db (handle env tableName r)
       = (notFoundResponse, [Connect; pkLookup tableName; stmt; End_])
       /\ status notFoundResponse = 404).
Proof.
  intros Hok [c Hc] Hpk Hrows Hstmt.
  unfold pkLookup in *.
  destruct r; simpl in Hstmt; try discriminate; injection Hstmt as <-;
    unfold handle, updateRoute, deleteRoute, run, tryCatchFinally, tbind, await;
    rewrite Hok; simpl; rewrite Hc; simpl; rewrite Hpk; simpl; rewrite Hrows; simpl.
  all: split.
  all: try (intros ->; simpl; split; reflexivity).
  all: intros Hne result Hres Hnone;
    destruct pkRows as [|pk0 pkRest]; [congruence|]; simpl;
    rewrite Hres; simpl; rewrite Hnone; simpl; split; reflexivity.
Qed.

End MutationFacts.

(** ** Substring tests *)

Lemma startsWith_prefix (p s : string) :
  JsString.startsWith p s = true <-> exists rest, s = p +:+ rest.
Proof.
  revert s. induction p as [|a p IH]; intros s; simpl.
  - split; [intros _; exists s; reflexivity | reflexivity].
  - destruct s as [|b s].
    + split; [discriminate | intros [rest Hr]; discriminate].
    + rewrite andb_true_iff, IH. split.
      * intros [Hab [rest ->]]. apply Ascii.eqb_eq in Hab. subst b.
        exists rest. reflexivity.
      * intros [rest Hr]. injection Hr as -> ->.
        split; [apply Ascii.eqb_refl | exists rest; reflexivity].
Qed.

Lemma includes_Contains (needle hay : string) :
  JsString.includes needle hay = true <-> Contains needle hay.
Proof.
  split.
  - induction hay as [|c hay IH]; simpl; rewrite orb_true_iff.
    + intros [Hs | Hf]; [|discriminate].
      apply startsWith_prefix in Hs as [rest Hr]. exists "", rest. exact Hr.
    + intros [Hs | Hi].
      * apply startsWith_prefix in Hs as [rest Hr]. exists "", rest. exact Hr.
      * destruct (IH Hi) as [before [after Hba]].
        exists (String c before), after. simpl. now rewrite Hba.
  - intros [before [after Hba]]. revert hay Hba.
    induction before as [|c before IH]; intros hay Hba; simpl in Hba.
    + assert (Hs : JsString.startsWith needle hay = true).
      { apply startsWith_prefix. exists after. exact Hba. }
      destruct hay; simpl; rewrite Hs; reflexivity.
    + subst hay. simpl. rewrite (IH _ eq_refl). apply orb_true_r.
Qed.

(** ** The export *)



Section ExportFacts.
Context `{JsRuntime}.

Lemma fold_csv_lines (rs : list Row) (init : string) :
  fold_left (fun csv row => csv +:+ csvLine row) rs init = init +:+ linesOf rs.
Proof.
  revert init. induction rs as [|row rs IH]; intros init; simpl.
  - now rewrite append_nil_r.
  - rewrite IH, append_assoc. reflexivity.
Qed.

Lemma csvOf_cons (first : Row) (rest : list Row) :
  csvOf (first :: rest)
  = JsString.join "," (keys first) +:+ nl +:+ linesOf (first :: rest).
Proof.
  unfold csvOf. rewrite fold_csv_lines. unfold csvHeader.
  now rewrite append_assoc.
Qed.

Lemma csvOf_empty_iff (rs : list Row) : csvOf rs = "" <-> rs = [].
Proof.
  split; [|intros ->; reflexivity].
  destruct rs as [|first rest]; [reflexivity|].
  rewrite csvOf_cons. intros Hnil.
  apply append_eq_nil in Hnil as [_ Hnil].
  apply append_eq_nil in Hnil as [Hnl _]. discriminate Hnl.
Qed.

(** C9. When the unfiltered SELECT of a CSV export returns no row, the
    response is 200 with an empty body: the header line is written from
    the keys of the first row, so the body is empty exactly when there
    is no row. *)
Theorem export_of_empty_table (env : ProcessEnv) (db : Oracle) (tableName : string)
    (format : option string) (result : QueryResult) :
  invalidTableName tableName = false ->
  format = None \/ format = Some "csv" ->
  (exists c, db [] Connect = Resolved c) ->
  db [Connect] (Query (exportSql tableName) None) = Resolved result ->
  rows result = Some [] ->
  run db (exportRoute env tableName format)
  = ({| status := 200; headers := csvHeaders tableName; body := CsvBody "" |},
     [Connect; Query (exportSql tableName) None; End_])
  /\ (forall rs, csvOf rs = "" <-> rs = [])
  /\ (forall first rest,
        csvOf (first :: rest)
        = JsString.join "," (keys first) +:+ nl +:+ linesOf (first :: rest)).
Proof.
  intros Hok Hfmt [c Hc] Hq Hrows.
  split; [|split; [apply csvOf_empty_iff | apply csvOf_cons]].
  unfold exportRoute, run, tryCatchFinally, tbind, await.
  rewrite Hok. simpl. rewrite Hc. simpl. rewrite Hq. simpl.
  destruct Hfmt as [-> | ->]; simpl; rewrite Hrows; reflexivity.
Qed.


End ExportFacts.

(** ** The ad-hoc query route *)

Section QueryFacts.
Context `{JsRuntime}.

Lemma scanWarnings_members (text : string) :
  let low := JsString.toLowerCase (JsString.trim text) in
  (In destructiveWarning (scanWarnings text) <->
     JsString.includes "drop table" low || JsString.includes "drop database" low = true) /\
  (In deleteWarning (scanWarnings text) <->
     JsString.includes "delete from" low && negb (JsString.includes "where" low) = true) /\
  (In updateWarning (scanWarnings text) <->
     JsString.includes "update" low && negb (JsString.includes "where" low) = true).
Proof.
  intros low. unfold scanWarnings. fold low.
  destruct (JsString.includes "drop table" low || JsString.includes "drop database" low);
    destruct (JsString.includes "delete from" low && negb (JsString.includes "where" low));
    destruct (JsString.includes "update" low && negb (JsString.includes "where" low));
    cbn [app In];
    repeat split; intros Hin; try reflexivity; try discriminate Hin; auto;
    repeat (destruct Hin as [Hin | Hin]; try discriminate Hin); try contradiction.
Qed.

(** C8. A non-empty SQL text sent to the query route is scanned, in
    lower case, for [drop table] or [drop database], for [delete from]
    with no [where], and for [update] with no [where]; each hit adds
    its warning. The warnings change nothing else: once connected the
    route sends the text as it came, and the warnings travel with the
    200 payload when the statement succeeds and with the 500 payload
    when the connection or the statement fails. *)
Theorem run_query_warnings_advisory (startTime endTime : Z) (text : string)
    (db : Oracle) :
  text <> "" ->
  let low := JsString.toLowerCase (JsString.trim text) in
  let warnings := scanWarnings text in
  (In destructiveWarning warnings <->
     Contains "drop table" low \/ Contains "drop database" low) /\
  (In deleteWarning warnings <->
     Contains "delete from" low /\ ~ Contains "where" low) /\
  (In updateWarning warnings <->
     Contains "update" low /\ ~ Contains "where" low) /\
  run db (runQueryRoute startTime endTime (Some text))
  = match db [] Connect with
    | Rejected e =>
        (respond 500
           (QueryFailedBody "Query execution failed" (err_message e) (err_code e)
              (endTime - startTime) warnings),
         [Connect; End_])
    | Resolved _ =>
        match db [Connect] (Query text None) with
        | Rejected e =>
            (respond 500
               (QueryFailedBody "Query execution failed" (err_message e) (err_code e)
                  (endTime - startTime) warnings),
             [Connect; Query text None; End_])
        | Resolved result =>
            (respond 200
               (QueryOkBody "Query executed successfully"
                  (fst (resultDataOf result)) (snd (resultDataOf result))
                  (command result) (endTime - startTime) warnings),
             [Connect; Query text None; End_])
        end
    end.
Proof.
  intros Htext low warnings.
  destruct (scanWarnings_members text) as [Hd [Hdel Hupd]].
  fold low in Hd, Hdel, Hupd. fold warnings in Hd, Hdel, Hupd.
  split; [|split; [|split]].
  - rewrite Hd, orb_true_iff, !includes_Contains. reflexivity.
  - rewrite Hdel, andb_true_iff, negb_true_iff, <- not_true_iff_false,
      !includes_Contains. reflexivity.
  - rewrite Hupd, andb_true_iff, negb_true_iff, <- not_true_iff_false,
      !includes_Contains. reflexivity.
  - unfold runQueryRoute, run, tryCatchFinally, tbind, await.
    destruct text as [|c text]; [congruence|].
    cbn [truthy falsy_string negb from_option id bind run_from app].
    destruct (db [] Connect) as [c0 | e]; cbn [bind run_from app]; [|reflexivity].
    destruct (db [Connect] (Query (String c text) None)) as [result | e];
      cbn [bind run_from app]; [|reflexivity].
    destruct (resultDataOf result) as [count data]. reflexivity.
Qed.

End QueryFacts.

(** ** Sessions *)

Lemma expired_true (cfg : Auth.AuthConfig) (t : Z) (s : Auth.Session) :
  Auth.expired cfg t s = true <-> (t - Auth.lastActivity s > Auth.sessionTimeout cfg)%Z.
Proof. unfold Auth.expired. rewrite Z.gtb_gt. lia. Qed.

Lemma expired_false (cfg : Auth.AuthConfig) (t : Z) (s : Auth.Session) :
  Auth.expired cfg t s = false <-> (t - Auth.lastActivity s <= Auth.sessionTimeout cfg)%Z.
Proof.
  rewrite <- not_true_iff_false, expired_true. lia.
Qed.

(** C3. [validateSession] answers null for a token that is not in the
    registry, for a session marked invalid, and for a session idle for
    more than the timeout, which it also removes; in every other case it
    stores the current time in [lastActivity] and returns the session.
    Hence, after a validation that stored time T, a validation at
    T + timeout - eps succeeds, and one at T + timeout + eps with nothing
    in between answers null and leaves the token out of the registry. *)
Theorem validateSession_spec (cfg : Auth.AuthConfig) (sessions : gmap string Auth.Session)
    (token : string) (tCheck T : Z) :
  (sessions !! token = None ->
     Auth.validateSession cfg tCheck T token sessions = (None, sessions)) /\
  (forall s, sessions !! token = Some s -> Auth.isValid s = false ->
     Auth.validateSession cfg tCheck T token sessions = (None, sessions)) /\
  (forall s, sessions !! token = Some s -> Auth.isValid s = true ->
     (tCheck - Auth.lastActivity s > Auth.sessionTimeout cfg)%Z ->
     Auth.validateSession cfg tCheck T token sessions = (None, delete token sessions)) /\
  (forall s, sessions !! token = Some s -> Auth.isValid s = true ->
     (tCheck - Auth.lastActivity s <= Auth.sessionTimeout cfg)%Z ->
     let refreshed := Auth.touch T s in
     let registry := <[token := refreshed]> sessions in
     Auth.validateSession cfg tCheck T token sessions = (Some refreshed, registry) /\
     Auth.lastActivity refreshed = T /\
     forall eps t', (0 < eps)%Z ->
       (exists s',
          fst (Auth.validateSession cfg (T + Auth.sessionTimeout cfg - eps) t' token registry)
          = Some s') /\
       Auth.validateSession cfg (T + Auth.sessionTimeout cfg + eps) t' token registry
       = (None, delete token sessions)).
Proof.
  unfold Auth.validateSession.
  split; [|split; [|split]].
  - intros ->. reflexivity.
  - intros s -> ->. reflexivity.
  - intros s -> -> Hidle. simpl.
    apply expired_true in Hidle. rewrite Hidle. reflexivity.
  - intros s -> Hvalid Hidle. rewrite Hvalid. simpl.
    apply expired_false in Hidle. rewrite Hidle.
    split; [reflexivity|]. split; [reflexivity|].
    intros eps t' Heps. rewrite lookup_insert_eq. simpl. rewrite Hvalid. simpl.
    split.
    + assert (E : Auth.expired cfg (T + Auth.sessionTimeout cfg - eps) (Auth.touch T s) = false).
      { apply expired_false. simpl. lia. }
      rewrite E. eexists. reflexivity.
    + assert (E : Auth.expired cfg (T + Auth.sessionTimeout cfg + eps) (Auth.touch T s) = true).
      { apply expired_true. simpl. lia. }
      rewrite E. f_equal. apply delete_insert_eq.
Qed.

(** ** The login throttle *)

Lemma afterReset_within (t : Z) (a : Auth.Attempts) :
  (t - Auth.lastAttempt a <= Auth.window)%Z -> Auth.afterReset t a = a.
Proof.
  intros Hw. unfold Auth.afterReset, Auth.windowExpired.
  destruct (Z.gtb_spec (t - Auth.lastAttempt a) Auth.window); [lia | reflexivity].
Qed.

Lemma afterReset_expired (t : Z) (a : Auth.Attempts) :
  (t - Auth.lastAttempt a > Auth.window)%Z -> Auth.count (Auth.afterReset t a) = 0.
Proof.
  intros Hw. unfold Auth.afterReset, Auth.windowExpired.
  destruct (Z.gtb_spec (t - Auth.lastAttempt a) Auth.window); [reflexivity | lia].
Qed.

Lemma login_blocked_iff (cfg : Auth.AuthConfig) (env : Auth.LoginEnv)
    (req : Auth.LoginRequest) (st : Auth.AuthState) :
  let entry := Auth.attemptsOf (Auth.clientIP req) (Auth.loginAttempts st) in
  isTooMany (fst (Auth.login cfg env req st)) = true <->
  5 <= Auth.count entry /\ (Auth.now env - Auth.lastAttempt entry <= Auth.window)%Z.
Proof.
  intros entry. unfold Auth.login. fold entry.
  destruct (Nat.leb_spec Auth.maxAttempts (Auth.count (Auth.afterReset (Auth.now env) entry)))
    as [Hge | Hlt]; unfold Auth.maxAttempts in *.
  - simpl. split; [intros _ | reflexivity].
    destruct (Z_le_gt_dec (Auth.now env - Auth.lastAttempt entry) Auth.window) as [Hw | Hw].
    + rewrite (afterReset_within _ _ Hw) in Hge. auto.
    + rewrite (afterReset_expired _ _ Hw) in Hge. lia.
  - assert (Hno : ~ (5 <= Auth.count entry /\
                     (Auth.now env - Auth.lastAttempt entry <= Auth.window)%Z)).
    { intros [Hc Hw]. rewrite (afterReset_within _ _ Hw) in Hlt. lia. }
    destruct (Auth.credentialsMatch cfg (Auth.body_username req) (Auth.body_password req));
      simpl; split; intros Hx; try discriminate Hx; contradiction.
Qed.

Lemma login_failure_records (cfg : Auth.AuthConfig) (env : Auth.LoginEnv)
    (req : Auth.LoginRequest) (st : Auth.AuthState) :
  isFailure (fst (Auth.login cfg env req st)) = true ->
  Auth.loginAttempts (snd (Auth.login cfg env req st)) !! Auth.clientIP req
  = Some {| Auth.count :=
              S (Auth.count (Auth.afterReset (Auth.now env)
                               (Auth.attemptsOf (Auth.clientIP req) (Auth.loginAttempts st))));
            Auth.lastAttempt := Auth.now env |}.
Proof.
  unfold Auth.login.
  destruct (Auth.maxAttempts <=? _)%nat; [simpl; discriminate|].
  destruct (Auth.credentialsMatch cfg _ _); simpl; [discriminate|].
  intros _. apply lookup_insert_eq.
Qed.

Lemma login_success_clears (cfg : Auth.AuthConfig) (env : Auth.LoginEnv)
    (req : Auth.LoginRequest) (st : Auth.AuthState) :
  isSuccess (fst (Auth.login cfg env req st)) = true ->
  Auth.loginAttempts (snd (Auth.login cfg env req st)) !! Auth.clientIP req = None.
Proof.
  unfold Auth.login.
  destruct (Auth.maxAttempts <=? _)%nat; [simpl; discriminate|].
  destruct (Auth.credentialsMatch cfg _ _); simpl; [|discriminate].
  intros _. apply lookup_delete_eq.
Qed.

(** Failures that follow one another within the window add up. *)
Lemma failures_accumulate (cfg : Auth.AuthConfig) (ip : string)
    (reqs : list (Auth.LoginEnv * Auth.LoginRequest)) :
  forall (st st' : Auth.AuthState) (resps : list Auth.LoginResponse)
         (a : Auth.Attempts) (tlast : Z),
    Auth.loginAttempts st !! ip = Some a ->
    pacedFrom (Auth.lastAttempt a) (map clockOf reqs ++ [tlast]) ->
    Forall (fun er => clientOf er = ip) reqs ->
    Auth.loginMany cfg reqs st = (resps, st') ->
    forallb isFailure resps = true ->
    exists a', Auth.loginAttempts st' !! ip = Some a' /\
               Auth.count a' = Auth.count a + length reqs /\
               (tlast - Auth.lastAttempt a' <= Auth.window)%Z.
Proof.
  induction reqs as [|[env req] rest IH]; intros st st' resps a tlast Ha Hp Hip Hrun Hfail.
  - simpl in Hrun. injection Hrun as <- <-.
    exists a. simpl in Hp. simpl. split; [assumption | split; [lia | tauto]].
  - simpl in Hrun.
    destruct (Auth.login cfg env req st) as [r st1] eqn:E1.
    destruct (Auth.loginMany cfg rest st1) as [rs st2] eqn:E2.
    injection Hrun as <- <-.
    simpl in Hfail. apply andb_true_iff in Hfail as [Hr Hrs].
    inversion Hip as [|x l Hx Hrest]; subst x l. unfold clientOf in Hx. simpl in Hx. subst ip.
    simpl in Hp. destruct Hp as [Hw Hp]. unfold clockOf in Hw. simpl in Hw.
    pose proof (login_failure_records cfg env req st) as Hrec.
    rewrite E1 in Hrec. simpl in Hrec. specialize (Hrec Hr).
    unfold Auth.attemptsOf in Hrec. rewrite Ha in Hrec. simpl in Hrec.
    rewrite (afterReset_within _ _ Hw) in Hrec.
    destruct (IH st1 st2 rs _ tlast Hrec Hp Hrest E2 Hrs) as [a' [Ha' [Hc' Hw']]].
    exists a'. split; [assumption|]. split; [|assumption].
    rewrite Hc'. simpl. lia.
Qed.

(** C4. For the client of a login request: the time stored in its entry
    is that of its latest recorded failure, since every recorded failure
    stores the time of the request with the incremented count. When more
    than the 15-minute window has passed since that time, the count the
    handler works with is 0 and the request is not blocked; the request
    is blocked exactly when the stored count is at least 5 and the window
    has not passed; if the state was reached by five attempts of this
    client that were each recorded as a failure, each within a window of
    the one before, and the request comes within a window of the fifth,
    it is blocked whatever credentials it carries; and after a
    successful login the client has no entry. *)
Theorem login_throttle (cfg : Auth.AuthConfig) (env : Auth.LoginEnv)
    (req : Auth.LoginRequest) (st : Auth.AuthState) :
  let ip := Auth.clientIP req in
  let entry := Auth.attemptsOf ip (Auth.loginAttempts st) in
  let resp := fst (Auth.login cfg env req st) in
  let st' := snd (Auth.login cfg env req st) in
  ((Auth.now env - Auth.lastAttempt entry > Auth.window)%Z ->
     Auth.count (Auth.afterReset (Auth.now env) entry) = 0 /\
     isTooMany resp = false /\
     (isFailure resp = true ->
        Auth.loginAttempts st' !! ip
        = Some {| Auth.count := 1; Auth.lastAttempt := Auth.now env |})) /\
  (isTooMany resp = true <->
     5 <= Auth.count entry /\ (Auth.now env - Auth.lastAttempt entry <= Auth.window)%Z) /\
  (forall st0 reqs resps,
     length reqs = 5 ->
     Auth.loginMany cfg reqs st0 = (resps, st) ->
     Forall (fun er => clientOf er = ip) reqs ->
     forallb isFailure resps = true ->
     paced (map clockOf reqs ++ [Auth.now env]) ->
     isTooMany resp = true) /\
  (isSuccess resp = true -> Auth.loginAttempts st' !! ip = None) /\
  (isFailure resp = true ->
     Auth.loginAttempts st' !! ip
     = Some {| Auth.count := S (Auth.count (Auth.afterReset (Auth.now env) entry));
               Auth.lastAttempt := Auth.now env |}).
Proof.
  intros ip entry resp st'.
  pose proof (login_blocked_iff cfg env req st) as Hiff. simpl in Hiff.
  fold ip in Hiff. fold entry in Hiff. fold resp in Hiff.
  split; [|split; [exact Hiff | split; [|split]]].
  - intros Hexp. split; [apply afterReset_expired; assumption|].
    split.
    + apply not_true_iff_false. rewrite Hiff. lia.
    + intros Hf. subst st' resp ip.
      rewrite (login_failure_records _ _ _ _ Hf). fold entry.
      rewrite (afterReset_expired _ _ Hexp). reflexivity.
  - intros st0 reqs resps Hlen Hrun Hip Hfail Hp.
    destruct reqs as [|[env1 req1] rest]; [discriminate Hlen|].
    simpl in Hrun.
    destruct (Auth.login cfg env1 req1 st0) as [r1 st1] eqn:E1.
    destruct (Auth.loginMany cfg rest st1) as [rs st2] eqn:E2.
    injection Hrun as <- <-.
    simpl in Hfail. apply andb_true_iff in Hfail as [Hr Hrs].
    inversion Hip as [|x l Hx Hrest]; subst x l.
    unfold clientOf in Hx. simpl in Hx.
    pose proof (login_failure_records cfg env1 req1 st0) as Hrec.
    rewrite E1 in Hrec. simpl in Hrec. specialize (Hrec Hr). rewrite Hx in Hrec.
    simpl in Hp. unfold clockOf at 1 in Hp. simpl in Hp.
    destruct (failures_accumulate cfg ip rest st1 st2 rs _ (Auth.now env)
                Hrec Hp Hrest E2 Hrs) as [a' [Ha' [Hc' Hw']]].
    apply Hiff. unfold entry, Auth.attemptsOf. rewrite Ha'. simpl.
    simpl in Hlen, Hc'. split; [lia | assumption].
  - apply login_success_clears.
  - apply login_failure_records.
Qed.

(** ** Pagination *)

Lemma digitval_pretty_N_char (d : N) :
  (d < 10)%N -> JsNum.digitval 10 (pretty_N_char d) = Some (Z.of_N d)
                /\ JsString.is_digit (pretty_N_char d) = true.
Proof.
  intros Hd.
  assert (Hcases : (d = 0 \/ d = 1 \/ d = 2 \/ d = 3 \/ d = 4 \/ d = 5 \/ d = 6
                   \/ d = 7 \/ d = 8 \/ d = 9)%N) by lia.
  repeat (destruct Hcases as [-> | Hcases]; [split; reflexivity|]).
  subst d. split; reflexivity.
Qed.

Lemma digits_pretty_N_go (x : N) :
  forall s, (0 < x)%N ->
    JsNum.digits 10 (pretty_N_go x s) None = JsNum.digits 10 s (Some (Z.of_N x)).
Proof.
  induction x as [x IH] using (well_founded_induction N.lt_wf_0).
  intros s Hx. rewrite pretty_N_go_step by assumption.
  assert (Hd : (x mod 10 < 10)%N) by (apply N.mod_lt; lia).
  destruct (digitval_pretty_N_char _ Hd) as [Hv _].
  pose proof (N.div_mod x 10 ltac:(lia)) as Hdm.
  destruct (N.eq_dec (x / 10)%N 0%N) as [Hq | Hq].
  - rewrite Hq, pretty_N_go_0. cbn [JsNum.digits]. rewrite Hv.
    cbn [default from_option id]. do 2 f_equal. lia.
  - rewrite IH; [|apply N.div_lt; lia | lia].
    cbn [JsNum.digits]. rewrite Hv. cbn [from_option id]. do 2 f_equal. lia.
Qed.

Lemma all_digits_pretty_N_go (x : N) :
  forall s, Regex.all_chars JsString.is_digit s = true ->
    Regex.all_chars JsString.is_digit (pretty_N_go x s) = true.
Proof.
  induction x as [x IH] using (well_founded_induction N.lt_wf_0).
  intros s Hs. destruct (N.eq_dec x 0%N) as [-> | Hx].
  - now rewrite pretty_N_go_0.
  - rewrite pretty_N_go_step by lia.
    assert (Hd : (x mod 10 < 10)%N) by (apply N.mod_lt; lia).
    destruct (digitval_pretty_N_char _ Hd) as [_ Hc].
    apply IH; [apply N.div_lt; lia|]. simpl. now rewrite Hc, Hs.
Qed.

(** On a text of decimal digits only, [parseInt] skips nothing and reads
    the digits in base ten, with or without a minus sign in front; what
    it answers is the double nearest to the integer read. *)
Lemma parseInt_decimal (w : string) (v : Z) :
  Regex.all_chars JsString.is_digit w = true ->
  JsNum.digits 10 w None = Some v ->
  JsNum.parseInt w = (if (v =? 0)%Z then JsNum.Fin 0 else JsNum.of_Z v) /\
  JsNum.parseInt (String "-" w)
  = (if (v =? 0)%Z then JsNum.NegZero else JsNum.of_Z (- v)).
Proof.
  intros Hall Hv.
  destruct w as [|c rest]; [discriminate Hv|].
  simpl in Hall. apply andb_true_iff in Hall as [Hc Hrest].
  assert (Hradix :
    match String c rest with
    | String "0" (String "x" r) | String "0" (String "X" r) => (16, r)
    | _ => (10, String c rest)
    end = (10, String c rest)).
  { destruct rest as [|c' rest']; simpl in Hrest.
    - destruct c as [[] [] [] [] [] [] [] []]; reflexivity.
    - apply andb_true_iff in Hrest as [Hc' _].
      destruct c as [[] [] [] [] [] [] [] []]; try reflexivity.
      destruct c' as [[] [] [] [] [] [] [] []]; try reflexivity; discriminate Hc'. }
  split.
  - unfold JsNum.parseInt.
    assert (Htrim : JsString.trimStart (String c rest) = String c rest).
    { destruct c as [[] [] [] [] [] [] [] []]; try discriminate Hc; reflexivity. }
    rewrite Htrim.
    assert (Hsign :
      match String c rest with
      | String "-" r => (true, r)
      | String "+" r => (false, r)
      | _ => (false, String c rest)
      end = (false, String c rest)).
    { destruct c as [[] [] [] [] [] [] [] []]; try discriminate Hc; reflexivity. }
    rewrite Hsign, Hradix, Hv. reflexivity.
  - unfold JsNum.parseInt.
    change (JsString.trimStart (String "-" (String c rest))) with (String "-" (String c rest)).
    cbv iota beta. rewrite Hradix, Hv. reflexivity.
Qed.

Lemma parseInt_pretty_N (x : N) :
  JsNum.parseInt (pretty x)
  = (if (Z.of_N x =? 0)%Z then JsNum.Fin 0 else JsNum.of_Z (Z.of_N x)) /\
  ((0 < x)%N -> JsNum.parseInt (String "-" (pretty x)) = JsNum.of_Z (- Z.of_N x)).
Proof.
  unfold pretty, pretty_N. destruct (decide (x = 0%N)) as [-> | Hx].
  - split; [reflexivity | lia].
  - assert (Hpos : (0 < x)%N) by lia.
    pose proof (digits_pretty_N_go x "" Hpos) as Hd. simpl in Hd.
    pose proof (all_digits_pretty_N_go x "" eq_refl) as Ha.
    destruct (parseInt_decimal _ _ Ha Hd) as [H1 H2].
    destruct (Z.eqb_spec (Z.of_N x) 0) as [Hz | _]; [lia|]. split; auto.
Qed.

(** A decimal text is read as the double nearest to the integer it
    writes. *)
Lemma parseInt_pretty (z : Z) :
  JsNum.parseInt (pretty z) = if (z =? 0)%Z then JsNum.Fin 0 else JsNum.of_Z z.
Proof.
  destruct z as [|p|p]; unfold pretty, pretty_Z.
  - reflexivity.
  - apply (parseInt_pretty_N (Npos p)).
  - apply (parseInt_pretty_N (Npos p)). lia.
Qed.

Lemma cdiv_bounds (n l : Z) :
  (l <> 0)%Z ->
  ((0 < l -> (JsNum.cdiv n l - 1) * l < n <= JsNum.cdiv n l * l) /\
   (l < 0 -> JsNum.cdiv n l * l <= n < (JsNum.cdiv n l - 1) * l))%Z.
Proof.
  intros Hl. unfold JsNum.cdiv.
  pose proof (Z.div_mod (- n) l Hl) as Hdm.
  split; intros Hs.
  - pose proof (Z.mod_pos_bound (- n) l Hs). nia.
  - pose proof (Z.mod_neg_bound (- n) l Hs). nia.
Qed.

(** *** Rounding *)

Section RoundingFacts.
Local Open Scope Z_scope.

Lemma nearest_cases (n d : Z) :
  0 < d ->
  (JsNum.nearest n d = n / d /\ 2 * (n mod d) <= d) \/
  (JsNum.nearest n d = n / d + 1 /\ d <= 2 * (n mod d)).
Proof.
  intros Hd. unfold JsNum.nearest.
  destruct (Z.ltb_spec (2 * (n mod d)) d); [left; split; [reflexivity | lia]|].
  destruct (Z.ltb_spec d (2 * (n mod d))); [right; split; [reflexivity | lia]|].
  destruct (Z.even (n / d)); [left | right]; split; try reflexivity; lia.
Qed.

Lemma cdiv_unique (n d c : Z) :
  0 < d -> (c - 1) * d < n <= c * d -> JsNum.cdiv n d = c.
Proof.
  intros Hd Hc. unfold JsNum.cdiv.
  assert (E : - n / d = - c); [|lia].
  symmetry. apply (Z.div_unique_pos (- n) d (- c) (c * d - n)); lia.
Qed.

Lemma floor_unique (n d k : Z) :
  0 < d -> k * d <= n < (k + 1) * d -> n / d = k.
Proof.
  intros Hd Hk. symmetry. apply (Z.div_unique_pos n d k (n - k * d)); lia.
Qed.

(** Rounding the quotient [x / y] at a step [1 / P] finer than [2 / y]
    moves neither its floor nor its ceiling. *)
Lemma nearest_floor_ceil (x y P : Z) :
  0 < x -> 0 < y -> 0 < P -> y < 2 * P ->
  JsNum.nearest (x * P) y / P = x / y /\
  JsNum.cdiv (JsNum.nearest (x * P) y) P = JsNum.cdiv x y.
Proof.
  intros Hx Hy HP HyP.
  pose proof (Z.div_mod x y ltac:(lia)) as Hxy.
  pose proof (Z.mod_pos_bound x y Hy) as Hr.
  pose proof (Z.div_mod (x * P) y ltac:(lia)) as Hq.
  pose proof (Z.mod_pos_bound (x * P) y Hy) as Hrr.
  pose proof (nearest_cases (x * P) y Hy) as Hm.
  assert (Hk0 : 0 <= x / y) by (apply Z.div_pos; lia).
  remember (x / y) as k eqn:Ek. remember (x mod y) as r eqn:Er.
  remember (x * P / y) as q eqn:Eq. remember ((x * P) mod y) as rr eqn:Err.
  remember (JsNum.nearest (x * P) y) as m eqn:Em.
  clear Ek Er Eq Err Em.
  assert (Hlo : k * P <= q) by nia.
  assert (Hhi : q < (k + 1) * P) by nia.
  assert (Hcdiv : JsNum.cdiv x y = if r =? 0 then k else k + 1).
  { destruct (Z.eqb_spec r 0); apply cdiv_unique; nia. }
  rewrite Hcdiv.
  destruct Hm as [[-> Hdown] | [-> Hup]].
  - split; [apply floor_unique; lia|].
    destruct (Z.eqb_spec r 0) as [Hr0 | Hr0]; apply cdiv_unique; nia.
  - split.
    + apply floor_unique; [lia|]. nia.
    + destruct (Z.eqb_spec r 0) as [Hr0 | Hr0].
      * exfalso. nia.
      * apply cdiv_unique; [lia|]. nia.
Qed.

(** For a safe integer [x] the quotient is rounded at a step that fine. *)
Lemma exponent_bounds (x y : Z) :
  0 < x < 2 ^ 53 -> 0 < y < 2 ^ 1024 ->
  JsNum.exponent x y <= 0 /\ y < 2 * 2 ^ (- JsNum.exponent x y).
Proof.
  intros Hx Hy.
  assert (Hlx : Z.log2 x < 53) by (apply Z.log2_lt_pow2; lia).
  assert (Hly : Z.log2 y < 1024) by (apply Z.log2_lt_pow2; lia).
  pose proof (Z.log2_nonneg x) as Hlx0. pose proof (Z.log2_nonneg y) as Hly0.
  destruct (Z.log2_spec y ltac:(lia)) as [_ Hyhi].
  assert (He : JsNum.exponent x y <= 0 /\ Z.log2 y <= - JsNum.exponent x y).
  { unfold JsNum.exponent.
    destruct (JsNum.scaled x y (Z.log2 x - Z.log2 y - 52)) as [n d].
    destruct (n <? 2 ^ 52 * d); lia. }
  destruct He as [He Hle]. split; [exact He|].
  assert (Hpow : 2 ^ Z.log2 y <= 2 ^ (- JsNum.exponent x y))
    by (apply Z.pow_le_mono_r; lia).
  replace (2 ^ Z.succ (Z.log2 y)) with (2 * 2 ^ Z.log2 y) in Hyhi
    by (rewrite Z.pow_succ_r; lia).
  lia.
Qed.

Lemma quotient_floor_ceil (x y : Z) :
  0 < x < 2 ^ 53 -> 0 < y < 2 ^ 1024 ->
  JsNum.floor_of (JsNum.quotient x y) = x / y /\
  JsNum.ceil_of (JsNum.quotient x y) = JsNum.cdiv x y.
Proof.
  intros Hx Hy. destruct (exponent_bounds x y Hx Hy) as [He Hlt].
  unfold JsNum.quotient, JsNum.scaled.
  remember (JsNum.exponent x y) as e eqn:Ee. clear Ee.
  destruct (Z.leb_spec 0 e) as [H0 | Hneg].
  - assert (e = 0) by lia. subst e. cbn [JsNum.floor_of JsNum.ceil_of Z.leb Z.compare].
    change (2 ^ 0) with 1 in *. change (- 0) with 0 in Hlt. change (2 ^ 0) with 1 in Hlt.
    rewrite !Z.mul_1_r.
    destruct (nearest_floor_ceil x y 1 ltac:(lia) ltac:(lia) ltac:(lia) ltac:(lia))
      as [Hf Hc].
    rewrite Z.mul_1_r in Hf, Hc. rewrite Z.div_1_r in Hf.
    split; [exact Hf|]. rewrite <- Hc. unfold JsNum.cdiv. rewrite Z.div_1_r. lia.
  - cbn [JsNum.floor_of JsNum.ceil_of].
    destruct (Z.leb_spec 0 e) as [H0 | _]; [lia|].
    assert (HP : 0 < 2 ^ (- e)) by (apply Z.pow_pos_nonneg; lia).
    apply nearest_floor_ceil; lia.
Qed.

Lemma cdiv_signs (x y : Z) :
  0 <= x -> 0 < y ->
  JsNum.cdiv (- x) (- y) = JsNum.cdiv x y /\
  JsNum.cdiv x (- y) = - (x / y) /\
  JsNum.cdiv (- x) y = - (x / y).
Proof.
  intros Hx Hy. unfold JsNum.cdiv.
  rewrite Z.opp_involutive. rewrite Z.div_opp_opp by lia.
  split; [|split; reflexivity].
  rewrite <- (Z.div_opp_opp (- x) y) by lia. rewrite Z.opp_involutive. reflexivity.
Qed.

(** For a safe integer divided by an integer other than zero, the
    ceiling the engine computes is the ceiling of the exact quotient. *)
Lemma ceil_div_value (a b : JsNum.t) (n l : Z) :
  JsNum.value a = Some n -> JsNum.value b = Some l ->
  Z.abs n < 2 ^ 53 -> l <> 0 -> Z.abs l < 2 ^ 1024 ->
  JsNum.value (JsNum.ceil_div a b) = Some (JsNum.cdiv n l).
Proof.
  intros Ha Hb Hn Hl0 Hl.
  destruct b as [lb| | | |]; try discriminate Hb; cbn in Hb;
    [|injection Hb as <-; contradiction].
  injection Hb as ->.
  assert (Hzero : forall s, JsNum.value (JsNum.zero s) = Some 0) by (intros []; reflexivity).
  destruct a as [na| | | |]; try discriminate Ha; cbn in Ha; injection Ha as <-.
  2:{ unfold JsNum.ceil_div. cbn [JsNum.magnitude].
      destruct (Z.eqb_spec (Z.abs l) 0); [lia|]. cbn. rewrite Hzero.
      unfold JsNum.cdiv. cbn. rewrite Z.div_0_l by lia. reflexivity. }
  unfold JsNum.ceil_div. cbn [JsNum.magnitude JsNum.negative].
  destruct (Z.eqb_spec (Z.abs l) 0); [lia|].
  destruct (Z.eqb_spec (Z.abs na) 0) as [Hz | Hnz].
  { rewrite Hzero. assert (na = 0) by lia. subst na.
    unfold JsNum.cdiv. cbn. rewrite Z.div_0_l by lia. reflexivity. }
  destruct (quotient_floor_ceil (Z.abs na) (Z.abs l) ltac:(lia) ltac:(lia)) as [Hf Hc].
  pose proof (cdiv_signs (Z.abs na) (Z.abs l) ltac:(lia) ltac:(lia)) as (S1 & S2 & S3).
  destruct (Z.ltb_spec na 0) as [Hna | Hna]; destruct (Z.ltb_spec l 0) as [Hlb | Hlb];
    cbn [xorb].
  - cbn [JsNum.value]. rewrite Hc, <- S1. do 2 f_equal; lia.
  - rewrite Hf.
    assert (E : JsNum.cdiv na l = - (Z.abs na / Z.abs l)).
    { rewrite <- S3. f_equal; lia. }
    rewrite E. destruct (Z.eqb_spec (Z.abs na / Z.abs l) 0) as [-> | _]; reflexivity.
  - rewrite Hf.
    assert (E : JsNum.cdiv na l = - (Z.abs na / Z.abs l)).
    { rewrite <- S2. f_equal; lia. }
    rewrite E. destruct (Z.eqb_spec (Z.abs na / Z.abs l) 0) as [-> | _]; reflexivity.
  - cbn [JsNum.value]. rewrite Hc. do 2 f_equal; lia.
Qed.

Lemma round53_exact (a : Z) : 0 <= a <= 2 ^ 53 -> JsNum.round53 a = a.
Proof.
  intros Ha. destruct (Z.eq_dec a (2 ^ 53)) as [-> | Hne]; [vm_compute; reflexivity|].
  unfold JsNum.round53.
  destruct (Z.eq_dec a 0) as [-> | Hpos]; [reflexivity|].
  assert (Hl : Z.log2 a < 53) by (apply Z.log2_lt_pow2; lia).
  destruct (Z.leb_spec (Z.log2 a - 52) 0); [reflexivity | lia].
Qed.

Lemma round53_nonneg (a : Z) : 0 <= a -> 0 <= JsNum.round53 a.
Proof.
  intros Ha. unfold JsNum.round53.
  destruct (Z.leb_spec (Z.log2 a - 52) 0) as [_ | He]; [exact Ha|].
  assert (HP : 0 < 2 ^ (Z.log2 a - 52)) by (apply Z.pow_pos_nonneg; lia).
  assert (Hq : 0 <= a / 2 ^ (Z.log2 a - 52)) by (apply Z.div_pos; lia).
  destruct (nearest_cases a _ HP) as [[-> _] | [-> _]]; nia.
Qed.

(** Integers up to 2^53 in magnitude are doubles. *)
Lemma of_Z_exact (z : Z) : Z.abs z <= 2 ^ 53 -> JsNum.of_Z z = JsNum.Fin z.
Proof.
  intros Hz. unfold JsNum.of_Z. rewrite round53_exact by lia.
  assert (Hbig : (2 ^ 53 < 2 ^ 1024)) by (apply Z.pow_lt_mono_r; lia).
  destruct (Z.leb_spec (2 ^ 1024) (Z.abs z)); [lia|].
  f_equal. lia.
Qed.

Lemma of_Z_finite (z l : Z) :
  JsNum.value (JsNum.of_Z z) = Some l -> Z.abs l < 2 ^ 1024.
Proof.
  unfold JsNum.of_Z. pose proof (round53_nonneg (Z.abs z) (Z.abs_nonneg z)) as Hr.
  destruct (Z.leb_spec (2 ^ 1024) (JsNum.round53 (Z.abs z))) as [_ | Hlt].
  - destruct (z <? 0); discriminate.
  - cbn. intros Hl. injection Hl as <-. nia.
Qed.

Lemma parseInt_finite (s : string) (l : Z) :
  JsNum.value (JsNum.parseInt s) = Some l -> Z.abs l < 2 ^ 1024.
Proof.
  assert (Hbig : 0 < 2 ^ 1024) by (apply Z.pow_pos_nonneg; lia).
  unfold JsNum.parseInt.
  destruct (match JsString.trimStart s with
            | String "-" rest => (true, rest)
            | String "+" rest => (false, rest)
            | _ => (false, JsString.trimStart s)
            end) as [neg s2].
  destruct (match s2 with
            | String "0" (String "x" rest) | String "0" (String "X" rest) => (16%nat, rest)
            | _ => (10%nat, s2)
            end) as [radix s3].
  destruct (JsNum.digits radix s3 None) as [v|]; [|discriminate].
  destruct (v =? 0).
  - destruct neg; cbn; intros Hl; injection Hl as <-; lia.
  - apply of_Z_finite.
Qed.

Lemma sub_value (a : JsNum.t) (p : Z) :
  JsNum.value a = Some p -> Z.abs (p - 1) <= 2 ^ 53 ->
  JsNum.value (JsNum.sub a (JsNum.Fin 1)) = Some (p - 1).
Proof.
  intros Ha Hp. destruct a; try discriminate Ha; cbn in Ha; injection Ha as <-.
  - cbn [JsNum.sub]. rewrite of_Z_exact by assumption. reflexivity.
  - reflexivity.
Qed.

Lemma mul_value (a b : JsNum.t) (x y : Z) :
  JsNum.value a = Some x -> JsNum.value b = Some y -> Z.abs (x * y) <= 2 ^ 53 ->
  JsNum.value (JsNum.mul a b) = Some (x * y).
Proof.
  intros Ha Hb Hxy.
  assert (Hzero : forall s, JsNum.value (JsNum.zero s) = Some 0) by (intros []; reflexivity).
  destruct a as [xa| | | |]; try discriminate Ha; cbn in Ha; injection Ha as <-;
    destruct b as [yb| | | |]; try discriminate Hb; cbn in Hb; injection Hb as <-;
    unfold JsNum.mul; cbn [JsNum.magnitude JsNum.negative].
  - destruct (Z.eqb_spec (Z.abs xa * Z.abs yb) 0) as [Hz | Hnz].
    + rewrite Hzero. f_equal. nia.
    + assert (E : (if xorb (xa <? 0) (yb <? 0) then -1 else 1) * (Z.abs xa * Z.abs yb)
                  = xa * yb).
      { destruct (Z.ltb_spec xa 0); destruct (Z.ltb_spec yb 0); cbn [xorb]; nia. }
      rewrite E, of_Z_exact by assumption. reflexivity.
  - rewrite Z.mul_0_r. destruct (xa <? 0); cbn; f_equal; lia.
  - destruct (yb <? 0); reflexivity.
  - reflexivity.
Qed.

End RoundingFacts.

(** A decimal text of a safe integer is read as that integer. *)
Lemma parseInt_pretty_exact (z : Z) :
  (Z.abs z <= 2 ^ 53)%Z -> JsNum.parseInt (pretty z) = JsNum.Fin z.
Proof.
  intros Hz. rewrite parseInt_pretty.
  destruct (Z.eqb_spec z 0) as [-> | _]; [reflexivity | apply of_Z_exact; exact Hz].
Qed.

Section PaginationFacts.
Context `{JsRuntime}.

Lemma dropLast2_app {A : Type} (l : list A) (x y : A) :
  dropLast2 (l ++ [x; y]) = l.
Proof.
  unfold dropLast2. rewrite length_app. simpl.
  replace (length l + 2 - 2) with (length l) by lia.
  apply take_app_length.
Qed.

Lemma searchTerms_seq (textColumns : list string) (n k : nat) :
  searchTerms textColumns n k
  = (map (fun i => nth i textColumns "undefined" +:+ " ILIKE " +:+ placeholder (S i))
         (seq k n),
     k + n).
Proof.
  revert k. induction n as [|n IH]; intros k; simpl.
  - f_equal. lia.
  - rewrite IH. simpl. f_equal. lia.
Qed.

Lemma addSearch_params (tableName search : string) (textColumns : list string) :
  queryParams (addSearch search textColumns (startBuilding tableName))
  = map (fun _ => PStr ("%" +:+ search +:+ "%")) textColumns /\
  paramCount (addSearch search textColumns (startBuilding tableName))
  = length textColumns.
Proof.
  unfold addSearch. destruct textColumns as [|c cs]; [split; reflexivity|].
  rewrite searchTerms_seq. split; reflexivity.
Qed.

Lemma addSorting_keeps (sortBy sortOrder : option string) (b : Building) :
  queryParams (addSorting sortBy sortOrder b) = queryParams b /\
  paramCount (addSorting sortBy sortOrder b) = paramCount b /\
  countQuery (addSorting sortBy sortOrder b) = countQuery b.
Proof.
  unfold addSorting. destruct sortBy as [column|]; [|repeat split].
  destruct (negb (falsy_string column) && _); repeat split.
Qed.

(** A list request that is answered with status 200: the calls it made
    and the answers it got. *)
Lemma listRoute_success (env : ProcessEnv) (db : Oracle) (tableName : string)
    (q : ListQuery) (resp : Response) (trace : list DbOp) :
  run db (listRoute env tableName q) = (resp, trace) ->
  status resp = 200 ->
  exists before searched dataResult countResult total,
    ((truthy (q_search q) = false /\ before = [Connect] /\
      searched = startBuilding tableName) \/
     (truthy (q_search q) = true /\
      before = [Connect; Query searchColumnsSql (Some [PStr tableName])] /\
      exists columnsResult cols textColumns,
        db [Connect] (Query searchColumnsSql (Some [PStr tableName]))
        = Resolved columnsResult /\
        rows columnsResult = Some cols /\
        textColumnsOf cols = inr textColumns /\
        searched = addSearch (default "" (q_search q)) textColumns
                     (startBuilding tableName))) /\
    let built := addPagination (q_page q) (q_limit q)
                   (addSorting (q_sortBy q) (q_sortOrder q) searched) in
    let dataStmt := Query (baseQuery built) (Some (dataParams (q_page q) (q_limit q) built)) in
    let countStmt := Query (countQuery built) (Some (countParams built)) in
    trace = (before ++ [dataStmt; countStmt; End_])%list /\
    db before dataStmt = Resolved dataResult /\
    db (before ++ [dataStmt])%list countStmt = Resolved countResult /\
    totalRowsOf countResult = pure total /\
    resp = respond 200 (ListBody tableName (rows dataResult)
                          (paginationOf (q_page q) (q_limit q) total)).
Proof.
  unfold listRoute, run.
  destruct (invalidTableName tableName).
  { cbn. intros Hrun Hst. injection Hrun as <- _. discriminate Hst. }
  unfold tryCatchFinally, tbind, await. cbn [bind run_from app].
  destruct (db [] Connect) as [c | e].
  2:{ cbn. intros Hrun Hst. injection Hrun as <- _. discriminate Hst. }
  cbn [bind run_from app].
  assert (Htail : forall before searched,
    let built := addPagination (q_page q) (q_limit q)
                   (addSorting (q_sortBy q) (q_sortOrder q) searched) in
    let dataStmt := Query (baseQuery built) (Some (dataParams (q_page q) (q_limit q) built)) in
    let countStmt := Query (countQuery built) (Some (countParams built)) in
    forall k : Answer -> Answer -> Try Response,
    (forall dataAnswer countAnswer,
       k dataAnswer countAnswer
       = match dataAnswer, countAnswer with
         | Rejected e, _ => throw e
         | _, Rejected e => throw e
         | Resolved dataResult, Resolved countResult =>
             bind (totalRowsOf countResult) (fun r =>
               match r with
               | inl e => Ret (inl e)
               | inr total =>
                   pure (respond 200
                           (ListBody tableName (rows dataResult)
                              (paginationOf (q_page q) (q_limit q) total)))
               end)
         end) ->
    run_from db before
      (Do dataStmt (fun dataAnswer => Do countStmt (fun countAnswer =>
         bind (k dataAnswer countAnswer) (fun r =>
           Do End_ (fun _ =>
             Ret (match r with
                  | inl e => handleDatabaseError env e
                  | inr resp => resp
                  end))))))
    = (resp, trace) ->
    status resp = 200 ->
    exists dataResult countResult total,
      trace = (before ++ [dataStmt; countStmt; End_])%list /\
      db before dataStmt = Resolved dataResult /\
      db (before ++ [dataStmt])%list countStmt = Resolved countResult /\
      totalRowsOf countResult = pure total /\
      resp = respond 200 (ListBody tableName (rows dataResult)
                            (paginationOf (q_page q) (q_limit q) total))).
  { intros before searched built dataStmt countStmt k Hk.
    cbn [run_from]. rewrite Hk.
    destruct (db before dataStmt) as [dataResult | e] eqn:Hdata.
    2:{ cbn. intros Hrun Hst. injection Hrun as <- _. discriminate Hst. }
    destruct (db (before ++ [dataStmt])%list countStmt) as [countResult | e] eqn:Hcount.
    2:{ cbn. intros Hrun Hst. injection Hrun as <- _. discriminate Hst. }
    unfold totalRowsOf, tbind, defined.
    destruct (rows countResult) as [rs|] eqn:Hrows.
    2:{ cbn. intros Hrun Hst. injection Hrun as <- _. discriminate Hst. }
    destruct rs as [|row rest].
    { cbn. intros Hrun Hst. injection Hrun as <- _. discriminate Hst. }
    cbn [head bind pure throw run_from].
    intros Hrun _. injection Hrun as <- <-.
    exists dataResult, countResult, (JsNum.parseInt (ToString (field "count" row))).
    rewrite <- !app_assoc. repeat split. rewrite Hrows. reflexivity. }
  destruct (truthy (q_search q)) eqn:Hsearch.
  - cbn [bind run_from app].
    destruct (db [Connect] (Query searchColumnsSql (Some [PStr tableName])))
      as [columnsResult | e] eqn:Hcolumns.
    2:{ cbn. intros Hrun Hst. injection Hrun as <- _. discriminate Hst. }
    unfold defined.
    destruct (rows columnsResult) as [cols|] eqn:Hcols.
    2:{ cbn. intros Hrun Hst. injection Hrun as <- _. discriminate Hst. }
    cbn [bind pure].
    destruct (textColumnsOf cols) as [e | textColumns] eqn:Htext.
    { cbn. intros Hrun Hst. injection Hrun as <- _. discriminate Hst. }
    cbn [bind pure]. intros Hrun Hst.
    destruct (Htail _ _ _ (fun _ _ => eq_refl) Hrun Hst)
      as (dataResult & countResult & total & Htrace & Hdata & Hcount & Htotal & Hresp).
    exists [Connect; Query searchColumnsSql (Some [PStr tableName])],
           (addSearch (default "" (q_search q)) textColumns (startBuilding tableName)),
           dataResult, countResult, total.
    split; [right; split; [reflexivity|]; split; [reflexivity|];
            exists columnsResult, cols, textColumns; auto|].
    cbn zeta. auto.
  - cbn [bind pure]. intros Hrun Hst.
    destruct (Htail _ _ _ (fun _ _ => eq_refl) Hrun Hst)
      as (dataResult & countResult & total & Htrace & Hdata & Hcount & Htotal & Hresp).
    exists [Connect], (startBuilding tableName), dataResult, countResult, total.
    split; [left; auto|]. cbn zeta. auto.
Qed.


Lemma searched_paramCount (tableName : string) (searched : Building) :
  (searched = startBuilding tableName \/
   exists search textColumns,
     searched = addSearch search textColumns (startBuilding tableName)) ->
  paramCount searched = length (queryParams searched).
Proof.
  intros [-> | (search & textColumns & ->)]; [reflexivity|].
  destruct (addSearch_params tableName search textColumns) as [-> ->].
  rewrite length_map. reflexivity.
Qed.

(** C6. In the list route an absent [page] is 1 and an absent [limit]
    is 100, and the decimal text of an integer up to 2^53 in magnitude
    is read as that integer. When page - 1 and (page - 1) x limit stay
    within 2^53 the offset is (page - 1) x limit, 20 for page 3 and
    limit 10. In a request answered with status 200 the data statement
    ends with the LIMIT and OFFSET placeholders, which number the last
    two parameters bound to it, the limit and the offset; the count
    statement is sent next with the parameters before these two;
    [totalRows] is read from the [count] of the first row it returns;
    and when that is below 2^53 in magnitude and the limit is not zero
    [totalPages] is the ceiling of totalRows / limit: the integer k with
    (k - 1) x limit < totalRows <= k x limit when the limit is positive. *)
Theorem pagination_arithmetic (env : ProcessEnv) (db : Oracle) (tableName : string)
    (q : ListQuery) (data : option (list Row)) (pg : Pagination) (trace : list DbOp) :
  let page := JsNum.parseIntOr 1 (q_page q) in
  let lim := JsNum.parseIntOr 100 (q_limit q) in
  let offset := offsetOf (q_page q) (q_limit q) in
  ((q_page q = None -> page = JsNum.Fin 1) /\
   (q_limit q = None -> lim = JsNum.Fin 100) /\
   (forall p, q_page q = Some (pretty p) -> (Z.abs p <= 2 ^ 53)%Z -> page = JsNum.Fin p) /\
   (forall l, q_limit q = Some (pretty l) -> (Z.abs l <= 2 ^ 53)%Z -> lim = JsNum.Fin l)) /\
  (forall p l,
     JsNum.value page = Some p -> JsNum.value lim = Some l ->
     (Z.abs (p - 1) <= 2 ^ 53)%Z -> (Z.abs ((p - 1) * l) <= 2 ^ 53)%Z ->
     JsNum.value offset = Some ((p - 1) * l)%Z) /\
  (q_page q = Some "3" -> q_limit q = Some "10" -> offset = JsNum.Fin 20) /\
  (run db (listRoute env tableName q) = (respond 200 (ListBody tableName data pg), trace) ->
   exists before text countText params countResult row rest,
     let dataStmt :=
       Query (text +:+ " LIMIT " +:+ placeholder (length params + 1)
              +:+ " OFFSET " +:+ placeholder (length params + 2))
             (Some (params ++ [PNum lim; PNum offset])%list) in
     let countStmt := Query countText (Some params) in
     trace = (before ++ [dataStmt; countStmt; End_])%list /\
     db (before ++ [dataStmt])%list countStmt = Resolved countResult /\
     rows countResult = Some (row :: rest) /\
     pg = {| currentPage := page; limit := lim;
             totalRows := JsNum.parseInt (ToString (field "count" row));
             totalPages :=
               JsNum.ceil_div (JsNum.parseInt (ToString (field "count" row))) lim |} /\
     forall n l,
       JsNum.value (totalRows pg) = Some n -> JsNum.value lim = Some l ->
       (Z.abs n < 2 ^ 53)%Z -> l <> 0%Z ->
       exists k,
         JsNum.value (totalPages pg) = Some k /\
         (0 < l -> (k - 1) * l < n <= k * l)%Z /\
         (l < 0 -> k * l <= n < (k - 1) * l)%Z).
Proof.
  intros page lim offset.
  split; [|split; [|split]].
  - subst page lim. repeat split.
    + intros ->. reflexivity.
    + intros ->. reflexivity.
    + intros p -> Hp. apply parseInt_pretty_exact. exact Hp.
    + intros l -> Hl. apply parseInt_pretty_exact. exact Hl.
  - intros p l Hp Hl Hp1 Hpl. subst offset. unfold offsetOf.
    apply mul_value; [|exact Hl | exact Hpl].
    apply sub_value; assumption.
  - intros Hp Hl. subst offset. rewrite Hp, Hl. reflexivity.
  - intros Hrun.
    destruct (listRoute_success env db tableName q _ _ Hrun eq_refl)
      as (before & searched & dataResult & countResult & total & Hsearched & Hrest).
    cbn zeta in Hrest.
    destruct Hrest as (Htrace & Hdata & Hcount & Htotal & Hresp).
    set (sorted := addSorting (q_sortBy q) (q_sortOrder q) searched) in *.
    destruct (addSorting_keeps (q_sortBy q) (q_sortOrder q) searched)
      as (Hparams & Hpc & _). fold sorted in Hparams, Hpc.
    assert (Hinv : paramCount sorted = length (queryParams sorted)).
    { rewrite Hparams, Hpc. apply (searched_paramCount tableName).
      destruct Hsearched as [(_ & _ & ->) | (_ & _ & _ & _ & textColumns & _ & _ & _ & ->)];
        [left; reflexivity | right; eauto]. }
    assert (Hbase : baseQuery (addPagination (q_page q) (q_limit q) sorted)
                    = baseQuery sorted +:+ " LIMIT "
                      +:+ placeholder (length (queryParams sorted) + 1)
                      +:+ " OFFSET " +:+ placeholder (length (queryParams sorted) + 2)).
    { cbn [addPagination baseQuery]. rewrite Hinv.
      replace (S (S (length (queryParams sorted)))) with (length (queryParams sorted) + 2)
        by lia.
      replace (S (length (queryParams sorted))) with (length (queryParams sorted) + 1)
        by lia.
      reflexivity. }
    assert (Hdp : dataParams (q_page q) (q_limit q)
                    (addPagination (q_page q) (q_limit q) sorted)
                  = (queryParams sorted ++ [PNum lim; PNum offset])%list).
    { unfold dataParams, addPagination. cbn [queryParams]. rewrite dropLast2_app.
      reflexivity. }
    assert (Hcp : countParams (addPagination (q_page q) (q_limit q) sorted)
                  = queryParams sorted).
    { unfold countParams, addPagination. cbn [queryParams]. apply dropLast2_app. }
    rewrite Hbase, Hdp, Hcp in Htrace, Hcount.
    unfold totalRowsOf, tbind, defined in Htotal.
    destruct (rows countResult) as [[|row rest]|] eqn:Hrows; try discriminate Htotal.
    cbn in Htotal. injection Htotal as Htotal.
    injection Hresp as _ Hpg.
    exists before, (baseQuery sorted),
           (countQuery (addPagination (q_page q) (q_limit q) sorted)),
           (queryParams sorted), countResult, row, rest.
    cbn zeta. split; [exact Htrace|]. split; [exact Hcount|]. split; [exact Hrows|].
    rewrite Hpg, <- Htotal. split; [reflexivity|].
    intros n l Hn Hl Hsafe Hl0. cbn [paginationOf totalRows totalPages] in *.
    exists (JsNum.cdiv n l). split.
    + apply ceil_div_value; try assumption.
      subst lim. destruct (q_limit q) as [s|]; cbn in Hl.
      * apply (parseInt_finite s). exact Hl.
      * injection Hl as <-. vm_compute. reflexivity.
    + apply cdiv_bounds. exact Hl0.
Qed.

End PaginationFacts.

(** ** The credential check *)

Lemma compare_units_eqb (a : string) :
  forall b i, fst (Auth.compare_units i a b) = String.eqb a b.
Proof.
  induction a as [|x a IH]; intros [|y b] i; simpl; try reflexivity.
  destruct (Ascii.eqb x y); [|reflexivity].
  specialize (IH b (S i)). destruct (Auth.compare_units (S i) a b). exact IH.
Qed.

Lemma strictEquals_traced_eqb (a b : string) :
  fst (Auth.strictEquals_traced a b) = String.eqb a b.
Proof.
  unfold Auth.strictEquals_traced.
  destruct (Nat.eqb_spec (String.length a) (String.length b)) as [_ | Hne].
  - apply compare_units_eqb.
  - simpl. symmetry. apply String.eqb_neq. intros ->. contradiction.
Qed.

(** The handler accepts exactly the configured pair. *)
Lemma credentialsMatch_spec (cfg : Auth.AuthConfig) (user pass : option string) :
  Auth.credentialsMatch cfg user pass = true <->
  user = Some (Auth.username cfg) /\ pass = Some (Auth.password cfg).
Proof.
  unfold Auth.credentialsMatch, Auth.credentialsMatch_traced, Auth.field_equals_traced.
  destruct user as [u|]; [|simpl; split; [discriminate | intros [? _]; discriminate]].
  pose proof (strictEquals_traced_eqb u (Auth.username cfg)) as Hu.
  destruct (Auth.strictEquals_traced u (Auth.username cfg)) as [r1 t1]. simpl in Hu. subst r1.
  destruct (String.eqb_spec u (Auth.username cfg)) as [-> | Hne].
  - destruct pass as [p|]; [|simpl; split; [discriminate | intros [_ ?]; discriminate]].
    pose proof (strictEquals_traced_eqb p (Auth.password cfg)) as Hp.
    destruct (Auth.strictEquals_traced p (Auth.password cfg)) as [r2 t2]. simpl in *. subst r2.
    rewrite String.eqb_eq. split; [intros ->; auto | intros [_ [= ->]]; reflexivity].
  - simpl. split; [discriminate | intros [[= ->] _]; contradiction].
Qed.

Lemma scan_all_positions (a : string) :
  forall b i, String.length a = String.length b ->
    snd (Auth.scan_all i a b) = seq i (String.length b).
Proof.
  induction a as [|x a IH]; intros [|y b] i Hlen; simpl in *; try discriminate; [reflexivity|].
  injection Hlen as Hlen. specialize (IH b (S i) Hlen).
  destruct (Auth.scan_all (S i) a b). simpl in *. now rewrite IH.
Qed.

(** What [crypto.timingSafeEqual] inspects depends on the lengths alone. *)
Lemma timingSafeEqual_constant_trace (a a' b : string) :
  String.length a = String.length a' ->
  option_map snd (Auth.timingSafeEqual a b) = option_map snd (Auth.timingSafeEqual a' b).
Proof.
  intros Hlen. unfold Auth.timingSafeEqual. rewrite <- Hlen.
  destruct (Nat.eqb_spec (String.length a) (String.length b)) as [Hab | _]; [|reflexivity].
  simpl. rewrite !scan_all_positions; [reflexivity | congruence | assumption].
Qed.

Lemma timingSafeEqual_trace (a b : string) (r : bool) (t : Auth.CmpTrace) :
  Auth.timingSafeEqual a b = Some (r, t) -> t = seq 0 (String.length a).
Proof.
  unfold Auth.timingSafeEqual.
  destruct (Nat.eqb_spec (String.length a) (String.length b)) as [Hab | _]; [|discriminate].
  intros [= Hscan]. rewrite Hab.
  rewrite <- (scan_all_positions a b 0 Hab), Hscan. reflexivity.
Qed.

(** So does [verifyPassword], whose digests all have one length: two
    passwords are checked against a stored hash by the same positions. *)
Lemma verifyPassword_constant_trace (hashPassword : string -> string -> string)
    (pass pass' hash salt : string) :
  String.length (Auth.bufferFromHex (hashPassword pass salt))
  = String.length (Auth.bufferFromHex (hashPassword pass' salt)) ->
  option_map snd (Auth.verifyPassword hashPassword pass hash salt)
  = option_map snd (Auth.verifyPassword hashPassword pass' hash salt).
Proof.
  intros Hlen. unfold Auth.verifyPassword, Auth.timingSafeEqual. rewrite <- Hlen.
  destruct (Nat.eqb_spec (String.length (Auth.bufferFromHex hash))
              (String.length (Auth.bufferFromHex (hashPassword pass salt)))) as [Hab | _];
    [|reflexivity].
  simpl. rewrite !scan_all_positions; [now rewrite Hlen | congruence | assumption].
Qed.

(** C1. The login handler does not compare the submitted password in
    constant time: it uses [===], and for the two submitted passwords
    below, of the same length as the stored one and both wrong, the
    comparison inspects one position when the first character differs
    and all twenty-five when only the last one does. *)
Theorem login_password_comparison_leaks_prefix :
  String.length "Xour_secure_password_here" = String.length "your_secure_password_herX" /\
  Auth.credentialsMatch Auth.defaultConfig (Some "admin") (Some "Xour_secure_password_here")
  = false /\
  Auth.credentialsMatch Auth.defaultConfig (Some "admin") (Some "your_secure_password_herX")
  = false /\
  Auth.passwordComparison Auth.defaultConfig (Some "admin") (Some "Xour_secure_password_here")
  = [0] /\
  Auth.passwordComparison Auth.defaultConfig (Some "admin") (Some "your_secure_password_herX")
  = seq 0 25.
Proof. repeat split; vm_compute; reflexivity. Qed.

(** ** The model at concrete inputs *)

Lemma table_name_guard_witness :
  exists resp,
    run Sample.emptyDb (handle Sample.production "users; drop table x" GetSchema) = (resp, [])
    /\ status resp = 400.
Proof.
  apply (proj1 (proj2 (table_name_guard (H := Sample.runtime) Sample.production
                         Sample.emptyDb "users; drop table x" GetSchema))).
  reflexivity.
Defined.

Lemma validateSession_spec_witness :
  Auth.validateSession Auth.defaultConfig (1000 + 1800000 + 1) 0 "tok"
    (<["tok" := Auth.touch 1000 Sample.session0]> Sample.registry0)
  = (None, delete "tok" Sample.registry0).
Proof.
  destruct (validateSession_spec Auth.defaultConfig Sample.registry0 "tok" 1000 1000)
    as (_ & _ & _ & Hrefresh).
  assert (Hlook : Sample.registry0 !! "tok" = Some Sample.session0) by reflexivity.
  assert (Hidle : (1000 - Auth.lastActivity Sample.session0
                   <= Auth.sessionTimeout Auth.defaultConfig)%Z) by (simpl; lia).
  destruct (Hrefresh Sample.session0 Hlook eq_refl Hidle) as (_ & _ & Hlater).
  assert (Heps : (0 < 1)%Z) by lia.
  exact (proj2 (Hlater 1%Z 0%Z Heps)).
Defined.

Lemma login_throttle_witness :
  isTooMany
    (fst (Auth.login Auth.defaultConfig (fst Sample.sixthRight) (snd Sample.sixthRight)
            (snd (Auth.loginMany Auth.defaultConfig Sample.fiveWrong Sample.freshState))))
  = true.
Proof.
  destruct (login_throttle Auth.defaultConfig (fst Sample.sixthRight) (snd Sample.sixthRight)
              (snd (Auth.loginMany Auth.defaultConfig Sample.fiveWrong Sample.freshState)))
    as (_ & _ & Hfive & _).
  apply (Hfive Sample.freshState Sample.fiveWrong
           (fst (Auth.loginMany Auth.defaultConfig Sample.fiveWrong Sample.freshState))).
  - reflexivity.
  - apply surjective_pairing.
  - repeat constructor.
  - vm_compute. reflexivity.
  - simpl. repeat split; vm_compute; discriminate.
Defined.

(** The window does not start at the first failure. After failures at
    minutes 0, 4, 8, 12 and 16 the handler holds the count 5 and turns
    away the right password at minute 17, although at minute 16 more
    than a window had passed since the failure that opened the count. A
    throttle whose window starts with the first failure and restarts
    only once it has expired holds the count 1 then, and lets the
    attempt at minute 17 pass. *)
Lemma login_throttle_fixed_window_fails :
  let ip := "10.0.0.7" in
  let wrong := [Sample.attemptAt 0 "a"; Sample.attemptAt 4 "b"; Sample.attemptAt 8 "c";
                Sample.attemptAt 12 "d"; Sample.attemptAt 16 "e"] in
  let right := Sample.attemptAt 17 "your_secure_password_here" in
  let st := snd (Auth.loginMany Auth.defaultConfig wrong Sample.freshState) in
  let entries := ThrottleSpec.wrongAttempts (map clockOf wrong) ip ∅ in
  forallb isFailure (fst (Auth.loginMany Auth.defaultConfig wrong Sample.freshState)) = true /\
  Auth.loginAttempts st !! ip
  = Some {| Auth.count := 5; Auth.lastAttempt := 16 * 60000 |} /\
  (16 * 60000 - 0 > Auth.window)%Z /\
  isTooMany (fst (Auth.login Auth.defaultConfig (fst right) (snd right) st)) = true /\
  entries !! ip
  = Some {| ThrottleSpec.failCount := 1; ThrottleSpec.windowStart := 16 * 60000 |} /\
  fst (ThrottleSpec.attempt (clockOf right) ip true entries) = ThrottleSpec.Accepted.
Proof.
  cbn zeta. repeat split; vm_compute; reflexivity.
Defined.



Lemma pagination_arithmetic_witness :
  exists k,
    JsNum.value
      (totalPages {| currentPage := JsNum.Fin 3; limit := JsNum.Fin 10;
                     totalRows := JsNum.Fin 25; totalPages := JsNum.Fin 3 |})
    = Some k /\
    ((k - 1) * 10 < 25 <= k * 10)%Z.
Proof.
  destruct (pagination_arithmetic (H := Sample.runtime) Sample.production
              Sample.countingDb "users" Sample.page3of10 (Some [])
              {| currentPage := JsNum.Fin 3; limit := JsNum.Fin 10;
                 totalRows := JsNum.Fin 25; totalPages := JsNum.Fin 3 |}
              [Connect;
               Query ("SELECT * FROM " +:+ quoted "users" +:+ " LIMIT $1 OFFSET $2")
                     (Some [PNum (JsNum.Fin 10); PNum (JsNum.Fin 20)]);
               Query ("SELECT COUNT(*) FROM " +:+ quoted "users") (Some []);
               End_]) as (_ & _ & _ & Hroute).
  assert (Hrun : run Sample.countingDb
                   (listRoute Sample.production "users" Sample.page3of10)
                 = (respond 200
                      (ListBody "users" (Some [])
                         {| currentPage := JsNum.Fin 3; limit := JsNum.Fin 10;
                            totalRows := JsNum.Fin 25; totalPages := JsNum.Fin 3 |}),
                    [Connect;
                     Query ("SELECT * FROM " +:+ quoted "users" +:+ " LIMIT $1 OFFSET $2")
                           (Some [PNum (JsNum.Fin 10); PNum (JsNum.Fin 20)]);
                     Query ("SELECT COUNT(*) FROM " +:+ quoted "users") (Some []);
                     End_])) by (vm_compute; reflexivity).
  destruct (Hroute Hrun) as (_ & _ & _ & _ & _ & _ & _ & _ & _ & _ & _ & Hpages).
  assert (Hsafe : (Z.abs 25 < 2 ^ 53)%Z) by (vm_compute; reflexivity).
  assert (Hne : (10 <> 0)%Z) by lia.
  destruct (Hpages 25%Z 10%Z eq_refl eq_refl Hsafe Hne) as (k & Hk & Hpos & _).
  exists k. split; [exact Hk | apply Hpos; lia].
Defined.

(** Beyond 2^53 the offset is not the product. For page 94906268 and
    limit 94906267 both texts are read as the integers they write, and
    (page - 1) x limit is 9007199515875289; the offset bound to the data
    statement is the nearest double, 9007199515875288. *)
Lemma pagination_offset_rounded :
  let q := {| q_page := Some "94906268"; q_limit := Some "94906267";
              q_search := None; q_sortBy := None; q_sortOrder := None |} in
  JsNum.parseIntOr 1 (q_page q) = JsNum.Fin 94906268 /\
  JsNum.parseIntOr 100 (q_limit q) = JsNum.Fin 94906267 /\
  ((94906268 - 1) * 94906267 = 9007199515875289)%Z /\
  snd (run Sample.countingDb (listRoute Sample.production "users" q))
  = [Connect;
     Query ("SELECT * FROM " +:+ quoted "users" +:+ " LIMIT $1 OFFSET $2")
           (Some [PNum (JsNum.Fin 94906267); PNum (JsNum.Fin 9007199515875288)]);
     Query ("SELECT COUNT(*) FROM " +:+ quoted "users") (Some []);
     End_] /\
  JsNum.value (offsetOf (q_page q) (q_limit q))
  <> Some ((94906268 - 1) * 94906267)%Z.
Proof.
  cbn zeta. split; [vm_compute; reflexivity|]. split; [vm_compute; reflexivity|].
  split; [reflexivity|]. split; [vm_compute; reflexivity|].
  intros Hoff. vm_compute in Hoff. discriminate Hoff.
Defined.

Lemma mutation_without_key_or_row_witness :
  run Sample.keyedEmptyDb (handle Sample.production "users" (DeleteData "42"))
  = (notFoundResponse,
     [Connect; pkLookup "users";
      Query (deleteSql "users" "id") (Some [PStr "42"]); End_])
  /\ status (H := Sample.runtime) notFoundResponse = 404.
Proof.
  assert (Hne : [[("column_name", VStr (H := Sample.runtime) "id")]] <> []) by discriminate.
  refine (proj2 (mutation_without_key_or_row (H := Sample.runtime) Sample.production
                   Sample.keyedEmptyDb "users" (DeleteData "42")
                   (Sample.resultOf [[("column_name", VStr "id")]])
                   [[("column_name", VStr "id")]]
                   (Query (deleteSql "users" "id") (Some [PStr "42"]))
                   _ _ _ _ _) Hne Sample.emptyResult _ _).
  - reflexivity.
  - exists Sample.emptyResult. reflexivity.
  - reflexivity.
  - reflexivity.
  - reflexivity.
  - reflexivity.
  - reflexivity.
Defined.

Lemma run_query_warnings_advisory_witness :
  In destructiveWarning (scanWarnings "DROP TABLE users") /\
  snd (run Sample.emptyDb (runQueryRoute 0 5 (Some "DROP TABLE users")))
  = [Connect; Query "DROP TABLE users" None; End_] /\
  warningsOf (body (fst (run Sample.emptyDb (runQueryRoute 0 5 (Some "DROP TABLE users")))))
  = Some [destructiveWarning].
Proof.
  assert (Htext : "DROP TABLE users" <> "") by discriminate.
  destruct (run_query_warnings_advisory (H := Sample.runtime) 0 5 "DROP TABLE users"
              Sample.emptyDb Htext) as (Hdrop & _ & _ & Hrun).
  split; [|split].
  - apply Hdrop. left. exists "", " users". reflexivity.
  - rewrite Hrun. reflexivity.
  - rewrite Hrun. vm_compute. reflexivity.
Defined.

Lemma export_of_empty_table_witness :
  run Sample.emptyDb (exportRoute Sample.production "users" None)
  = ({| status := 200; headers := csvHeaders "users"; body := CsvBody "" |},
     [Connect; Query (exportSql "users") None; End_]).
Proof.
  refine (proj1 (export_of_empty_table (H := Sample.runtime) Sample.production
                   Sample.emptyDb "users" None Sample.emptyResult _ _ _ _ _)).
  - reflexivity.
  - left. reflexivity.
  - exists Sample.emptyResult. reflexivity.
  - reflexivity.
  - reflexivity.
Defined.

Lemma handleDatabaseError_payload_witness :
  exists msg details,
    body (handleDatabaseError (H := Sample.runtime) Sample.production
            {| err_code := Some "57014"; err_message := "canceling statement" |})
    = DbErrorBody msg details (Some "57014") /\
    details = None /\
    msg = Message "Database operation failed".
Proof.
  destruct (handleDatabaseError_payload (H := Sample.runtime) Sample.production
              {| err_code := Some "57014"; err_message := "canceling statement" |})
    as (_ & msg & details & Hbody & _ & Hprod & _ & Hgeneric).
  exists msg, details. split; [exact Hbody|]. split.
  - apply Hprod. discriminate.
  - apply Hgeneric; [reflexivity|].
    simpl. intros Hin. repeat (destruct Hin as [Hin | Hin]; [discriminate Hin|]).
    exact Hin.
Defined.

(** ** The specification's examples, run *)

(** The export of the single row [{id: 1, name: O'Brien, A}]. *)
Lemma export_example :
  csvOf [Sample.obrien]
  = "id,name" +:+ nl +:+ quoted "1" +:+ "," +:+ quoted "O'Brien, A" +:+ nl.
Proof. vm_compute. reflexivity. Qed.

(** A value with a quote inside: the quote is doubled. *)
Lemma export_quote_example :
  csvField (H := Sample.runtime) (VStr ("say " +:+ dq +:+ "hi" +:+ dq))
  = dq +:+ "say " +:+ dq +:+ dq +:+ "hi" +:+ dq +:+ dq +:+ dq.
Proof. vm_compute. reflexivity. Qed.

(** Page 3 with limit 10 over 25 rows. *)
Lemma list_example :
  run Sample.countingDb (listRoute Sample.production "users" Sample.page3of10)
  = (respond 200
       (ListBody "users" (Some [])
          {| currentPage := JsNum.Fin 3; limit := JsNum.Fin 10;
             totalRows := JsNum.Fin 25; totalPages := JsNum.Fin 3 |}),
     [Connect;
      Query ("SELECT * FROM " +:+ quoted "users" +:+ " LIMIT $1 OFFSET $2")
            (Some [PNum (JsNum.Fin 10); PNum (JsNum.Fin 20)]);
      Query ("SELECT COUNT(*) FROM " +:+ quoted "users") (Some []);
      End_]).
Proof. vm_compute. reflexivity. Qed.

(** Numbers at the edges: a text beyond 2^53 is read as the nearest
    double, a product beyond 2^53 is rounded, a no-break space before
    the digits is skipped, and a limit of minus zero gives minus
    infinity pages. *)
Lemma rounding_examples :
  JsNum.parseInt "9007199254740993" = JsNum.Fin 9007199254740992 /\
  offsetOf (Some "94906268") (Some "94906267") = JsNum.Fin 9007199515875288 /\
  JsNum.parseInt (String (ascii_of_nat 160) "5") = JsNum.Fin 5 /\
  JsNum.parseInt "-0" = JsNum.NegZero /\
  JsNum.ceil_div (JsNum.Fin 4) (JsNum.parseInt "-0") = JsNum.NegInf /\
  JsNum.ceil_div (JsNum.Fin 4) (JsNum.parseInt "0") = JsNum.PosInf /\
  JsNum.ceil_div (JsNum.Fin 5) (JsNum.Fin (-10)) = JsNum.NegZero.
Proof. repeat split; vm_compute; reflexivity. Qed.

(** The identifier examples of the specification. *)
Lemma identifier_examples :
  invalidTableName "users; drop table x" = true /\ invalidTableName "users" = false.
Proof. split; reflexivity. Qed.

(** The stored time is that of the last recorded failure: failures at
    minutes 0, 4, 8, 12 and 16 keep the count running, and the client is
    blocked at minute 17. *)
Lemma throttle_window_slides :
  isTooMany
    (fst (Auth.login Auth.defaultConfig (fst (Sample.attemptAt 17 "your_secure_password_here"))
            (snd (Sample.attemptAt 17 "your_secure_password_here"))
            (snd (Auth.loginMany Auth.defaultConfig
                    [Sample.attemptAt 0 "a"; Sample.attemptAt 4 "b"; Sample.attemptAt 8 "c";
                     Sample.attemptAt 12 "d"; Sample.attemptAt 16 "e"]
                    Sample.freshState))))
  = true.
Proof. vm_compute. reflexivity. Qed.

(** A code that names a member of [Object.prototype] finds that member,
    not a message. *)
Lemma inherited_member_example :
  userFriendlyMessage (Some "constructor") = InheritedMember "constructor".
Proof. reflexivity. Qed.

(** * Further properties of [src/middleware/auth.js] *)

(** ** The session registry *)

Lemma createSession_lookup_new (cfg : Auth.AuthConfig) (sessionId : string)
    (tCreated tActivity tSweep : Z) (user : string) (sessions : gmap string Auth.Session) :
  (tSweep - tActivity <= Auth.sessionTimeout cfg)%Z ->
  snd (Auth.createSession cfg sessionId tCreated tActivity tSweep user sessions) !! sessionId
  = Some {| Auth.id := sessionId; Auth.userId := user; Auth.createdAt := tCreated;
            Auth.lastActivity := tActivity; Auth.isValid := true |}.
Proof.
  intros Hsweep. unfold Auth.createSession, Auth.cleanupExpiredSessions. simpl.
  apply map_lookup_filter_Some. split; [apply lookup_insert_eq|].
  simpl. apply expired_false. exact Hsweep.
Qed.

(** X1. After [createSession] the registry holds, among the new session and
    the sessions stored before under other ids, exactly those not yet
    expired at the sweep, each unchanged; a session stored before under
    the new id is replaced. *)
Theorem createSession_registry (cfg : Auth.AuthConfig) (sessionId : string)
    (tCreated tActivity tSweep : Z) (user : string)
    (sessions : gmap string Auth.Session) (k : string) (s : Auth.Session) :
  snd (Auth.createSession cfg sessionId tCreated tActivity tSweep user sessions) !! k = Some s
  <->
  (tSweep - Auth.lastActivity s <= Auth.sessionTimeout cfg)%Z /\
  ((k = sessionId /\
    s = {| Auth.id := sessionId; Auth.userId := user; Auth.createdAt := tCreated;
           Auth.lastActivity := tActivity; Auth.isValid := true |}) \/
   (k <> sessionId /\ sessions !! k = Some s)).
Proof.
  unfold Auth.createSession, Auth.cleanupExpiredSessions. simpl.
  rewrite map_lookup_filter_Some. simpl. rewrite expired_false.
  destruct (decide (k = sessionId)) as [-> | Hne].
  - rewrite lookup_insert_eq. split.
    + intros [[= <-] Hidle]. split; [exact Hidle | left; auto].
    + intros [Hidle [[_ ->] | [Hne _]]]; [split; [reflexivity | exact Hidle] | congruence].
  - rewrite lookup_insert_ne by congruence. split.
    + intros [Hs Hidle]. split; [exact Hidle | right; auto].
    + intros [Hidle [[Heq _] | [_ Hs]]]; [congruence | split; assumption].
Qed.

(** X2. A session that was just created validates, and the session returned
    carries the user it was created for; this needs the sweep and the
    validation to come within the timeout of the creation. *)
Theorem createSession_then_validate (cfg : Auth.AuthConfig) (sessionId : string)
    (tCreated tActivity tSweep tCheck tTouch : Z) (user : string)
    (sessions : gmap string Auth.Session) :
  (tSweep - tActivity <= Auth.sessionTimeout cfg)%Z ->
  (tCheck - tActivity <= Auth.sessionTimeout cfg)%Z ->
  fst (Auth.validateSession cfg tCheck tTouch sessionId
         (snd (Auth.createSession cfg sessionId tCreated tActivity tSweep user sessions)))
  = Some {| Auth.id := sessionId; Auth.userId := user; Auth.createdAt := tCreated;
            Auth.lastActivity := tTouch; Auth.isValid := true |}.
Proof.
  intros Hsweep Hcheck.
  set (new := {| Auth.id := sessionId; Auth.userId := user; Auth.createdAt := tCreated;
                 Auth.lastActivity := tActivity; Auth.isValid := true |}).
  assert (Hlook : snd (Auth.createSession cfg sessionId tCreated tActivity tSweep user sessions)
                  !! sessionId = Some new).
  { apply createSession_lookup_new. exact Hsweep. }
  unfold Auth.validateSession. rewrite Hlook. simpl.
  assert (E : Auth.expired cfg tCheck new = false) by (apply expired_false; exact Hcheck).
  rewrite E. reflexivity.
Qed.

Lemma createSession_then_validate_witness :
  fst (Auth.validateSession Auth.defaultConfig 60000 60000 "tok"
         (snd (Auth.createSession Auth.defaultConfig "tok" 0 0 0 "admin" ∅)))
  = Some {| Auth.id := "tok"; Auth.userId := "admin"; Auth.createdAt := 0;
            Auth.lastActivity := 60000; Auth.isValid := true |}.
Proof.
  apply (createSession_then_validate Auth.defaultConfig "tok" 0 0 0 60000 60000 "admin" ∅);
    simpl; lia.
Defined.

(** X3. Validating one token leaves every other token's session as it was,
    and never brings a token into the registry. *)
Theorem validateSession_frame (cfg : Auth.AuthConfig) (tCheck tTouch : Z)
    (token other : string) (sessions : gmap string Auth.Session) :
  (other <> token ->
   snd (Auth.validateSession cfg tCheck tTouch token sessions) !! other = sessions !! other) /\
  (sessions !! other = None ->
   snd (Auth.validateSession cfg tCheck tTouch token sessions) !! other = None).
Proof.
  unfold Auth.validateSession.
  destruct (sessions !! token) as [s|] eqn:Hs; [|split; auto].
  destruct (Auth.isValid s); simpl; [|split; auto].
  destruct (Auth.expired cfg tCheck s); simpl; split.
  - intros Hne. apply lookup_delete_ne. congruence.
  - intros Hnone. destruct (decide (token = other)) as [-> | Hne];
      [apply lookup_delete_eq | rewrite lookup_delete_ne by exact Hne; exact Hnone].
  - intros Hne. apply lookup_insert_ne. congruence.
  - intros Hnone. destruct (decide (token = other)) as [-> | Hne];
      [congruence | rewrite lookup_insert_ne by exact Hne; exact Hnone].
Qed.

Lemma validateSession_frame_witness :
  snd (Auth.validateSession Auth.defaultConfig 5 5 "tok" Sample.registry0) !! "other" = None.
Proof.
  apply (proj2 (validateSession_frame Auth.defaultConfig 5 5 "tok" "other" Sample.registry0)).
  reflexivity.
Defined.

(** X4. A destroyed token no longer validates, destroying it again changes
    nothing, and every other token validates as before. *)
Theorem destroySession_effect (cfg : Auth.AuthConfig) (tCheck tTouch : Z)
    (token other : string) (sessions : gmap string Auth.Session) :
  fst (Auth.validateSession cfg tCheck tTouch token (Auth.destroySession token sessions)) = None /\
  Auth.destroySession token (Auth.destroySession token sessions)
  = Auth.destroySession token sessions /\
  (other <> token ->
   fst (Auth.validateSession cfg tCheck tTouch other (Auth.destroySession token sessions))
   = fst (Auth.validateSession cfg tCheck tTouch other sessions)).
Proof.
  unfold Auth.destroySession, Auth.validateSession. split; [|split].
  - rewrite lookup_delete_eq. reflexivity.
  - apply delete_delete_eq.
  - intros Hne. rewrite lookup_delete_ne by congruence.
    destruct (sessions !! other) as [s|]; [|reflexivity].
    destruct (Auth.isValid s); simpl; [|reflexivity].
    destruct (Auth.expired cfg tCheck s); reflexivity.
Qed.

Lemma destroySession_effect_witness :
  fst (Auth.validateSession Auth.defaultConfig 5 5 "tok"
         (Auth.destroySession "other" Sample.registry0))
  = fst (Auth.validateSession Auth.defaultConfig 5 5 "tok" Sample.registry0).
Proof.
  apply (proj2 (proj2 (destroySession_effect Auth.defaultConfig 5 5 "other" "tok"
                         Sample.registry0))).
  discriminate.
Defined.

(** X5. The registry stays well formed: every operation of the module keeps
    each session filed under its own id and marked valid, the flag
    [isValid] being set at creation and never cleared. So a token of a
    well-formed registry is refused only when it is unknown or its
    session has been idle beyond the timeout. *)
Theorem registry_stays_well_formed (cfg : Auth.AuthConfig) (sessions : gmap string Auth.Session)
    (sessionId user token : string) (tCreated tActivity tSweep tCheck tTouch : Z) :
  wellFormed ∅ /\
  (wellFormed sessions ->
   wellFormed (snd (Auth.createSession cfg sessionId tCreated tActivity tSweep user sessions)) /\
   wellFormed (snd (Auth.validateSession cfg tCheck tTouch token sessions)) /\
   wellFormed (Auth.destroySession token sessions) /\
   wellFormed (Auth.cleanupExpiredSessions cfg tSweep sessions) /\
   (fst (Auth.validateSession cfg tCheck tTouch token sessions) = None <->
    sessions !! token = None \/
    exists s, sessions !! token = Some s /\
              (tCheck - Auth.lastActivity s > Auth.sessionTimeout cfg)%Z)).
Proof.
  split; [intros k s Hk; rewrite lookup_empty in Hk; discriminate|].
  intros Hwf. split; [|split; [|split; [|split]]].
  - intros k s Hk. unfold Auth.createSession, Auth.cleanupExpiredSessions in Hk. simpl in Hk.
    apply map_lookup_filter_Some in Hk as [Hk _].
    destruct (decide (k = sessionId)) as [-> | Hne].
    + rewrite lookup_insert_eq in Hk. injection Hk as <-. split; reflexivity.
    + rewrite lookup_insert_ne in Hk by congruence. apply Hwf. exact Hk.
  - intros k s. unfold Auth.validateSession.
    destruct (sessions !! token) as [s0|] eqn:Hs0; [|apply Hwf].
    destruct (Auth.isValid s0) eqn:Hv; simpl; [|apply Hwf].
    destruct (Auth.expired cfg tCheck s0); simpl.
    + intros Hk. apply lookup_delete_Some in Hk as [_ Hk]. apply Hwf. exact Hk.
    + destruct (decide (k = token)) as [-> | Hne].
      * rewrite lookup_insert_eq. intros [= <-]. simpl.
        destruct (Hwf token s0 Hs0) as [Hid _]. split; [exact Hid | exact Hv].
      * rewrite lookup_insert_ne by congruence. apply Hwf.
  - intros k s Hk. unfold Auth.destroySession in Hk.
    apply lookup_delete_Some in Hk as [_ Hk]. apply Hwf. exact Hk.
  - intros k s Hk. unfold Auth.cleanupExpiredSessions in Hk.
    apply map_lookup_filter_Some in Hk as [Hk _]. apply Hwf. exact Hk.
  - unfold Auth.validateSession.
    destruct (sessions !! token) as [s0|] eqn:Hs0.
    2:{ simpl. split; [intros _; left; reflexivity | reflexivity]. }
    destruct (Hwf token s0 Hs0) as [_ Hv]. rewrite Hv. simpl.
    destruct (Auth.expired cfg tCheck s0) eqn:He; simpl.
    + split; [|reflexivity]. intros _. right. exists s0. split; [reflexivity|].
      apply expired_true. exact He.
    + split; [discriminate|]. intros [Hnone | [s [Hs Hidle]]]; [discriminate|].
      injection Hs as <-. apply expired_true in Hidle. congruence.
Qed.

Lemma registry_stays_well_formed_witness :
  wellFormed (snd (Auth.createSession Auth.defaultConfig "tok" 0 0 0 "admin" ∅)).
Proof.
  pose proof (registry_stays_well_formed Auth.defaultConfig ∅ "tok" "admin" "tok"
                0 0 0 0 0) as [Hempty Hkept].
  exact (proj1 (Hkept Hempty)).
Defined.

(** ** The gate *)

Lemma requireAuth_next_intro (cfg : Auth.AuthConfig) (tCheck tTouch : Z)
    (req : Gate.Request) (sessions : gmap string Auth.Session)
    (sessionId : string) (s : Auth.Session) :
  Gate.db_session req = Some sessionId -> sessionId <> "" ->
  sessions !! sessionId = Some s -> Auth.isValid s = true ->
  (tCheck - Auth.lastActivity s <= Auth.sessionTimeout cfg)%Z ->
  fst (Gate.requireAuth cfg tCheck tTouch req sessions)
  = Gate.Next (Auth.userId s) sessionId.
Proof.
  intros Hcookie Hne Hs Hv Hidle. unfold Gate.requireAuth. rewrite Hcookie.
  destruct sessionId as [|c sid]; [congruence|]. cbn [falsy_string].
  unfold Auth.validateSession. rewrite Hs, Hv. simpl.
  apply expired_false in Hidle. rewrite Hidle. reflexivity.
Qed.

Lemma requireAuth_next_cookie (cfg : Auth.AuthConfig) (tCheck tTouch : Z)
    (req : Gate.Request) (sessions : gmap string Auth.Session) (user sessionId : string) :
  fst (Gate.requireAuth cfg tCheck tTouch req sessions) = Gate.Next user sessionId ->
  Gate.db_session req = Some sessionId /\ sessionId <> "".
Proof.
  unfold Gate.requireAuth.
  destruct (Gate.db_session req) as [sid|]; [|discriminate].
  destruct sid as [|c sid]; [discriminate|]. cbn [falsy_string].
  destruct (Auth.validateSession cfg tCheck tTouch (String c sid) sessions) as [[s|] m];
    simpl; [|discriminate].
  intros [= _ <-]. split; [reflexivity | discriminate].
Qed.

(** X6. [requireAuth] calls [next] exactly when the cookie holds a non-empty
    token of a session that is marked valid and not idle beyond the
    timeout, and the user it attaches is that session's. When it answers
    itself, the answer is [redirectToLogin]'s and the cookie is cleared
    exactly when a non-empty one was sent. *)
Theorem requireAuth_outcome (cfg : Auth.AuthConfig) (tCheck tTouch : Z)
    (req : Gate.Request) (sessions : gmap string Auth.Session) :
  (forall user sessionId,
     fst (Gate.requireAuth cfg tCheck tTouch req sessions) = Gate.Next user sessionId <->
     Gate.db_session req = Some sessionId /\ sessionId <> "" /\
     exists s, sessions !! sessionId = Some s /\ Auth.isValid s = true /\
               (tCheck - Auth.lastActivity s <= Auth.sessionTimeout cfg)%Z /\
               user = Auth.userId s) /\
  (forall answer cleared,
     fst (Gate.requireAuth cfg tCheck tTouch req sessions) = Gate.Denied answer cleared ->
     answer = Gate.redirectToLogin req /\
     (cleared = true <-> exists sessionId, Gate.db_session req = Some sessionId /\ sessionId <> "")).
Proof.
  unfold Gate.requireAuth.
  destruct (Gate.db_session req) as [sid|] eqn:Hcookie.
  2:{ split.
      - intros user sessionId. simpl. split; [discriminate | intros [Hc _]; discriminate].
      - intros answer cleared [= <- <-]. split; [reflexivity|].
        split; [discriminate | intros [x [Hx _]]; discriminate]. }
  destruct sid as [|c sid'].
  { simpl. split.
    - intros user sessionId. split; [discriminate | intros [[= <-] [Hne _]]; congruence].
    - intros answer cleared [= <- <-]. split; [reflexivity|].
      split; [discriminate | intros [x [[= <-] Hx]]; congruence]. }
  cbn [falsy_string]. set (sid := String c sid').
  unfold Auth.validateSession.
  destruct (sessions !! sid) as [s|] eqn:Hs.
  2:{ simpl. split.
      - intros user sessionId. split; [discriminate|].
        intros [[= <-] [_ [s [Hs' _]]]]. fold sid in Hs'. congruence.
      - intros answer cleared [= <- <-]. split; [reflexivity|].
        split; [intros _; exists sid; split; [reflexivity | discriminate] | reflexivity]. }
  destruct (Auth.isValid s) eqn:Hv; simpl.
  2:{ split.
      - intros user sessionId. split; [discriminate|].
        intros [[= <-] [_ [s' [Hs' [Hv' _]]]]]. fold sid in Hs'. congruence.
      - intros answer cleared [= <- <-]. split; [reflexivity|].
        split; [intros _; exists sid; split; [reflexivity | discriminate] | reflexivity]. }
  destruct (Auth.expired cfg tCheck s) eqn:He; simpl.
  - split.
    + intros user sessionId. split; [discriminate|].
      intros [[= <-] [_ [s' [Hs' [_ [Hidle _]]]]]]. fold sid in Hs'.
      assert (s' = s) by congruence. subst s'.
      apply expired_false in Hidle. congruence.
    + intros answer cleared [= <- <-]. split; [reflexivity|].
      split; [intros _; exists sid; split; [reflexivity | discriminate] | reflexivity].
  - split.
    + intros user sessionId. split.
      * intros [= <- <-]. split; [reflexivity|]. split; [discriminate|].
        exists s. repeat split; try assumption. apply expired_false. exact He.
      * intros [[= <-] [_ [s' [Hs' [_ [_ ->]]]]]]. fold sid in Hs'.
        assert (s' = s) by congruence. subst s'. reflexivity.
    + intros answer cleared Hd. discriminate Hd.
Qed.

Lemma requireAuth_outcome_witness :
  exists answer,
    fst (Gate.requireAuth Auth.defaultConfig 5 5
           {| Gate.db_session := Some "stale"; Gate.path := "/tables";
              Gate.accept := Some "text/html"; Gate.originalUrl := "/api/db/tables" |}
           Sample.registry0)
    = Gate.Denied answer true /\ answer = Gate.RedirectLogin "/api/db/tables".
Proof.
  set (req := {| Gate.db_session := Some "stale"; Gate.path := "/tables";
                 Gate.accept := Some "text/html"; Gate.originalUrl := "/api/db/tables" |}).
  destruct (requireAuth_outcome Auth.defaultConfig 5 5 req Sample.registry0) as [_ Hdenied].
  exists (Gate.RedirectLogin "/api/db/tables"). split; [reflexivity|].
  destruct (Hdenied (Gate.RedirectLogin "/api/db/tables") true eq_refl) as [Hanswer _].
  exact Hanswer.
Defined.

(** ** The login handler *)

(** X7. A login succeeds exactly when the client is not blocked and the
    submitted pair is the configured one; it then sets the cookie to the
    fresh session id with the session timeout as its age and redirects
    to the requested target. In every other case the session registry
    is left as it was. *)
Theorem login_success_iff (cfg : Auth.AuthConfig) (env : Auth.LoginEnv)
    (req : Auth.LoginRequest) (st : Auth.AuthState) :
  let entry := Auth.attemptsOf (Auth.clientIP req) (Auth.loginAttempts st) in
  let blocked := 5 <= Auth.count entry /\
                 (Auth.now env - Auth.lastAttempt entry <= Auth.window)%Z in
  (isSuccess (fst (Auth.login cfg env req st)) = true <->
     ~ blocked /\ Auth.body_username req = Some (Auth.username cfg) /\
     Auth.body_password req = Some (Auth.password cfg)) /\
  (isSuccess (fst (Auth.login cfg env req st)) = true ->
     fst (Auth.login cfg env req st)
     = Auth.RedirectWithCookie (Auth.freshSessionId env) (Auth.sessionTimeout cfg)
         (default "/api/db" (Auth.body_redirect req))) /\
  (isSuccess (fst (Auth.login cfg env req st)) = false ->
     Auth.sessions (snd (Auth.login cfg env req st)) = Auth.sessions st).
Proof.
  intros entry blocked.
  pose proof (login_blocked_iff cfg env req st) as Hb. simpl in Hb. fold entry in Hb.
  pose proof (credentialsMatch_spec cfg (Auth.body_username req) (Auth.body_password req))
    as Hc.
  revert Hb. unfold Auth.login. fold entry.
  destruct (Auth.maxAttempts <=? Auth.count (Auth.afterReset (Auth.now env) entry))%nat;
    simpl; intros Hb.
  - split; [|split]; try discriminate; try reflexivity.
    split; [discriminate|]. intros [Hnb _]. exfalso. apply Hnb. apply Hb. reflexivity.
  - assert (Hnb : ~ blocked).
    { intros Hbl. apply Hb in Hbl.
      destruct (Auth.credentialsMatch cfg _ _); simpl in Hbl; discriminate Hbl. }
    destruct (Auth.credentialsMatch cfg (Auth.body_username req) (Auth.body_password req));
      simpl.
    + split; [|split]; try discriminate; try reflexivity.
      split; [intros _; split; [exact Hnb | apply Hc; reflexivity] | reflexivity].
    + split; [|split]; try discriminate; try reflexivity.
      split; [discriminate|]. intros [_ Hcred]. apply Hc in Hcred. discriminate Hcred.
Qed.

Lemma login_success_iff_witness :
  Auth.sessions
    (snd (Auth.login Auth.defaultConfig (fst (Sample.attemptAt 1 "a"))
            (snd (Sample.attemptAt 1 "a")) Sample.freshState))
  = Auth.sessions Sample.freshState.
Proof.
  apply (proj2 (proj2 (login_success_iff Auth.defaultConfig (fst (Sample.attemptAt 1 "a"))
                         (snd (Sample.attemptAt 1 "a")) Sample.freshState))).
  reflexivity.
Defined.

Lemma storeReset_within (t : Z) (ip : string) (la : gmap string Auth.Attempts) :
  (t - Auth.lastAttempt (Auth.attemptsOf ip la) <= Auth.window)%Z ->
  Auth.storeReset t ip la = la.
Proof.
  unfold Auth.storeReset, Auth.attemptsOf.
  destruct (la !! ip) as [a|] eqn:Ha; [|reflexivity].
  simpl. intros Hw. rewrite (afterReset_within _ _ Hw). apply insert_id. exact Ha.
Qed.

(** X8. A blocked attempt changes nothing: neither the count nor the stored
    time moves, so the block ends one window after the last recorded
    failure however often the client retries meanwhile. *)
Theorem blocked_login_changes_nothing (cfg : Auth.AuthConfig) (env : Auth.LoginEnv)
    (req : Auth.LoginRequest) (st : Auth.AuthState) :
  isTooMany (fst (Auth.login cfg env req st)) = true ->
  snd (Auth.login cfg env req st) = st.
Proof.
  intros Hblocked.
  pose proof (proj1 (login_blocked_iff cfg env req st) Hblocked) as [_ Hw].
  revert Hblocked. unfold Auth.login.
  destruct (Auth.maxAttempts <=? _)%nat; simpl.
  - intros _. rewrite (storeReset_within _ _ _ Hw). destruct st; reflexivity.
  - destruct (Auth.credentialsMatch cfg _ _); simpl; discriminate.
Qed.

Lemma blocked_login_changes_nothing_witness :
  snd (Auth.login Auth.defaultConfig (fst Sample.sixthRight) (snd Sample.sixthRight)
         (snd (Auth.loginMany Auth.defaultConfig Sample.fiveWrong Sample.freshState)))
  = snd (Auth.loginMany Auth.defaultConfig Sample.fiveWrong Sample.freshState).
Proof.
  apply blocked_login_changes_nothing. vm_compute. reflexivity.
Defined.

(** X9. The throttle is per client: a login from one address never changes
    the entry of another. *)
Theorem login_throttle_isolation (cfg : Auth.AuthConfig) (env : Auth.LoginEnv)
    (req : Auth.LoginRequest) (st : Auth.AuthState) (other : string) :
  other <> Auth.clientIP req ->
  Auth.loginAttempts (snd (Auth.login cfg env req st)) !! other
  = Auth.loginAttempts st !! other.
Proof.
  intros Hne.
  assert (Hstore : Auth.storeReset (Auth.now env) (Auth.clientIP req) (Auth.loginAttempts st)
                   !! other = Auth.loginAttempts st !! other).
  { unfold Auth.storeReset.
    destruct (Auth.loginAttempts st !! Auth.clientIP req); [|reflexivity].
    apply lookup_insert_ne. congruence. }
  unfold Auth.login.
  destruct (Auth.maxAttempts <=? _)%nat; simpl; [exact Hstore|].
  destruct (Auth.credentialsMatch cfg _ _); simpl.
  - rewrite lookup_delete_ne by congruence. exact Hstore.
  - rewrite lookup_insert_ne by congruence. exact Hstore.
Qed.

Lemma login_throttle_isolation_witness :
  Auth.loginAttempts
    (snd (Auth.login Auth.defaultConfig (fst (Sample.attemptAt 1 "a"))
            (snd (Sample.attemptAt 1 "a")) Sample.freshState)) !! "10.0.0.8"
  = Auth.loginAttempts Sample.freshState !! "10.0.0.8".
Proof.
  apply login_throttle_isolation. discriminate.
Defined.

Lemma storeReset_other (t : Z) (ip other : string) (la : gmap string Auth.Attempts) :
  other <> ip -> Auth.storeReset t ip la !! other = la !! other.
Proof.
  intros Hne. unfold Auth.storeReset.
  destruct (la !! ip); [|reflexivity]. apply lookup_insert_ne. congruence.
Qed.

Lemma login_keeps_bounded (cfg : Auth.AuthConfig) (env : Auth.LoginEnv)
    (req : Auth.LoginRequest) (st : Auth.AuthState) :
  boundedAttempts (Auth.loginAttempts st) ->
  boundedAttempts (Auth.loginAttempts (snd (Auth.login cfg env req st))).
Proof.
  intros Hb ip a. unfold Auth.login.
  set (entry := Auth.attemptsOf (Auth.clientIP req) (Auth.loginAttempts st)).
  destruct (Nat.leb_spec Auth.maxAttempts (Auth.count (Auth.afterReset (Auth.now env) entry)))
    as [Hge | Hlt]; unfold Auth.maxAttempts in *.
  - simpl. destruct (decide (ip = Auth.clientIP req)) as [-> | Hne].
    + assert (Hw : (Auth.now env - Auth.lastAttempt entry <= Auth.window)%Z).
      { destruct (Z_le_gt_dec (Auth.now env - Auth.lastAttempt entry) Auth.window)
          as [Hw | Hw]; [exact Hw|].
        rewrite (afterReset_expired _ _ Hw) in Hge. lia. }
      rewrite (storeReset_within _ _ _ Hw). apply Hb.
    + rewrite storeReset_other by exact Hne. apply Hb.
  - destruct (Auth.credentialsMatch cfg _ _); simpl.
    + intros Hk. apply lookup_delete_Some in Hk as [Hne Hk].
      rewrite storeReset_other in Hk by congruence. apply (Hb ip a Hk).
    + destruct (decide (ip = Auth.clientIP req)) as [-> | Hne].
      * rewrite lookup_insert_eq. intros [= <-]. simpl. lia.
      * rewrite lookup_insert_ne by congruence.
        rewrite storeReset_other by exact Hne. apply Hb.
Qed.

(** X10. The failure count of every client stays between one and five: an
    entry exists only after a recorded failure, and a fifth failure
    blocks the client until the window has passed, when the count starts
    again at one. This holds after any run of login requests, from any
    clients at any times, that starts with no entries. *)
Theorem throttle_count_bounded (cfg : Auth.AuthConfig)
    (reqs : list (Auth.LoginEnv * Auth.LoginRequest)) (st : Auth.AuthState) :
  (boundedAttempts (Auth.loginAttempts st) ->
   boundedAttempts (Auth.loginAttempts (snd (Auth.loginMany cfg reqs st)))) /\
  boundedAttempts
    (Auth.loginAttempts
       (snd (Auth.loginMany cfg reqs {| Auth.sessions := ∅; Auth.loginAttempts := ∅ |}))).
Proof.
  assert (Hmany : forall rs s, boundedAttempts (Auth.loginAttempts s) ->
            boundedAttempts (Auth.loginAttempts (snd (Auth.loginMany cfg rs s)))).
  { induction rs as [|[env req] rs IH]; intros s Hs; [exact Hs|].
    simpl. pose proof (login_keeps_bounded cfg env req s Hs) as Hstep.
    destruct (Auth.login cfg env req s) as [r s1]. simpl in Hstep.
    specialize (IH s1 Hstep).
    destruct (Auth.loginMany cfg rs s1) as [rs' s2]. exact IH. }
  split; [apply Hmany|].
  apply Hmany. intros ip a Hk. simpl in Hk. try rewrite lookup_empty in Hk. discriminate Hk.
Qed.

Lemma throttle_count_bounded_witness :
  boundedAttempts
    (Auth.loginAttempts (snd (Auth.loginMany Auth.defaultConfig Sample.fiveWrong
                                Sample.freshState))).
Proof.
  apply (proj1 (throttle_count_bounded Auth.defaultConfig Sample.fiveWrong
                  Sample.freshState)).
  intros ip a Hk. simpl in Hk. try rewrite lookup_empty in Hk. discriminate Hk.
Defined.

(** X11. The cookie a successful login hands out passes the gate, as the
    configured user, as long as the sweep of the login and the later
    check come within the timeout of the session's creation. *)
Theorem login_then_requireAuth (cfg : Auth.AuthConfig) (env : Auth.LoginEnv)
    (lreq : Auth.LoginRequest) (st : Auth.AuthState)
    (tCheck tTouch : Z) (req : Gate.Request) :
  isSuccess (fst (Auth.login cfg env lreq st)) = true ->
  Auth.freshSessionId env <> "" ->
  (Auth.tSweep env - Auth.tActivity env <= Auth.sessionTimeout cfg)%Z ->
  (tCheck - Auth.tActivity env <= Auth.sessionTimeout cfg)%Z ->
  Gate.db_session req = Some (Auth.freshSessionId env) ->
  fst (Gate.requireAuth cfg tCheck tTouch req (Auth.sessions (snd (Auth.login cfg env lreq st))))
  = Gate.Next (Auth.username cfg) (Auth.freshSessionId env).
Proof.
  intros Hok Hid Hsweep Hcheck Hcookie.
  revert Hok. unfold Auth.login.
  destruct (Auth.maxAttempts <=? _)%nat; simpl; [discriminate|].
  destruct (Auth.credentialsMatch cfg (Auth.body_username lreq) (Auth.body_password lreq))
    eqn:Hcred; simpl; [|discriminate].
  intros _. apply credentialsMatch_spec in Hcred as [Huser _]. rewrite Huser. simpl.
  apply (requireAuth_next_intro cfg tCheck tTouch req _ (Auth.freshSessionId env)
           {| Auth.id := Auth.freshSessionId env; Auth.userId := Auth.username cfg;
              Auth.createdAt := Auth.tCreated env; Auth.lastActivity := Auth.tActivity env;
              Auth.isValid := true |}); try assumption; try reflexivity.
  apply (createSession_lookup_new cfg (Auth.freshSessionId env) (Auth.tCreated env)
           (Auth.tActivity env) (Auth.tSweep env) (Auth.username cfg) (Auth.sessions st)).
  exact Hsweep.
Qed.

Lemma login_then_requireAuth_witness :
  fst (Gate.requireAuth Auth.defaultConfig 120000 120000
         {| Gate.db_session := Some "tok"; Gate.path := "/tables";
            Gate.accept := None; Gate.originalUrl := "/api/db/tables" |}
         (Auth.sessions
            (snd (Auth.login Auth.defaultConfig (fst Sample.sixthRight)
                    (snd Sample.sixthRight) Sample.freshState))))
  = Gate.Next "admin" "tok".
Proof.
  apply (login_then_requireAuth Auth.defaultConfig (fst Sample.sixthRight)
           (snd Sample.sixthRight) Sample.freshState 120000 120000).
  - vm_compute. reflexivity.
  - discriminate.
  - vm_compute. discriminate.
  - vm_compute. discriminate.
  - reflexivity.
Defined.

(** X12. After a logout that passed the gate, the same cookie is turned away
    and cleared, whenever it is presented again. *)
Theorem logout_then_denied (cfg : Auth.AuthConfig) (tCheck tTouch tCheck' tTouch' : Z)
    (req req' : Gate.Request) (sessions : gmap string Auth.Session)
    (user sessionId : string) :
  fst (Gate.requireAuth cfg tCheck tTouch req sessions) = Gate.Next user sessionId ->
  Gate.db_session req' = Gate.db_session req ->
  fst (Gate.requireAuth cfg tCheck' tTouch' req'
         (snd (Gate.logoutRoute cfg tCheck tTouch req sessions)))
  = Gate.Denied (Gate.redirectToLogin req') true.
Proof.
  intros Hpass Hsame.
  pose proof (requireAuth_next_cookie cfg tCheck tTouch req sessions user sessionId Hpass)
    as [Hcookie Hne].
  unfold Gate.logoutRoute.
  destruct (Gate.requireAuth cfg tCheck tTouch req sessions) as [o sessions'] eqn:E.
  simpl in Hpass. subst o. simpl.
  unfold Gate.requireAuth. rewrite Hsame, Hcookie.
  destruct sessionId as [|c sid]; [congruence|]. cbn [falsy_string].
  unfold Auth.validateSession, Auth.destroySession. rewrite lookup_delete_eq. reflexivity.
Qed.

Lemma logout_then_denied_witness :
  fst (Gate.requireAuth Auth.defaultConfig 9 9
         {| Gate.db_session := Some "tok"; Gate.path := "/"; Gate.accept := None;
            Gate.originalUrl := "/api/db" |}
         (snd (Gate.logoutRoute Auth.defaultConfig 5 5
                 {| Gate.db_session := Some "tok"; Gate.path := "/logout";
                    Gate.accept := None; Gate.originalUrl := "/api/db/logout" |}
                 Sample.registry0)))
  = Gate.Denied (Gate.RedirectLogin "/api/db") true.
Proof.
  apply (logout_then_denied Auth.defaultConfig 5 5 9 9
           {| Gate.db_session := Some "tok"; Gate.path := "/logout";
              Gate.accept := None; Gate.originalUrl := "/api/db/logout" |}
           {| Gate.db_session := Some "tok"; Gate.path := "/"; Gate.accept := None;
              Gate.originalUrl := "/api/db" |}
           Sample.registry0 "admin" "tok"); reflexivity.
Defined.

(** X13. Asking for the session status is itself an activity: when the gate
    lets the request through, the handler finds the session, the last
    activity it reports is the instant of this very request, and the
    expiry it reports is a full timeout after it; when the gate answers,
    that is the answer. *)
Theorem sessionStatus_refreshes (cfg : Auth.AuthConfig) (tCheck tTouch : Z)
    (req : Gate.Request) (sessions : gmap string Auth.Session) :
  (forall user sessionId,
     fst (Gate.requireAuth cfg tCheck tTouch req sessions) = Gate.Next user sessionId ->
     exists created,
       fst (Gate.sessionStatusRoute cfg tCheck tTouch req sessions)
       = Gate.StatusJson user created tTouch (tTouch + Auth.sessionTimeout cfg)) /\
  (forall answer cleared,
     fst (Gate.requireAuth cfg tCheck tTouch req sessions) = Gate.Denied answer cleared ->
     fst (Gate.sessionStatusRoute cfg tCheck tTouch req sessions)
     = Gate.StatusDenied answer cleared).
Proof.
  unfold Gate.sessionStatusRoute, Gate.requireAuth.
  destruct (Gate.db_session req) as [sid|];
    [|simpl; split; [discriminate | intros a c [= <- <-]; reflexivity]].
  destruct (falsy_string sid);
    [simpl; split; [discriminate | intros a c [= <- <-]; reflexivity]|].
  unfold Auth.validateSession.
  destruct (sessions !! sid) as [s|];
    [|simpl; split; [discriminate | intros a c [= <- <-]; reflexivity]].
  destruct (Auth.isValid s); simpl;
    [|split; [discriminate | intros a c [= <- <-]; reflexivity]].
  destruct (Auth.expired cfg tCheck s); simpl;
    [split; [discriminate | intros a c [= <- <-]; reflexivity]|].
  rewrite lookup_insert_eq. simpl. split; [|discriminate].
  intros user sessionId [= <- <-]. eexists. reflexivity.
Qed.

Lemma sessionStatus_refreshes_witness :
  exists created,
    fst (Gate.sessionStatusRoute Auth.defaultConfig 777 777
           {| Gate.db_session := Some "tok"; Gate.path := "/session-status";
              Gate.accept := None; Gate.originalUrl := "/api/db/session-status" |}
           Sample.registry0)
    = Gate.StatusJson "admin" created 777 (777 + Auth.sessionTimeout Auth.defaultConfig).
Proof.
  apply (proj1 (sessionStatus_refreshes Auth.defaultConfig 777 777
                  {| Gate.db_session := Some "tok"; Gate.path := "/session-status";
                     Gate.accept := None; Gate.originalUrl := "/api/db/session-status" |}
                  Sample.registry0) "admin" "tok").
  reflexivity.
Defined.

(** ** Escaping, identifiers and digests *)

Lemma escapeChar_cases (c : ascii) :
  c = "&"%char \/ c = "<"%char \/ c = ">"%char \/ c = JsString.dquote \/ c = "'"%char \/
  (Gate.escapeChar c = String c "" /\ c <> "&"%char /\ Gate.isMarkupChar c = false).
Proof.
  destruct c as [[] [] [] [] [] [] [] []];
    try (do 5 right; split; [reflexivity | split; [discriminate | reflexivity]]);
    auto 6.
Qed.

Lemma all_chars_app (p : ascii -> bool) (a b : string) :
  Regex.all_chars p (a +:+ b) = Regex.all_chars p a && Regex.all_chars p b.
Proof.
  induction a as [|c a IH]; simpl; [reflexivity|].
  rewrite IH. apply andb_assoc.
Qed.

(** X14. Whatever [escapeHtml] returns holds no angle bracket, double quote
    or apostrophe, so neither value the login page interpolates from the
    query string can close its attribute or open a tag. *)
Theorem escapeHtml_no_markup (text : string) (queryRedirect queryError : option string) :
  Regex.all_chars (fun c => negb (Gate.isMarkupChar c)) (Gate.escapeHtml text) = true /\
  Regex.all_chars (fun c => negb (Gate.isMarkupChar c))
    (Gate.redirectValue (Gate.loginPage queryRedirect queryError)) = true /\
  (forall banner, Gate.errorBanner (Gate.loginPage queryRedirect queryError) = Some banner ->
     Regex.all_chars (fun c => negb (Gate.isMarkupChar c)) banner = true).
Proof.
  assert (Hsafe : forall t,
            Regex.all_chars (fun c => negb (Gate.isMarkupChar c)) (Gate.escapeHtml t) = true).
  { induction t as [|c t IH]; [reflexivity|].
    cbn [Gate.escapeHtml]. rewrite all_chars_app, IH, andb_true_r.
    destruct (escapeChar_cases c) as [-> | [-> | [-> | [-> | [-> | [Hc [_ Hm]]]]]]];
      try reflexivity.
    rewrite Hc. simpl. now rewrite Hm. }
  split; [apply Hsafe|]. split; [apply Hsafe|].
  intros banner. unfold Gate.loginPage. simpl.
  destruct queryError as [e|]; [|discriminate].
  destruct (falsy_string e); [discriminate|].
  intros [= <-]. apply Hsafe.
Qed.

Lemma escapeHtml_no_markup_witness :
  Regex.all_chars (fun c => negb (Gate.isMarkupChar c)) "&lt;b&gt;" = true.
Proof.
  apply (proj2 (proj2 (escapeHtml_no_markup "" None (Some "<b>")))).
  reflexivity.
Defined.

(** X15. [escapeHtml] loses nothing: two texts with the same escaped form are
    the same text. *)
Theorem escapeHtml_injective (a b : string) :
  Gate.escapeHtml a = Gate.escapeHtml b -> a = b.
Proof.
  revert b. induction a as [|x a IH]; intros [|y b] Heq.
  - reflexivity.
  - exfalso. cbn [Gate.escapeHtml] in Heq.
    destruct (escapeChar_cases y) as [-> | [-> | [-> | [-> | [-> | [Hc _]]]]]];
      try rewrite Hc in Heq; discriminate Heq.
  - exfalso. cbn [Gate.escapeHtml] in Heq.
    destruct (escapeChar_cases x) as [-> | [-> | [-> | [-> | [-> | [Hc _]]]]]];
      try rewrite Hc in Heq; discriminate Heq.
  - cbn [Gate.escapeHtml] in Heq.
    destruct (escapeChar_cases x) as [-> | [-> | [-> | [-> | [-> | [Hx [Hxa _]]]]]]];
      destruct (escapeChar_cases y) as [-> | [-> | [-> | [-> | [-> | [Hy [Hya _]]]]]]];
      try rewrite Hx in Heq; try rewrite Hy in Heq;
      try discriminate Heq;
      try (injection Heq as Heq; f_equal; apply IH; exact Heq);
      try (injection Heq as Hh Heq; congruence).
    injection Heq as -> Heq. f_equal. apply IH. exact Heq.
Qed.

Lemma escapeHtml_injective_witness : "a<b" = "a<b".
Proof. apply escapeHtml_injective. reflexivity. Defined.

Lemma bufferFromHex_toHex_step (c : ascii) (t : string) :
  Auth.bufferFromHex (Gate.bufferToHex (String c t))
  = String c (Auth.bufferFromHex (Gate.bufferToHex t)).
Proof. destruct c as [[] [] [] [] [] [] [] []]; reflexivity. Qed.

Lemma toHex_digits (c : ascii) :
  let lowerHex := fun d => JsString.is_digit d || JsString.in_range "a" "f" d in
  lowerHex (Gate.hexdigit (nat_of_ascii c / 16)) = true /\
  lowerHex (Gate.hexdigit (nat_of_ascii c mod 16)) = true.
Proof. destruct c as [[] [] [] [] [] [] [] []]; split; reflexivity. Qed.

Lemma bufferFromHex_toHex (b : string) : Auth.bufferFromHex (Gate.bufferToHex b) = b.
Proof.
  induction b as [|c b IH]; [reflexivity|].
  rewrite bufferFromHex_toHex_step, IH. reflexivity.
Qed.

(** X16. The hexadecimal form of a buffer decodes back to the buffer, so the
    session id determines the random bytes it was made from; the id has
    two characters per byte, all of them digits or letters a to f, and is
    empty only for no bytes at all. *)
Theorem generateSessionId_shape (randomBytes : string) :
  Auth.bufferFromHex (Gate.generateSessionId randomBytes) = randomBytes /\
  String.length (Gate.generateSessionId randomBytes) = 2 * String.length randomBytes /\
  Regex.all_chars (fun d => JsString.is_digit d || JsString.in_range "a" "f" d)
    (Gate.generateSessionId randomBytes) = true /\
  (forall other, Gate.generateSessionId randomBytes = Gate.generateSessionId other ->
                 randomBytes = other) /\
  (String.length randomBytes = 32 ->
   String.length (Gate.generateSessionId randomBytes) = 64 /\
   falsy_string (Gate.generateSessionId randomBytes) = false).
Proof.
  unfold Gate.generateSessionId.
  pose proof bufferFromHex_toHex as Hround.
  assert (Hlen : forall b, String.length (Gate.bufferToHex b) = 2 * String.length b).
  { induction b as [|c b IH]; [reflexivity|]. cbn [Gate.bufferToHex String.length].
    rewrite IH. lia. }
  split; [apply Hround|]. split; [apply Hlen|]. split; [|split].
  - induction randomBytes as [|c b IH]; [reflexivity|].
    cbn [Gate.bufferToHex Regex.all_chars].
    destruct (toHex_digits c) as [Hh Hl]. cbn zeta in Hh, Hl.
    rewrite Hh, Hl, IH. reflexivity.
  - intros other Heq. rewrite <- (Hround randomBytes), <- (Hround other), Heq. reflexivity.
  - intros H32. rewrite Hlen, H32. split; [reflexivity|].
    destruct randomBytes; [discriminate H32 | reflexivity].
Qed.

Lemma generateSessionId_shape_witness :
  String.length (Gate.generateSessionId "0123456789abcdef0123456789abcdef") = 64 /\
  falsy_string (Gate.generateSessionId "0123456789abcdef0123456789abcdef") = false.
Proof.
  apply (proj2 (proj2 (proj2 (proj2
           (generateSessionId_shape "0123456789abcdef0123456789abcdef"))))).
  reflexivity.
Defined.

Lemma scan_all_eqb (a : string) :
  forall b i, String.length a = String.length b ->
    fst (Auth.scan_all i a b) = String.eqb a b.
Proof.
  induction a as [|x a IH]; intros [|y b] i Hlen; simpl in *; try discriminate; [reflexivity|].
  injection Hlen as Hlen. specialize (IH b (S i) Hlen).
  destruct (Auth.scan_all (S i) a b) as [r t]. simpl in *. rewrite IH.
  destruct (Ascii.eqb x y); reflexivity.
Qed.

(** X17. [verifyPassword] answers true exactly when the stored hash and the
    digest of the password decode to the same bytes, and false when they
    decode to different bytes of one length; when the two decode to
    different lengths it does not answer at all but throws. *)
Theorem verifyPassword_result (hashPassword : string -> string -> string)
    (pass hash salt : string) :
  let stored := Auth.bufferFromHex hash in
  let fresh := Auth.bufferFromHex (hashPassword pass salt) in
  (String.length stored <> String.length fresh ->
     Auth.verifyPassword hashPassword pass hash salt = None) /\
  (String.length stored = String.length fresh ->
     exists r t, Auth.verifyPassword hashPassword pass hash salt = Some (r, t) /\
                 (r = true <-> stored = fresh)).
Proof.
  intros stored fresh. unfold Auth.verifyPassword, Auth.timingSafeEqual.
  fold stored. fold fresh.
  destruct (Nat.eqb_spec (String.length stored) (String.length fresh)) as [Heq | Hne].
  - split; [intros Hd; contradiction|]. intros _.
    pose proof (scan_all_eqb stored fresh 0 Heq) as Hr.
    destruct (Auth.scan_all 0 stored fresh) as [r t]. simpl in Hr.
    exists r, t. split; [reflexivity|]. rewrite Hr. apply String.eqb_eq.
  - split; [reflexivity | intros Heq; contradiction].
Qed.

Lemma verifyPassword_result_witness :
  Auth.verifyPassword (fun _ _ => "00ff") "secret" "00" "salt" = None.
Proof.
  apply (proj1 (verifyPassword_result (fun _ _ => "00ff") "secret" "00" "salt")).
  simpl. lia.
Defined.

(** X18. A hash made by [hashPassword] verifies the password it was made
    from, and no password for which the key derivation gives other bytes. *)
Theorem hashPassword_then_verify (pbkdf2Sync : string -> string -> string)
    (pass other salt : string) :
  (exists t,
     Auth.verifyPassword (Gate.hashPassword pbkdf2Sync) pass
       (Gate.hashPassword pbkdf2Sync pass salt) salt = Some (true, t)) /\
  (pbkdf2Sync other salt <> pbkdf2Sync pass salt ->
   forall t,
     Auth.verifyPassword (Gate.hashPassword pbkdf2Sync) other
       (Gate.hashPassword pbkdf2Sync pass salt) salt <> Some (true, t)).
Proof.
  assert (Hdec : forall p, Auth.bufferFromHex (Gate.hashPassword pbkdf2Sync p salt)
                           = pbkdf2Sync p salt).
  { intros p. apply bufferFromHex_toHex. }
  unfold Auth.verifyPassword, Auth.timingSafeEqual. rewrite !Hdec. split.
  - rewrite Nat.eqb_refl.
    pose proof (scan_all_eqb (pbkdf2Sync pass salt) (pbkdf2Sync pass salt) 0 eq_refl) as Hr.
    destruct (Auth.scan_all 0 (pbkdf2Sync pass salt) (pbkdf2Sync pass salt)) as [r t].
    simpl in Hr. rewrite String.eqb_refl in Hr. subst r. exists t. reflexivity.
  - intros Hother t.
    destruct (Nat.eqb_spec (String.length (pbkdf2Sync pass salt))
                (String.length (pbkdf2Sync other salt))) as [Hlen | _]; [|discriminate].
    pose proof (scan_all_eqb (pbkdf2Sync pass salt) (pbkdf2Sync other salt) 0 Hlen) as Hr.
    destruct (Auth.scan_all 0 (pbkdf2Sync pass salt) (pbkdf2Sync other salt)) as [r t'].
    simpl in Hr. intros [= -> _]. symmetry in Hr. apply String.eqb_eq in Hr. congruence.
Qed.

Lemma hashPassword_then_verify_witness :
  Auth.verifyPassword (Gate.hashPassword (fun p _ => p)) "secreT"
    (Gate.hashPassword (fun p _ => p) "secret" "salt") "salt"
  <> Some (true, seq 0 6).
Proof.
  apply (proj2 (hashPassword_then_verify (fun p _ => p) "secret" "secreT" "salt")).
  discriminate.
Defined.


(** * Further properties of [src/routes/database.js] *)

(** ** Every route that opens the client closes it *)

Section BracketFacts.
Context `{JsRuntime}.

Lemma asking_bind {A B : Type} (m : Prog A) (k : A -> Prog B) :
  Asking m -> (forall a, Asking (k a)) -> Asking (bind m k).
Proof.
  intros Hm Hk. induction Hm as [a | text params f Hf IH]; simpl.
  - apply Hk.
  - constructor. exact IH.
Qed.

Lemma asking_tbind {A B : Type} (m : Try A) (k : A -> Try B) :
  Asking m -> (forall a, Asking (k a)) -> Asking (tbind m k).
Proof.
  intros Hm Hk. unfold tbind. apply asking_bind; [exact Hm|].
  intros [e | a]; [constructor | apply Hk].
Qed.

Lemma asking_await (text : string) (params : option (list Param)) :
  Asking (await (Query text params)).
Proof. unfold await. constructor. intros ans. constructor. Qed.

Lemma asking_defined {A : Type} (what : string) (x : option A) : Asking (defined what x).
Proof. destruct x; constructor. Qed.

Lemma closing_of_asking {A B : Type} (m : Prog A) (f : A -> B) :
  Asking m -> Closing (bind m (fun r => Do End_ (fun _ => Ret (f r)))).
Proof.
  intros Hm. induction Hm as [a | text params k Hk IH]; simpl.
  - apply Closing_end. intros _. eexists. reflexivity.
  - apply Closing_query. exact IH.
Qed.

Lemma bracketed_try {A B : Type} (k : QueryResult -> Try A) (f : JsError + A -> B) :
  (forall x, Asking (k x)) ->
  Bracketed (bind (tbind (await Connect) k) (fun r => Do End_ (fun _ => Ret (f r)))).
Proof.
  intros Hk. unfold tbind, await. simpl. apply Bracketed_connect.
  intros [r | e]; simpl.
  - apply closing_of_asking. apply Hk.
  - apply Closing_end. intros _. eexists. reflexivity.
Qed.

Lemma closing_run {A : Type} (p : Prog A) (db : Oracle) :
  Closing p ->
  forall done, exists queries,
    snd (run_from db done p) = (done ++ queries ++ [End_])%list /\
    forallb isQuery queries = true.
Proof.
  intros Hp. induction Hp as [k Hk | text params k Hk IH]; intros done; simpl.
  - destruct (Hk (db done End_)) as [a Ha]. rewrite Ha. simpl.
    exists []. split; reflexivity.
  - destruct (IH (db done (Query text params)) (done ++ [Query text params])%list)
      as [queries [Htrace Hall]].
    exists (Query text params :: queries). split.
    + rewrite Htrace, <- app_assoc. reflexivity.
    + simpl. exact Hall.
Qed.

Lemma bracketed_run {A : Type} (p : Prog A) (db : Oracle) :
  Bracketed p -> bracketed (snd (run db p)).
Proof.
  intros [a | k Hk]; unfold run; simpl.
  - left. reflexivity.
  - right. destruct (closing_run _ db (Hk (db [] Connect)) [Connect]) as [queries [Ht Ha]].
    exists queries. split; assumption.
Qed.

Ltac asking :=
  repeat first
    [ apply asking_tbind
    | apply asking_await
    | apply asking_defined
    | apply Asking_ret
    | apply Asking_query
    | progress intros
    | match goal with
      | |- Asking (match ?x with _ => _ end) => destruct x
      | |- Asking (if ?x then _ else _) => destruct x
      | |- Asking (let '(_, _) := ?x in _) => destruct x
      | |- Asking (pure _) => unfold pure
      | |- Asking (throw _) => unfold throw
      end ].

Ltac closing :=
  repeat first
    [ apply Closing_end; intros; eexists; reflexivity
    | apply Closing_query; intros
    | match goal with
      | |- Closing (match ?x with _ => _ end) => destruct x
      | |- Closing (renderTable _) => unfold renderTable
      | |- Closing (renderDashboard _ _ _) => unfold renderDashboard
      end ].

Lemma handle_Bracketed (env : ProcessEnv) (tableName : string) (r : TableRequest) :
  Bracketed (handle env tableName r).
Proof.
  destruct r; simpl;
    unfold schemaRoute, listRoute, viewRoute, insertRoute, updateRoute,
           deleteRoute, exportRoute, tryCatchFinally;
    destruct (invalidTableName tableName); try apply Bracketed_ret;
    try (apply bracketed_try; intros; asking).
  apply Bracketed_connect. intros. closing.
Qed.

Lemma runQueryRoute_Bracketed (startTime endTime : Z) (query : option string) :
  Bracketed (runQueryRoute startTime endTime query).
Proof.
  unfold runQueryRoute, tryCatchFinally.
  destruct (negb (truthy query)); [apply Bracketed_ret|].
  apply bracketed_try. intros. asking.
Qed.

Lemma infoRoutes_Bracketed (env : ProcessEnv) (timestamp : string) :
  Bracketed dashboardRoute /\ Bracketed (tablesRoute env) /\
  Bracketed (databaseInfoRoute env) /\ Bracketed (healthRoute timestamp).
Proof.
  split; [|split; [|split]].
  - unfold dashboardRoute. apply Bracketed_connect. intros. closing.
  - unfold tablesRoute, tryCatchFinallyAs. apply bracketed_try. intros. asking.
  - unfold databaseInfoRoute, tryCatchFinallyAs. apply bracketed_try. intros. asking.
  - unfold healthRoute, tryCatchFinallyAs. apply bracketed_try. intros. asking.
Qed.

(** X19. Whatever the server answers, each route of the router either leaves
    the client untouched or connects first, then only sends statements,
    and ends the client as its last call: no exit path leaks the
    connection or uses it after the end. *)
Theorem client_is_bracketed (env : ProcessEnv) (db : Oracle) (tableName : string)
    (r : TableRequest) (startTime endTime : Z) (query : option string)
    (timestamp : string) :
  bracketed (snd (run db (handle env tableName r))) /\
  bracketed (snd (run db (runQueryRoute startTime endTime query))) /\
  bracketed (snd (run db dashboardRoute)) /\
  bracketed (snd (run db (tablesRoute env))) /\
  bracketed (snd (run db (databaseInfoRoute env))) /\
  bracketed (snd (run db (healthRoute timestamp))).
Proof.
  destruct (infoRoutes_Bracketed env timestamp) as (Hd & Ht & Hi & Hh).
  repeat split; apply bracketed_run;
    auto using handle_Bracketed, runQueryRoute_Bracketed.
Qed.

End BracketFacts.

(** ** Failures of the server *)

Section FailureFacts.
Context `{JsRuntime}.



(** X22. The dashboard never answers with an error status either, and never
    shows a driver message: it renders [db/index] with status 200, and
    its [error] is absent or the one fixed sentence. *)
Theorem dashboardRoute_always_renders (db : Oracle) :
  exists locals,
    fst (run db dashboardRoute) = Info 200 (DashboardView "db/index" locals) /\
    (d_error locals = None \/ d_error locals = Some dashboardError).
Proof.
  unfold dashboardRoute, run. simpl.
  destruct (db [] Connect); simpl; [|eexists; split; [reflexivity | right; reflexivity]].
  destruct (db [Connect] _) as [tr|]; simpl;
    [|eexists; split; [reflexivity | right; reflexivity]].
  destruct (rows tr); simpl; [|eexists; split; [reflexivity | right; reflexivity]].
  destruct (db [Connect; _] _) as [st|]; simpl;
    [|eexists; split; [reflexivity | right; reflexivity]].
  destruct (rows st) as [[|s0 ss]|]; simpl; eexists; split; try reflexivity; auto.
Qed.

(** X23. The health route, for every server: healthy with status 200 exactly
    when both the connection and [SELECT 1] succeed; otherwise status
    500 with the message of the error that occurred, in every mode. *)
Theorem healthRoute_report (db : Oracle) (timestamp : string) :
  run db (healthRoute timestamp)
  = match db [] Connect with
    | Rejected e =>
        (Info 500 (HealthBody "unhealthy" timestamp "disconnected" (Some (err_message e))),
         [Connect; End_])
    | Resolved _ =>
        match db [Connect] (Query "SELECT 1" None) with
        | Rejected e =>
            (Info 500 (HealthBody "unhealthy" timestamp "disconnected" (Some (err_message e))),
             [Connect; Query "SELECT 1" None; End_])
        | Resolved _ =>
            (Info 200 (HealthBody "healthy" timestamp "connected" None),
             [Connect; Query "SELECT 1" None; End_])
        end
    end.
Proof.
  unfold healthRoute, run, tryCatchFinallyAs, tbind, await. simpl.
  destruct (db [] Connect); simpl; [|reflexivity].
  destruct (db [Connect] (Query "SELECT 1" None)); reflexivity.
Qed.

End FailureFacts.




(** ** The statements the list route builds *)

Lemma upper_of_lower (c : ascii) :
  JsString.upper_char (JsString.lower_char c) = JsString.upper_char c.
Proof. destruct c as [[] [] [] [] [] [] [] []]; reflexivity. Qed.

Lemma toUpperCase_of_toLowerCase (s : string) :
  JsString.toUpperCase (JsString.toLowerCase s) = JsString.toUpperCase s.
Proof.
  induction s as [|c s IH]; [reflexivity|].
  unfold JsString.toUpperCase, JsString.toLowerCase in *. simpl.
  now rewrite upper_of_lower, IH.
Qed.

Lemma count_char_app (c : ascii) (a b : string) :
  JsString.count_char c (a +:+ b) = JsString.count_char c a + JsString.count_char c b.
Proof.
  induction a as [|x a IH]; simpl; [reflexivity|]. rewrite IH. lia.
Qed.

Lemma count_char_none (c : ascii) (p : ascii -> bool) (s : string) :
  p c = false -> Regex.all_chars p s = true -> JsString.count_char c s = 0.
Proof.
  intros Hc. induction s as [|x s IH]; simpl; [reflexivity|].
  intros Hall. apply andb_true_iff in Hall as [Hx Hs].
  rewrite (IH Hs). destruct (Ascii.eqb_spec c x) as [-> | _]; [congruence | reflexivity].
Qed.

Lemma identifier_no_quote (s : string) :
  Regex.is_identifier s = true -> JsString.count_char JsString.dquote s = 0.
Proof.
  destruct s as [|c s]; [discriminate|]. cbn [Regex.is_identifier].
  intros Hid. apply andb_true_iff in Hid as [Hc Hs].
  apply (count_char_none _ Regex.ident_part); [reflexivity|].
  simpl. unfold Regex.ident_part at 1. rewrite Hc. exact Hs.
Qed.

Lemma placeholder_no_quote (n : nat) :
  JsString.count_char JsString.dquote (placeholder n) = 0.
Proof.
  unfold placeholder. rewrite count_char_app. simpl.
  apply (count_char_none _ JsString.is_digit); [reflexivity|].
  unfold pretty, pretty_nat, pretty, pretty_N.
  destruct (decide (N.of_nat n = 0%N)); [reflexivity|].
  apply all_digits_pretty_N_go. reflexivity.
Qed.

Section ListFacts.
Context `{JsRuntime}.

Lemma searchTerms_imap (textColumns : list string) :
  fst (searchTerms textColumns (length textColumns) 0)
  = imap (fun i column => column +:+ " ILIKE " +:+ placeholder (i + 1)) textColumns.
Proof.
  rewrite searchTerms_seq. cbn [fst]. apply list_eq. intros i.
  rewrite list_lookup_fmap, list_lookup_imap.
  replace (i + 1) with (S i) by lia.
  destruct (textColumns !! i) as [column|] eqn:Hi.
  - rewrite lookup_seq_lt by (apply lookup_lt_Some in Hi; exact Hi). cbn.
    rewrite (nth_lookup_Some _ _ _ _ Hi). reflexivity.
  - rewrite lookup_seq_ge by (apply lookup_ge_None in Hi; exact Hi). reflexivity.
Qed.

(** The statements after the search step, written out. *)
Lemma addSearch_statements (tableName search : string) (textColumns : list string) :
  let condition :=
    match textColumns with
    | [] => ""
    | _ => " WHERE ("
           +:+ JsString.join " OR "
                 (imap (fun i column => column +:+ " ILIKE " +:+ placeholder (i + 1))
                       textColumns)
           +:+ ")"
    end in
  baseQuery (addSearch search textColumns (startBuilding tableName))
  = "SELECT * FROM " +:+ quoted tableName +:+ condition /\
  countQuery (addSearch search textColumns (startBuilding tableName))
  = "SELECT COUNT(*) FROM " +:+ quoted tableName +:+ condition.
Proof.
  cbn zeta. pose proof (searchTerms_imap textColumns) as Hterms.
  unfold addSearch. destruct textColumns as [|c cs].
  - cbn [startBuilding baseQuery countQuery]. rewrite !append_nil_r. split; reflexivity.
  - cbn [startBuilding paramCount baseQuery countQuery].
    destruct (searchTerms (c :: cs) (length (c :: cs)) 0) as [terms pc].
    cbn [fst] in Hterms. subst terms. cbn [baseQuery countQuery].
    rewrite !append_assoc. split; reflexivity.
Qed.

(** What the sorting step appends. *)
Lemma addSorting_clause (sortBy sortOrder : option string) (b : Building) :
  exists order,
    baseQuery (addSorting sortBy sortOrder b) = baseQuery b +:+ order /\
    (order = "" \/
     exists column direction,
       sortBy = Some column /\ Regex.is_identifier column = true /\
       (direction = "ASC" \/ direction = "DESC") /\
       order = " ORDER BY " +:+ quoted column +:+ " " +:+ direction).
Proof.
  unfold addSorting. destruct sortBy as [column|];
    [|exists ""; rewrite append_nil_r; split; [reflexivity | left; reflexivity]].
  destruct (negb (falsy_string column) && Regex.test_anchored Regex.identifier_re column)
    eqn:Hvalid;
    [|exists ""; rewrite append_nil_r; split; [reflexivity | left; reflexivity]].
  cbn [baseQuery].
  assert (Hid : Regex.is_identifier column = true).
  { pose proof (invalidTableName_is_identifier column) as Hinv.
    unfold invalidTableName in Hinv. apply andb_true_iff in Hvalid as [Hf Ht].
    rewrite Ht in Hinv. apply negb_true_iff in Hf. rewrite Hf in Hinv. simpl in Hinv.
    destruct (Regex.is_identifier column); [reflexivity | discriminate]. }
  set (order := default "asc" sortOrder).
  assert (Hdir : exists direction,
            (direction = "ASC" \/ direction = "DESC") /\
            JsString.toUpperCase
              (if existsb (String.eqb (JsString.toLowerCase order)) ["asc"; "desc"]
               then order else "asc") = direction).
  { cbn [existsb].
    destruct (String.eqb_spec (JsString.toLowerCase order) "asc") as [Hasc | _]; cbn [orb].
    - exists "ASC". split; [left; reflexivity|].
      rewrite <- toUpperCase_of_toLowerCase, Hasc. reflexivity.
    - destruct (String.eqb_spec (JsString.toLowerCase order) "desc") as [Hdesc | _];
        cbn [orb].
      + exists "DESC". split; [right; reflexivity|].
        rewrite <- toUpperCase_of_toLowerCase, Hdesc. reflexivity.
      + exists "ASC". split; [left; reflexivity | reflexivity]. }
  destruct Hdir as [direction [Hd He]].
  exists (" ORDER BY " +:+ quoted column +:+ " " +:+ direction).
  rewrite He. split; [reflexivity|].
  right. exists column, direction. auto.
Qed.

(** X24. In a list request with a search term that is answered with status
    200, placeholders and parameters agree. With the text columns found
    by the column lookup, the data statement and the count statement
    carry the same WHERE clause, whose i-th condition compares the i-th
    column with placeholder i + 1; one search pattern is bound per
    column; the count statement gets exactly these, and the data
    statement gets them followed by the limit and the offset, under the
    two numbers its LIMIT and OFFSET placeholders name. Between the
    WHERE clause and LIMIT stands nothing, or an ORDER BY clause for an
    identifier with direction ASC or DESC. *)
Theorem list_parameters_agree (env : ProcessEnv) (db : Oracle) (tableName search : string)
    (q : ListQuery) (resp : Response) (trace : list DbOp) :
  q_search q = Some search -> search <> "" ->
  run db (listRoute env tableName q) = (resp, trace) ->
  status resp = 200 ->
  exists columnsResult cols textColumns order,
    db [Connect] (Query searchColumnsSql (Some [PStr tableName])) = Resolved columnsResult /\
    rows columnsResult = Some cols /\
    textColumnsOf cols = inr textColumns /\
    let n := length textColumns in
    let condition :=
      match textColumns with
      | [] => ""
      | _ => " WHERE ("
             +:+ JsString.join " OR "
                   (imap (fun i column => column +:+ " ILIKE " +:+ placeholder (i + 1))
                         textColumns)
             +:+ ")"
      end in
    let patterns := map (fun _ => PStr ("%" +:+ search +:+ "%")) textColumns in
    trace
    = [Connect;
       Query searchColumnsSql (Some [PStr tableName]);
       Query ("SELECT * FROM " +:+ quoted tableName +:+ condition +:+ order
              +:+ " LIMIT " +:+ placeholder (n + 1) +:+ " OFFSET " +:+ placeholder (n + 2))
             (Some (patterns ++ [PNum (JsNum.parseIntOr 100 (q_limit q));
                                 PNum (offsetOf (q_page q) (q_limit q))])%list);
       Query ("SELECT COUNT(*) FROM " +:+ quoted tableName +:+ condition) (Some patterns);
       End_] /\
    length patterns = n /\
    (order = "" \/
     exists column direction,
       q_sortBy q = Some column /\ Regex.is_identifier column = true /\
       (direction = "ASC" \/ direction = "DESC") /\
       order = " ORDER BY " +:+ quoted column +:+ " " +:+ direction).
Proof.
  intros Hsearch Hne Hrun Hst.
  destruct (listRoute_success env db tableName q resp trace Hrun Hst)
    as (before & searched & dataResult & countResult & total & Hsearched & Hrest).
  cbn zeta in Hrest. destruct Hrest as (Htrace & _).
  assert (Htruthy : truthy (q_search q) = true).
  { rewrite Hsearch. destruct search; [congruence | reflexivity]. }
  destruct Hsearched as [(Hfalse & _) | (_ & -> & columnsResult & cols & textColumns
                                          & Hcolumns & Hcols & Htext & ->)];
    [congruence|].
  rewrite Hsearch in Htrace. cbn [default from_option id] in Htrace.
  set (searched := addSearch search textColumns (startBuilding tableName)) in *.
  destruct (addSorting_clause (q_sortBy q) (q_sortOrder q) searched)
    as (order & Hbase & Horder).
  destruct (addSorting_keeps (q_sortBy q) (q_sortOrder q) searched)
    as (Hparams & Hpc & Hcq).
  destruct (addSearch_params tableName search textColumns) as [Hqp Hn].
  fold searched in Hqp, Hn.
  destruct (addSearch_statements tableName search textColumns) as [Hb Hc].
  cbn zeta in Hb, Hc. fold searched in Hb, Hc.
  exists columnsResult, cols, textColumns, order.
  split; [exact Hcolumns|]. split; [exact Hcols|]. split; [exact Htext|].
  cbn zeta. split; [|split; [apply length_map | exact Horder]].
  rewrite Htrace. unfold dataParams, countParams, addPagination.
  cbn [baseQuery countQuery queryParams app].
  rewrite dropLast2_app, Hbase, Hcq, Hparams, Hpc, Hqp, Hn, Hb, Hc.
  rewrite !append_assoc.
  replace (S (S (length textColumns))) with (length textColumns + 2) by lia.
  replace (S (length textColumns)) with (length textColumns + 1) by lia.
  reflexivity.
Qed.

(** X25. Sorting adds an ORDER BY clause only for a column name that matches
    the identifier pattern, and the direction it writes is ASC or DESC
    whatever text was sent; the count statement and the parameters are
    not touched. *)
Theorem sorting_is_safe (sortBy sortOrder : option string) (b : Building) :
  let sorted := addSorting sortBy sortOrder b in
  countQuery sorted = countQuery b /\ queryParams sorted = queryParams b /\
  paramCount sorted = paramCount b /\
  (baseQuery sorted = baseQuery b \/
   exists column direction,
     sortBy = Some column /\ Regex.is_identifier column = true /\
     (direction = "ASC" \/ direction = "DESC") /\
     baseQuery sorted
     = baseQuery b +:+ " ORDER BY " +:+ quoted column +:+ " " +:+ direction /\
     JsString.count_char JsString.dquote (baseQuery sorted)
     = JsString.count_char JsString.dquote (baseQuery b) + 2).
Proof.
  unfold addSorting. destruct sortBy as [column|]; [|repeat split; left; reflexivity].
  destruct (negb (falsy_string column) && Regex.test_anchored Regex.identifier_re column)
    eqn:Hvalid; [|repeat split; left; reflexivity].
  cbn [countQuery queryParams paramCount baseQuery]. repeat split.
  right. exists column.
  assert (Hid : Regex.is_identifier column = true).
  { pose proof (invalidTableName_is_identifier column) as Hinv.
    unfold invalidTableName in Hinv. apply andb_true_iff in Hvalid as [Hf Ht].
    rewrite Ht in Hinv. apply negb_true_iff in Hf. rewrite Hf in Hinv. simpl in Hinv.
    destruct (Regex.is_identifier column); [reflexivity | discriminate]. }
  set (order := default "asc" sortOrder).
  assert (Hdir : exists direction,
            (direction = "ASC" \/ direction = "DESC") /\
            JsString.toUpperCase
              (if existsb (String.eqb (JsString.toLowerCase order)) ["asc"; "desc"]
               then order else "asc") = direction).
  { cbn [existsb].
    destruct (String.eqb_spec (JsString.toLowerCase order) "asc") as [Hasc | _]; cbn [orb].
    - exists "ASC". split; [left; reflexivity|].
      rewrite <- toUpperCase_of_toLowerCase, Hasc. reflexivity.
    - destruct (String.eqb_spec (JsString.toLowerCase order) "desc") as [Hdesc | _];
        cbn [orb].
      + exists "DESC". split; [right; reflexivity|].
        rewrite <- toUpperCase_of_toLowerCase, Hdesc. reflexivity.
      + exists "ASC". split; [left; reflexivity | reflexivity]. }
  destruct Hdir as [direction [Hd He]].
  exists direction. split; [reflexivity|]. split; [exact Hid|]. split; [exact Hd|].
  rewrite He. split; [reflexivity|].
  unfold quoted, dq. rewrite !count_char_app, (identifier_no_quote _ Hid).
  destruct Hd as [-> | ->]; simpl; lia.
Qed.

(** X26. A table name that passed the guard cannot end the quoted identifier
    it is written into: the export statement, and the data and count
    statements of a list request without search or sorting, hold exactly
    the two double quotes of their templates. *)
Theorem validated_name_stays_quoted (tableName : string) (page limit : option string) :
  invalidTableName tableName = false ->
  let built := addPagination page limit (startBuilding tableName) in
  JsString.count_char JsString.dquote tableName = 0 /\
  JsString.count_char JsString.dquote (exportSql tableName) = 2 /\
  JsString.count_char JsString.dquote (countQuery built) = 2 /\
  JsString.count_char JsString.dquote (baseQuery built) = 2.
Proof.
  intros Hok built.
  assert (Hname : JsString.count_char JsString.dquote tableName = 0).
  { apply identifier_no_quote. rewrite invalidTableName_is_identifier in Hok.
    destruct (Regex.is_identifier tableName); [reflexivity | discriminate]. }
  assert (Hquoted : JsString.count_char JsString.dquote (quoted tableName) = 2).
  { unfold quoted, dq. rewrite !count_char_app, Hname. reflexivity. }
  split; [exact Hname|]. split; [|split].
  - unfold exportSql. rewrite !count_char_app, Hquoted. reflexivity.
  - unfold built, addPagination, startBuilding. cbn [countQuery].
    rewrite !count_char_app, Hquoted. reflexivity.
  - unfold built, addPagination, startBuilding. cbn [baseQuery paramCount].
    rewrite !count_char_app, !placeholder_no_quote, Hquoted. reflexivity.
Qed.

End ListFacts.

Lemma list_parameters_agree_witness :
  exists order,
    snd (run namesDb
           (listRoute Sample.production "users"
              {| q_page := Some "2"; q_limit := Some "10"; q_search := Some "ann";
                 q_sortBy := Some "name"; q_sortOrder := Some "Desc" |}))
    = [Connect;
       Query searchColumnsSql (Some [PStr "users"]);
       Query ("SELECT * FROM " +:+ quoted "users" +:+ " WHERE ("
              +:+ quoted "name" +:+ "::text ILIKE $1)" +:+ order
              +:+ " LIMIT $2 OFFSET $3")
             (Some [PStr "%ann%"; PNum (JsNum.Fin 10); PNum (JsNum.Fin 10)]);
       Query ("SELECT COUNT(*) FROM " +:+ quoted "users" +:+ " WHERE ("
              +:+ quoted "name" +:+ "::text ILIKE $1)")
             (Some [PStr "%ann%"]);
       End_].
Proof.
  assert (Hne : "ann" <> "") by discriminate.
  destruct (list_parameters_agree (H := Sample.runtime) Sample.production namesDb
              "users" "ann"
              {| q_page := Some "2"; q_limit := Some "10"; q_search := Some "ann";
                 q_sortBy := Some "name"; q_sortOrder := Some "Desc" |}
              _ _ eq_refl Hne (surjective_pairing _) eq_refl)
    as (columnsResult & cols & textColumns & order & Hcolumns & Hcols & Htext & Htrace & _).
  exists order.
  vm_compute in Hcolumns. injection Hcolumns as <-.
  vm_compute in Hcols. injection Hcols as <-.
  vm_compute in Htext. injection Htext as <-.
  rewrite Htrace. reflexivity.
Defined.

Lemma validated_name_stays_quoted_witness :
  JsString.count_char JsString.dquote (exportSql "users") = 2.
Proof.
  apply (validated_name_stays_quoted (H := Sample.runtime) "users" None None).
  reflexivity.
Defined.

(** ** Insert and update statements *)

Section MutationStatementFacts.
Context `{JsRuntime}.

Lemma insertSql_text (tableName : string) (recordData : Row) :
  insertSql tableName recordData
  = nl +:+ indent12 +:+ "INSERT INTO " +:+ quoted tableName +:+ " ("
    +:+ JsString.join ", " (map (fun kv => quoted (fst kv)) recordData) +:+ ")"
    +:+ nl +:+ indent12 +:+ "VALUES ("
    +:+ JsString.join ", " (imap (fun i _ => placeholder (i + 1)) recordData) +:+ ")"
    +:+ nl +:+ indent12 +:+ "RETURNING *;"
    +:+ nl +:+ indent8.
Proof.
  unfold insertSql, placeholders, keys, values.
  rewrite map_map, imap_fmap. reflexivity.
Qed.

Lemma updateSql_text (tableName pkColumn : string) (recordData : Row) :
  updateSql tableName pkColumn recordData
  = nl +:+ indent12 +:+ "UPDATE " +:+ quoted tableName
    +:+ nl +:+ indent12 +:+ "SET "
    +:+ JsString.join ", "
          (imap (fun i kv => quoted (fst kv) +:+ " = " +:+ placeholder (i + 1)) recordData)
    +:+ nl +:+ indent12 +:+ "WHERE " +:+ quoted pkColumn +:+ " = "
    +:+ placeholder (length recordData + 1)
    +:+ nl +:+ indent12 +:+ "RETURNING *;"
    +:+ nl +:+ indent8.
Proof.
  unfold updateSql, setClause, keys, values.
  rewrite imap_fmap, length_map. reflexivity.
Qed.

(** X27. Columns, placeholders and parameters of an insert or update line
    up. Once the connection is made, the insert route sends one
    statement whose i-th column is the i-th key of the body, whose i-th
    value is placeholder i + 1, and whose i-th parameter is that key's
    value. The update route, when the table has a primary key, sends one
    statement whose i-th assignment sets the i-th key to placeholder
    i + 1, with the same parameters followed by the id, which is bound
    under the number the WHERE clause names. *)
Theorem statement_parameters_align (env : ProcessEnv) (db : Oracle)
    (tableName id : string) (recordData : Row) :
  invalidTableName tableName = false ->
  (exists c, db [] Connect = Resolved c) ->
  let n := length recordData in
  let columns := map (fun kv => quoted (fst kv)) recordData in
  let marks := imap (fun i _ => placeholder (i + 1)) recordData in
  let assignments :=
    imap (fun i kv => quoted (fst kv) +:+ " = " +:+ placeholder (i + 1)) recordData in
  let bound := map (fun kv => PVal (snd kv)) recordData in
  snd (run db (insertRoute env tableName recordData))
  = [Connect;
     Query (nl +:+ indent12 +:+ "INSERT INTO " +:+ quoted tableName +:+ " ("
            +:+ JsString.join ", " columns +:+ ")"
            +:+ nl +:+ indent12 +:+ "VALUES (" +:+ JsString.join ", " marks +:+ ")"
            +:+ nl +:+ indent12 +:+ "RETURNING *;"
            +:+ nl +:+ indent8)
           (Some bound);
     End_] /\
  (forall pkResult pkRows,
     db [Connect] (pkLookup tableName) = Resolved pkResult ->
     rows pkResult = Some pkRows -> pkRows <> [] ->
     snd (run db (updateRoute env tableName id recordData))
     = [Connect;
        pkLookup tableName;
        Query (nl +:+ indent12 +:+ "UPDATE " +:+ quoted tableName
               +:+ nl +:+ indent12 +:+ "SET " +:+ JsString.join ", " assignments
               +:+ nl +:+ indent12 +:+ "WHERE " +:+ quoted (pkColumnOf pkRows) +:+ " = "
               +:+ placeholder (n + 1)
               +:+ nl +:+ indent12 +:+ "RETURNING *;"
               +:+ nl +:+ indent8)
              (Some (bound ++ [PStr id])%list);
        End_]) /\
  (length columns = n /\ length marks = n /\ length assignments = n /\ length bound = n) /\
  (bound ++ [PStr id])%list !! n = Some (PStr id) /\
  (forall i k v, recordData !! i = Some (k, v) ->
     columns !! i = Some (quoted k) /\
     marks !! i = Some (placeholder (i + 1)) /\
     assignments !! i = Some (quoted k +:+ " = " +:+ placeholder (i + 1)) /\
     bound !! i = Some (PVal v)).
Proof.
  intros Hok [c Hc] n columns marks assignments bound.
  assert (Hbound : map PVal (values recordData) = bound).
  { unfold values. apply map_map. }
  split; [|split; [|split; [|split]]].
  - unfold insertRoute, run, tryCatchFinally, tbind, await.
    rewrite Hok. cbn [bind run_from app]. rewrite Hc. cbn [bind run_from app].
    rewrite insertSql_text, Hbound. fold columns. fold marks.
    match goal with |- context [db [Connect] ?op] => destruct (db [Connect] op) as [r | e] end.
    + cbn [bind run_from app]. destruct (rows r); reflexivity.
    + reflexivity.
  - intros pkResult pkRows Hpk Hrows Hne.
    unfold updateRoute, run, tryCatchFinally, tbind, await.
    rewrite Hok. cbn [bind run_from app]. rewrite Hc. cbn [bind run_from app].
    unfold pkLookup in Hpk. rewrite Hpk. cbn [bind run_from app].
    rewrite Hrows. cbn [defined bind pure run_from app].
    destruct pkRows as [|pk pks]; [congruence|]. cbn [length Nat.eqb].
    rewrite updateSql_text, Hbound. fold assignments. fold n.
    cbn [bind run_from app].
    match goal with
    | |- context [db ?done (Query ?text ?ps)] =>
        destruct (db done (Query text ps)) as [r | e]
    end.
    + cbn [bind run_from app]. destruct (rows r) as [rs|]; [|reflexivity].
      cbn [defined bind pure run_from app]. destruct (length rs =? 0)%nat; reflexivity.
    + reflexivity.
  - subst columns marks assignments bound n.
    rewrite !length_map, !length_imap. auto.
  - subst bound n. rewrite lookup_app_r by (rewrite length_map; lia).
    rewrite length_map, Nat.sub_diag. reflexivity.
  - subst columns marks assignments bound. clear.
    assert (Hgen : forall (l : list (string * Value)) i k v, l !! i = Some (k, v) ->
              map (fun kv => quoted (fst kv)) l !! i = Some (quoted k) /\
              imap (fun i (_ : string * Value) => placeholder (i + 1)) l !! i
              = Some (placeholder (i + 1)) /\
              imap (fun i (kv : string * Value) =>
                      quoted (fst kv) +:+ " = " +:+ placeholder (i + 1)) l !! i
              = Some (quoted k +:+ " = " +:+ placeholder (i + 1)) /\
              map (fun kv => PVal (snd kv)) l !! i = Some (PVal v)).
    { intros l i k v Hi. rewrite !list_lookup_fmap, !list_lookup_imap, Hi. auto. }
    intros i k v Hi. exact (Hgen recordData i k v Hi).
Qed.

End MutationStatementFacts.

Lemma statement_parameters_align_witness :
  snd (run Sample.emptyDb (insertRoute Sample.production "users" Sample.obrien))
  = [Connect;
     Query (nl +:+ indent12 +:+ "INSERT INTO " +:+ quoted "users" +:+ " ("
            +:+ quoted "id" +:+ ", " +:+ quoted "name" +:+ ")"
            +:+ nl +:+ indent12 +:+ "VALUES ($1, $2)"
            +:+ nl +:+ indent12 +:+ "RETURNING *;"
            +:+ nl +:+ indent8)
           (Some [PVal (VNum (H := Sample.runtime) 1%Z); PVal (VStr "O'Brien, A")]);
     End_].
Proof.
  assert (Hok : invalidTableName "users" = false) by reflexivity.
  assert (Hc : exists c, Sample.emptyDb [] Connect = Resolved c)
    by (exists Sample.emptyResult; reflexivity).
  destruct (statement_parameters_align (H := Sample.runtime) Sample.production
              Sample.emptyDb "users" "7" Sample.obrien Hok Hc) as (Hinsert & _).
  rewrite Hinsert. reflexivity.
Defined.

(** ** Reading an export back *)


Section ReadBackFacts.
Context `{JsRuntime}.




End ReadBackFacts.


(** ** The scan of the query route *)

Lemma lower_char_space (c : ascii) :
  JsString.is_space (JsString.lower_char c) = JsString.is_space c.
Proof. destruct c as [[] [] [] [] [] [] [] []]; reflexivity. Qed.

Lemma trimStart_lower (s : string) :
  JsString.trimStart (JsString.toLowerCase s) = JsString.toLowerCase (JsString.trimStart s).
Proof.
  induction s as [|c s IH]; [reflexivity|].
  unfold JsString.toLowerCase in *. cbn [JsString.map_chars JsString.trimStart].
  rewrite lower_char_space. destruct (JsString.is_space c); [exact IH | reflexivity].
Qed.

Lemma rev_acc_lower (s acc : string) :
  JsString.rev_acc (JsString.toLowerCase s) (JsString.toLowerCase acc)
  = JsString.toLowerCase (JsString.rev_acc s acc).
Proof.
  revert acc. induction s as [|c s IH]; intros acc; [reflexivity|].
  unfold JsString.toLowerCase in *. cbn [JsString.map_chars JsString.rev_acc].
  apply (IH (String c acc)).
Qed.

Lemma trim_lower (s : string) :
  JsString.trim (JsString.toLowerCase s) = JsString.toLowerCase (JsString.trim s).
Proof.
  unfold JsString.trim, JsString.trimEnd, JsString.rev.
  rewrite trimStart_lower.
  rewrite (rev_acc_lower _ ""), trimStart_lower, (rev_acc_lower _ ""). reflexivity.
Qed.

(** X29. The scan does not look at letter case: two texts that differ only in
    the case of their letters get the same warnings. *)
Theorem scanWarnings_ignores_case (query other : string) :
  JsString.toLowerCase other = JsString.toLowerCase query ->
  scanWarnings other = scanWarnings query.
Proof.
  intros Hsame. unfold scanWarnings.
  assert (Hlow : JsString.toLowerCase (JsString.trim other)
                 = JsString.toLowerCase (JsString.trim query)).
  { rewrite <- !trim_lower, Hsame. reflexivity. }
  rewrite Hlow. reflexivity.
Qed.

Lemma scanWarnings_ignores_case_witness :
  scanWarnings "Drop Table users" = scanWarnings "DROP TABLE USERS".
Proof.
  apply scanWarnings_ignores_case. reflexivity.
Defined.

(** ** The first error decides the response *)

Section FirstErrorFacts.
Context `{JsRuntime}.

Lemma run_from_bind {A B : Type} (db : Oracle) (m : Prog A) (k : A -> Prog B) :
  forall done,
    run_from db done (bind m k)
    = run_from db (snd (run_from db done m)) (k (fst (run_from db done m))).
Proof.
  induction m as [a | op f IH]; intros done; simpl; [reflexivity | apply IH].
Qed.

Lemma failing_run {A : Type} (e : JsError) (p : Try A) (db : Oracle) :
  Failing e p -> forall done, fst (run_from db done p) = inl e.
Proof.
  intros Hp. induction Hp as [| text params k Hk IH]; intros done; simpl;
    [reflexivity | apply IH].
Qed.

Lemma failing_tbind {A B : Type} (e : JsError) (m : Try A) (k : A -> Try B) :
  Failing e m -> Failing e (tbind m k).
Proof.
  intros Hm. induction Hm as [| text params f Hf IH]; unfold tbind in *; simpl.
  - constructor.
  - constructor. exact IH.
Qed.

Lemma catching_tbind {A B : Type} (m : Try A) (k : A -> Try B) :
  Catching m -> (forall a, Catching (k a)) -> Catching (tbind m k).
Proof.
  intros Hm Hk. induction Hm as [[e | a] | op f Hop Hres IH Hrej]; unfold tbind in *; simpl.
  - constructor.
  - apply Hk.
  - constructor; [exact Hop | exact IH |].
    intros e. apply (failing_tbind e (f (Rejected e)) k). apply Hrej.
Qed.

Lemma catching_await (op : DbOp) : op <> End_ -> Catching (await op).
Proof.
  intros Hop. unfold await. constructor; [exact Hop | |]; intros; constructor.
Qed.

Lemma catching_defined {A : Type} (what : string) (x : option A) : Catching (defined what x).
Proof. destruct x; constructor. Qed.

Lemma catching_run {A : Type} (p : Try A) (db : Oracle) (e : JsError) :
  Catching p ->
  forall done,
    firstRejectionFrom db done (drop (length done) (snd (run_from db done p))) = Some e ->
    fst (run_from db done p) = inl e.
Proof.
  intros Hp. induction Hp as [r | op k Hop Hres IH Hrej]; intros done; simpl.
  - rewrite drop_all. discriminate.
  - destruct (run_from_extends db (k (db done op)) (done ++ [op])%list) as [rest Hrest].
    rewrite Hrest, <- app_assoc, drop_app_length. simpl.
    destruct (db done op) as [r | e'] eqn:Hans.
    + intros Hfirst. apply IH.
      rewrite Hrest, drop_app_length'; [|reflexivity].
      destruct op; try (rewrite Hans in Hfirst; exact Hfirst). congruence.
    + intros Hfirst.
      assert (e' = e) by (destruct op; try rewrite Hans in Hfirst; congruence). subst e'.
      apply failing_run. apply Hrej.
Qed.

Lemma firstRejectionFrom_end (db : Oracle) (trace : list DbOp) :
  forall done,
    firstRejectionFrom db done (trace ++ [End_]) = firstRejectionFrom db done trace.
Proof.
  induction trace as [|op trace IH]; intros done; simpl; [reflexivity|].
  destruct op; try apply IH; destruct (db done _); try reflexivity; apply IH.
Qed.

(** A [try] block whose body throws every rejected call answers, after
    the first rejection, with what its handler makes of that error. *)
Lemma first_error_handled {A : Type} (k : QueryResult -> Try A) (handler : JsError -> A)
    (db : Oracle) (e : JsError) :
  (forall x, Catching (k x)) ->
  firstRejection db (snd (run db (tryCatchFinallyAs (tbind (await Connect) k) handler)))
  = Some e ->
  fst (run db (tryCatchFinallyAs (tbind (await Connect) k) handler)) = handler e.
Proof.
  intros Hk. set (body := tbind (await Connect) k).
  assert (Hbody : Catching body).
  { apply catching_tbind; [apply catching_await; discriminate | exact Hk]. }
  unfold firstRejection, run, tryCatchFinallyAs. rewrite run_from_bind.
  cbn [run_from fst snd]. rewrite firstRejectionFrom_end. intros Hfirst.
  rewrite (catching_run body db e Hbody [] Hfirst). reflexivity.
Qed.

Ltac catching :=
  repeat first
    [ apply catching_tbind
    | apply catching_await; discriminate
    | apply catching_defined
    | apply Catching_ret
    | apply Catching_do; [discriminate | |]
    | apply Failing_query
    | apply Failing_ret
    | progress intros
    | match goal with
      | |- Catching (match ?x with _ => _ end) => destruct x
      | |- Catching (if ?x then _ else _) => destruct x
      | |- Catching (let '(_, _) := ?x in _) => destruct x
      | |- Catching (pure _) => unfold pure
      | |- Catching (throw _) => unfold throw
      | |- Failing _ (match ?x with _ => _ end) => destruct x
      | |- Failing _ (throw _) => unfold throw
      end ].

(** X30. In the six table routes that answer in JSON, and in the [/tables]
    and [/database-info] routes, the first call the server rejects,
    the ending of the client apart, decides the response: it is [handleDatabaseError] of that error,
    whatever the server answers afterwards. The query route and the
    health route answer with their own 500 payload carrying that error's
    message. *)
Theorem first_error_decides (env : ProcessEnv) (db : Oracle) (tableName : string)
    (r : TableRequest) (startTime endTime : Z) (query : option string)
    (timestamp : string) (e : JsError) :
  (r <> GetView ->
   firstRejection db (snd (run db (handle env tableName r))) = Some e ->
   fst (run db (handle env tableName r)) = handleDatabaseError env e) /\
  (firstRejection db (snd (run db (tablesRoute env))) = Some e ->
   fst (run db (tablesRoute env)) = Failed (handleDatabaseError env e)) /\
  (firstRejection db (snd (run db (databaseInfoRoute env))) = Some e ->
   fst (run db (databaseInfoRoute env)) = Failed (handleDatabaseError env e)) /\
  (firstRejection db (snd (run db (runQueryRoute startTime endTime query))) = Some e ->
   exists warnings,
     fst (run db (runQueryRoute startTime endTime query))
     = respond 500 (QueryFailedBody "Query execution failed" (err_message e) (err_code e)
                      (endTime - startTime) warnings)) /\
  (firstRejection db (snd (run db (healthRoute timestamp))) = Some e ->
   fst (run db (healthRoute timestamp))
   = Info 500 (HealthBody "unhealthy" timestamp "disconnected" (Some (err_message e)))).
Proof.
  split; [|split; [|split; [|split]]].
  - intros Hview.
    destruct r; try congruence; simpl;
      unfold schemaRoute, listRoute, insertRoute, updateRoute, deleteRoute, exportRoute;
      (destruct (invalidTableName tableName); [discriminate|]);
      apply (first_error_handled _ (handleDatabaseError env)); intros; catching.
  - apply (first_error_handled _ (fun err => Failed (handleDatabaseError env err))).
    intros; catching.
  - apply (first_error_handled _ (fun err => Failed (handleDatabaseError env err))).
    intros; catching.
  - unfold runQueryRoute. destruct (negb (truthy query)); [discriminate|].
    intros Hfirst. eexists.
    apply (first_error_handled _
             (fun err => respond 500
                (QueryFailedBody "Query execution failed" (err_message err) (err_code err)
                   (endTime - startTime) (scanWarnings (default "" query))))
             db e); [intros; catching | exact Hfirst].
  - apply (first_error_handled _
             (fun err => Info 500 (HealthBody "unhealthy" timestamp "disconnected"
                                     (Some (err_message err))))).
    intros; catching.
Qed.

End FirstErrorFacts.

Lemma first_error_decides_witness :
  fst (run (Sample.failingDb {| err_code := Some "28P01"; err_message := "denied" |})
           (handle Sample.production "users" (PostData Sample.obrien)))
  = handleDatabaseError Sample.production
      {| err_code := Some "28P01"; err_message := "denied" |}.
Proof.
  apply (proj1 (first_error_decides (H := Sample.runtime) Sample.production
                  (Sample.failingDb {| err_code := Some "28P01"; err_message := "denied" |})
                  "users" (PostData Sample.obrien) 0 0 None ""
                  {| err_code := Some "28P01"; err_message := "denied" |})).
  - discriminate.
  - reflexivity.
Defined.
